(** * The offline-first library cache of dasso

    A shallow embedding of [src/lib/services/localStorageService.ts]
    (the Record Store over sql.js and the Blob Cache over the Capacitor
    Filesystem) and of the [BookService] class that reconciles it with the
    remote catalog, followed by the properties of the design document that
    concern them.

    Asynchronous code is run to completion one [await] after the other, so
    every method is a function of the outside world ([Env]) and of the
    mutable state of the page ([World]) that returns an outcome (a value or
    a thrown error) and the state it leaves behind.

    The service is modelled as it runs in the browser, where the database
    is sql.js; table [books] is a finite map from the primary key [id] to
    the other columns, and [SELECT *] lists it in the order of the map.
    What the host provides ([Date], string methods, base64, [fetch],
    [FileReader], the Filesystem plugin, the supabase client) is modelled
    after its documentation. *)

From Stdlib Require Import ZArith NArith String Ascii List Bool Lia DecimalString
  DecimalZ DecimalPos.
From stdpp Require Import gmap strings list.

Local Open Scope string_scope.
Local Open Scope list_scope.
Local Open Scope Z_scope.

(** ** Data model *)

(** A value that came out of [JSON.parse] (the [any] of [vocab_mastery]). *)
#[local] Unset Elimination Schemes.
Inductive json : Type :=
| JNull
| JBool (b : bool)
| JNum (n : Z)
| JStr (s : string)
| JArr (items : list json)
| JObj (members : list (string * json)).
#[local] Set Elimination Schemes.

(** [interface SupabaseBook]. A [string | null] field is an [option];
    numbers are integers here. [is_crafted] is [None] on an object that
    has no such property, which is what [transformQueryResult] builds:
    the [books] table has no [is_crafted] column. *)
Record SupabaseBook : Type := {
  id : string;
  title : string;
  author : string;
  content_url : string;
  cover_image : string;
  narration_url : option string;
  podcast_url : option string;
  content_category : string;
  current_page : Z;
  total_pages : Z;
  last_read : option string;
  narration_status : option string;
  podcast_status : option string;
  highlighted_words : option (list string);
  difficult_words : option (list string);
  vocab_mastery : json;
  read_progress : Z;
  audio_progress : option Z;
  book_language : string;
  is_favorite : bool;
  is_offline : bool;
  synced_with_supabase : bool;
  is_crafted : option bool;
  created_at : string;
  updated_at : string
}.

(** [interface LocalBook extends SupabaseBook]. *)
Record LocalBook : Type := {
  base :> SupabaseBook;
  is_manual : bool;
  cache_expiry : string;
  local_content_path : option string;
  local_narration_path : option string;
  local_podcast_path : option string
}.

(** The text of a JSON-valued column: SQL NULL, the text [JSON.stringify]
    produced for [v], or some other text that [JSON.parse] rejects. *)
Inductive JsonText (A : Type) : Type :=
| SqlNull
| Stringified (v : A)
| Malformed (s : string).
Arguments SqlNull {A}.
Arguments Stringified {A} v.
Arguments Malformed {A} s.

(** The columns of table [books] other than the primary key [id], in the
    order of [createTables]. BOOLEAN columns hold 0 or 1. *)
Record Cols : Type := {
  c_title : string;
  c_author : string;
  c_content_url : string;
  c_cover_image : string;
  c_narration_url : option string;
  c_podcast_url : option string;
  c_content_category : string;
  c_current_page : Z;
  c_total_pages : Z;
  c_last_read : option string;
  c_narration_status : option string;
  c_podcast_status : option string;
  c_highlighted_words : JsonText (option (list string));
  c_difficult_words : JsonText (option (list string));
  c_vocab_mastery : JsonText json;
  c_read_progress : Z;
  c_audio_progress : option Z;
  c_book_language : string;
  c_is_favorite : Z;
  c_is_offline : Z;
  c_is_manual : Z;
  c_synced_with_supabase : Z;
  c_cache_expiry : string;
  c_local_content_path : option string;
  c_local_narration_path : option string;
  c_local_podcast_path : option string;
  c_created_at : string;
  c_updated_at : string
}.

(** What sql.js hands back for one statement: the rows of the result, each
    a primary key and its other columns (the column list is the schema's). *)
Record QueryExecResult : Type := { values : list (string * Cols) }.

(** A [Blob]: its bytes and its media type. *)
Record Blob : Type := { blob_bytes : list Byte.byte; blob_type : string }.

(** What [Filesystem.readFile] may return in [data]. *)
Inductive FileData : Type :=
| DataString (s : string)
| DataBlob (b : Blob).

(** The answer of a [select] on the remote catalog: [{ data, error }]. *)
Record SelectResponse : Type := {
  data : option (list SupabaseBook);
  error : option string
}.

Record Error : Type := { message : string }.

(** ** The outside world and the state of the page *)

(** Calls that leave the page, oldest first (ghost state). *)
Inductive Event : Type :=
| Cached (fileUrl fileType path : string)
| Deleted (path : string)
| RemoteUpdated (bookId : string) (progress : Z).

Record Env : Type := {
  clock : nat -> Z;                       (* the k-th reading of the clock, in ms *)
  navigator_onLine : bool;
  engine_loads : bool;                    (* does [initSqlJs] resolve? *)
  http : string -> option Blob;           (* [fetch(url)] then [blob()]; [None]: rejected *)
  remote_books : SelectResponse;          (* [from('books').select('*')] *)
  remote_update : string -> Z -> option string   (* the [error] of an update *)
}.

Record World : Type := {
  sqlite : option (gmap string Cols);     (* [this.sqlite] and its table [books] *)
  files : gmap string FileData;           (* [Directory.Data] *)
  ticks : nat;                            (* clock readings taken so far *)
  trace : list Event
}.

Definition set_sqlite (db : option (gmap string Cols)) (w : World) : World :=
  {| sqlite := db; files := files w; ticks := ticks w; trace := trace w |}.

Definition set_files (fs : gmap string FileData) (w : World) : World :=
  {| sqlite := sqlite w; files := fs; ticks := ticks w; trace := trace w |}.

Definition tick (w : World) : World :=
  {| sqlite := sqlite w; files := files w; ticks := S (ticks w); trace := trace w |}.

Definition emit (e : Event) (w : World) : World :=
  {| sqlite := sqlite w; files := files w; ticks := ticks w; trace := trace w ++ [e] |}.

(** ** Computations that read the world, change the state and may throw *)

Inductive Outcome (A : Type) : Type :=
| Ok (a : A)
| Throw (e : Error).
Arguments Ok {A} a.
Arguments Throw {A} e.

Definition M (A : Type) : Type := Env -> World -> Outcome A * World.

Definition ret {A : Type} (a : A) : M A := fun _ w => (Ok a, w).

Definition throw {A : Type} (e : Error) : M A := fun _ w => (Throw e, w).

Definition bind {A B : Type} (m : M A) (k : A -> M B) : M B :=
  fun env w =>
    match m env w with
    | (Ok a, w') => k a env w'
    | (Throw e, w') => (Throw e, w')
    end.

(** [try { m } catch (error) { handler }]: the state changes made before
    the throw stay. *)
Definition try_catch {A : Type} (m : M A) (handler : Error -> M A) : M A :=
  fun env w =>
    match m env w with
    | (Ok a, w') => (Ok a, w')
    | (Throw e, w') => handler e env w'
    end.

Notation "'let*' x ':=' m 'in' k" := (bind m (fun x => k))
  (at level 10, x name, m at level 100, k at level 200).

Definition ask {A : Type} (f : Env -> A) : M A := fun env w => (Ok (f env), w).
Definition gets {A : Type} (f : World -> A) : M A := fun _ w => (Ok (f w), w).
Definition modify (f : World -> World) : M unit := fun _ w => (Ok tt, f w).

(** [Date.now()]. *)
Definition Date_now : M Z := fun env w => (Ok (clock env (ticks w)), tick w).

(** ** Built-ins of the host *)

(** *** Dates *)

(** [n] written with [width] decimal digits, zero padded. *)
Fixpoint digits (width : nat) (n : Z) : string :=
  match width with
  | O => ""
  | S k => digits k (n / 10) +:+ String (ascii_of_N (48 + Z.to_N (n mod 10))) ""
  end.

(** Year, month and day of the [z]-th day after 1970-01-01 (proleptic
    Gregorian calendar). *)
Definition civil_from_days (z : Z) : Z * Z * Z :=
  let z := z + 719468 in
  let era := z / 146097 in
  let doe := z - era * 146097 in
  let yoe := (doe - doe / 1460 + doe / 36524 - doe / 146096) / 365 in
  let doy := doe - (365 * yoe + yoe / 4 - yoe / 100) in
  let mp := (5 * doy + 2) / 153 in
  let d := doy - (153 * mp + 2) / 5 + 1 in
  let m := if mp <? 10 then mp + 3 else mp - 9 in
  let y := yoe + era * 400 in
  (if m <=? 2 then y + 1 else y, m, d).

(** [new Date(ms).toISOString()]. *)
Definition toISOString (ms : Z) : string :=
  let '(y, m, d) := civil_from_days (ms / 86400000) in
  let r := ms mod 86400000 in
  let year :=
    if (0 <=? y) && (y <=? 9999) then digits 4 y
    else (if y <? 0 then "-" else "+") +:+ digits 6 (Z.abs y) in
  year +:+ "-" +:+ digits 2 m +:+ "-" +:+ digits 2 d +:+ "T" +:+
  digits 2 (r / 3600000) +:+ ":" +:+ digits 2 (r / 60000 mod 60) +:+ ":" +:+
  digits 2 (r / 1000 mod 60) +:+ "." +:+ digits 3 (r mod 1000) +:+ "Z".

(** *** Strings *)

(** [a > b] on two strings. *)
Definition str_gt (a b : string) : bool := String.ltb b a.

(** Is a string truthy (not empty)? *)
Definition nonempty (s : string) : bool :=
  match s with
  | EmptyString => false
  | String _ _ => true
  end.

(** Is a [string | null] truthy? *)
Definition truthy (o : option string) : bool :=
  match o with
  | Some s => nonempty s
  | None => false
  end.

(** [o || null]. *)
Definition or_null (o : option string) : option string :=
  if truthy o then o else None.

(** [s.startsWith(sub)]. *)
Fixpoint starts_with (s sub : string) {struct sub} : bool :=
  match sub with
  | EmptyString => true
  | String a sub' =>
      match s with
      | EmptyString => false
      | String b s' => Ascii.eqb a b && starts_with s' sub'
      end
  end.

(** [s.includes(sub)]. *)
Fixpoint includes (s sub : string) : bool :=
  starts_with s sub ||
  match s with
  | EmptyString => false
  | String _ s' => includes s' sub
  end.

(** [s.split(sep)] for a separator that is not empty: [skip] characters
    of a separator just matched are still to be passed over, [cur] is the
    piece being read. *)
Fixpoint split_from (sep : string) (skip : nat) (cur : string) (s : string)
  : list string :=
  match s with
  | EmptyString => [cur]
  | String c s' =>
      match skip with
      | S k => split_from sep k cur s'
      | O =>
          if starts_with s sep
          then cur :: split_from sep (String.length sep - 1) "" s'
          else split_from sep 0 (cur +:+ String c "") s'
      end
  end.

Definition split (s sep : string) : list string := split_from sep 0 "" s.

(** *** Base64 *)

Definition b64_alphabet : string :=
  "ABCDEFGHIJKLMNOPQRSTUVWXYZabcdefghijklmnopqrstuvwxyz0123456789+/".

(** The character of a 6-bit value. *)
Definition b64_char (n : N) : ascii :=
  match String.get (N.to_nat n) b64_alphabet with
  | Some c => c
  | None => "="%char
  end.

Fixpoint position (c : ascii) (s : string) : option N :=
  match s with
  | EmptyString => None
  | String c' s' =>
      if Ascii.eqb c c' then Some 0%N else option_map N.succ (position c s')
  end.

(** The 6-bit value of a character of the alphabet. *)
Definition b64_value (c : ascii) : option N := position c b64_alphabet.

Definition of_N_byte (n : N) : Byte.byte :=
  match Byte.of_N n with
  | Some b => b
  | None => Byte.x00
  end.

Fixpoint b64_encode (bs : list Byte.byte) : string :=
  match bs with
  | [] => ""
  | [a] =>
      let a := Byte.to_N a in
      String (b64_char (a / 4)) (String (b64_char (a mod 4 * 16)) "==")
  | [a; b] =>
      let a := Byte.to_N a in
      let b := Byte.to_N b in
      String (b64_char (a / 4)) (String (b64_char (a mod 4 * 16 + b / 16))
        (String (b64_char (b mod 16 * 4)) "="))
  | a :: b :: c :: rest =>
      let a := Byte.to_N a in
      let b := Byte.to_N b in
      let c := Byte.to_N c in
      String (b64_char (a / 4)) (String (b64_char (a mod 4 * 16 + b / 16))
        (String (b64_char (b mod 16 * 4 + c / 64)) (String (b64_char (c mod 64))
          (b64_encode rest))))
  end%N.

(** [btoa] of a binary string. *)
Definition btoa (bs : list Byte.byte) : string := b64_encode bs.

(** The string without the characters that satisfy [p]. *)
Fixpoint remove_chars (p : ascii -> bool) (s : string) : string :=
  match s with
  | EmptyString => ""
  | String c s' => if p c then remove_chars p s' else String c (remove_chars p s')
  end.

(** The string without its longest suffix of characters that satisfy [p]. *)
Fixpoint strip_trailing (p : ascii -> bool) (s : string) : string :=
  match s with
  | EmptyString => ""
  | String c s' =>
      let rest := strip_trailing p s' in
      if negb (nonempty rest) && p c then "" else String c rest
  end.

(** ASCII whitespace: tab, line feed, form feed, carriage return, space. *)
Definition ascii_whitespace (c : ascii) : bool :=
  let n := N_of_ascii c in
  ((n =? 9) || (n =? 10) || (n =? 12) || (n =? 13) || (n =? 32))%N.

(** The string without a [=] at its end. *)
Fixpoint without_final_pad (s : string) : string :=
  match s with
  | EmptyString => ""
  | String c s' =>
      match s' with
      | EmptyString => if Ascii.eqb c "=" then "" else s
      | String _ _ => String c (without_final_pad s')
      end
  end.

(** The bytes of a sequence of characters of the alphabet, six bits each:
    three bytes of four characters, and at the end one byte of two
    characters or two bytes of three, the bits left over being dropped;
    one character left over is a failure. *)
Fixpoint decode_sextets (s : string) : option (list Byte.byte) :=
  match s with
  | EmptyString => Some []
  | String c1 EmptyString => None
  | String c1 (String c2 EmptyString) =>
      match b64_value c1, b64_value c2 with
      | Some v1, Some v2 => Some [of_N_byte (v1 * 4 + v2 / 16)]
      | _, _ => None
      end
  | String c1 (String c2 (String c3 EmptyString)) =>
      match b64_value c1, b64_value c2, b64_value c3 with
      | Some v1, Some v2, Some v3 =>
          Some [of_N_byte (v1 * 4 + v2 / 16);
                of_N_byte (v2 mod 16 * 16 + v3 / 4)]
      | _, _, _ => None
      end
  | String c1 (String c2 (String c3 (String c4 rest))) =>
      match b64_value c1, b64_value c2, b64_value c3, b64_value c4,
            decode_sextets rest with
      | Some v1, Some v2, Some v3, Some v4, Some more =>
          Some (of_N_byte (v1 * 4 + v2 / 16)
                  :: of_N_byte (v2 mod 16 * 16 + v3 / 4)
                  :: of_N_byte (v3 mod 4 * 64 + v4) :: more)
      | _, _, _, _, _ => None
      end
  end%N.

(** Forgiving-base64 decode, the decoder of [atob] and of [data:] URLs:
    ASCII whitespace is removed; when the length is then a multiple of
    four, one or two [=] at the end are removed; what is left must be
    characters of the alphabet, and not one more than a multiple of
    four. *)
Definition forgiving_base64_decode (data : string) : option (list Byte.byte) :=
  let data := remove_chars ascii_whitespace data in
  let data :=
    if (String.length data mod 4 =? 0)%nat
    then without_final_pad (without_final_pad data)
    else data in
  decode_sextets data.

(** [atob]; [None] when it throws. *)
Definition atob (str : string) : option (list Byte.byte) :=
  forgiving_base64_decode str.

(** *** URLs with the scheme [data:] *)

(** A C0 control or space. *)
Definition c0_control_or_space (c : ascii) : bool := (N_of_ascii c <=? 32)%N.

(** An ASCII tab or newline. *)
Definition ascii_tab_or_newline (c : ascii) : bool :=
  let n := N_of_ascii c in ((n =? 9) || (n =? 10) || (n =? 13))%N.

(** The string up to the first [stop]. *)
Fixpoint before (stop : ascii) (s : string) : string :=
  match s with
  | EmptyString => ""
  | String c s' => if Ascii.eqb c stop then "" else String c (before stop s')
  end.

(** The value of a hexadecimal digit. *)
Definition hex_value (c : ascii) : option N :=
  (let n := N_of_ascii c in
   if (48 <=? n) && (n <=? 57) then Some (n - 48)
   else if (65 <=? n) && (n <=? 70) then Some (n - 55)
   else if (97 <=? n) && (n <=? 102) then Some (n - 87)
   else None)%N.

(** Percent-decoding: [%] and two hexadecimal digits are one byte. *)
Fixpoint percent_decode (s : string) : string :=
  match s with
  | EmptyString => ""
  | String c s' =>
      match s' with
      | String h (String l rest) =>
          match (if Ascii.eqb c "%" then hex_value h else None), hex_value l with
          | Some a, Some b => String (ascii_of_N (16 * a + b)) (percent_decode rest)
          | _, _ => String c (percent_decode s')
          end
      | _ => String c (percent_decode s')
      end
  end%N.

(** The body of the URL [prefix + data], where [prefix] is a [data:] URL
    up to its comma: the URL parser takes the C0 controls and spaces off
    the end, removes tabs and newlines and ends the body at the first [#];
    the body is then percent-decoded. *)
Definition data_url_body (data : string) : string :=
  percent_decode
    (before "#"
       (remove_chars ascii_tab_or_newline
          (strip_trailing c0_control_or_space data))).

(** [FileReader.readAsDataURL(blob)]. *)
Definition readAsDataURL (blob : Blob) : string :=
  "data:" +:+ blob_type blob +:+ ";base64," +:+ b64_encode (blob_bytes blob).

(** [fetch('data:application/epub+zip;base64,' + data)] then [blob()]: the
    body of the URL is decoded as base64, and the fetch is rejected when
    that fails. *)
Definition fetch_epub_data_url (payload : string) : M Blob :=
  match forgiving_base64_decode (data_url_body payload) with
  | Some bs => ret {| blob_bytes := bs; blob_type := "application/epub+zip" |}
  | None => throw {| message := "Failed to fetch" |}
  end.

(** [fetch(url)] then [response.blob()]. *)
Definition fetch_blob (url : string) : M Blob :=
  fun env w =>
    match http env url with
    | Some blob => (Ok blob, w)
    | None => (Throw {| message := "Failed to fetch" |}, w)
    end.

(** *** The Capacitor Filesystem, directory [Directory.Data] *)

(** [isBase64String(str)] of the plugin: [btoa(atob(str)) == str], and
    [false] when [atob] throws. *)
Definition isBase64String (str : string) : bool :=
  match atob str with
  | Some bs => String.eqb (btoa bs) str
  | None => false
  end.

(** What [writeFile] takes as the content when it is given a string and
    no encoding: [data.indexOf(',') >= 0 ? data.split(',')[1] : data]. *)
Definition content_of_data (data : string) : string :=
  if includes data "," then nth 1 (split data ",") "" else data.

(** [Filesystem.writeFile({ path, data, directory, recursive: true })]
    with a string and no encoding: the content has to be base64. *)
Definition Filesystem_writeFile (path data : string) : M unit :=
  let data := content_of_data data in
  if isBase64String data
  then modify (fun w => set_files (<[path := DataString data]> (files w)) w)
  else throw {| message := "The supplied data is not valid base64 content." |}.

Definition Filesystem_readFile (path : string) : M FileData :=
  fun _ w =>
    match files w !! path with
    | Some d => (Ok d, w)
    | None => (Throw {| message := "File does not exist." |}, w)
    end.

Definition Filesystem_deleteFile (path : string) : M unit :=
  fun _ w =>
    match files w !! path with
    | Some _ => (Ok tt, emit (Deleted path) (set_files (delete path (files w)) w))
    | None => (Throw {| message := "File does not exist" |}, w)
    end.

(** ** [LocalStorageService] *)

(** [initSqlJs(...)]: rejected when the engine cannot be loaded. *)
Definition initSqlJs : M unit :=
  fun env w =>
    if engine_loads env then (Ok tt, w)
    else (Throw {| message := "failed to load sql.js" |}, w).

(** [createTables]: [CREATE TABLE IF NOT EXISTS books] keeps a table that
    is there; [this.sqlite?.execute] does nothing without a database. *)
Definition createTables : M unit := ret tt.

(** [initializeStorage], the branch for the web: a fresh in-memory
    database. A failure is caught and logged, [this.sqlite] stays [null]. *)
Definition initializeStorage : M unit :=
  try_catch
    (let* _ := initSqlJs in
     let* _ := modify (set_sqlite (Some ∅)) in
     createTables)
    (fun _ => ret tt).

(** [this.sqlite?.execute('SELECT * FROM books')]: [undefined] without a
    database, no result set when no row matches. *)
Definition execute_select_all : M (option (list QueryExecResult)) :=
  gets (fun w =>
    match sqlite w with
    | None => None
    | Some db =>
        match map_to_list db with
        | [] => Some []
        | rows => Some [ {| values := rows |} ]
        end
    end).

(** [this.sqlite?.execute('SELECT * FROM books WHERE id = ?', [id])]. *)
Definition execute_select_by_id (key : string)
  : M (option (list QueryExecResult)) :=
  gets (fun w =>
    match sqlite w with
    | None => None
    | Some db =>
        match db !! key with
        | None => Some []
        | Some cols => Some [ {| values := [(key, cols)] |} ]
        end
    end).

(** [this.sqlite?.run('INSERT OR REPLACE INTO books ...', values)]. *)
Definition run_insert_or_replace (row : string * Cols) : M unit :=
  modify (fun w =>
    match sqlite w with
    | None => w
    | Some db => set_sqlite (Some (<[fst row := snd row]> db)) w
    end).

(** [this.sqlite?.run('DELETE FROM books WHERE id = ?', [id])]. *)
Definition run_delete (key : string) : M unit :=
  modify (fun w =>
    match sqlite w with
    | None => w
    | Some db => set_sqlite (Some (delete key db)) w
    end).

(** [b ? 1 : 0] and [Boolean(x)]. *)
Definition bit (b : bool) : Z := if b then 1 else 0.
Definition Boolean (x : Z) : bool := negb (x =? 0).

(** [JSON.parse(text || '[]')] inside [try], [[]] in the [catch]. *)
Definition parse_or_empty {A : Type} (empty : A) (text : JsonText A) : A :=
  match text with
  | SqlNull => empty
  | Stringified v => v
  | Malformed _ => empty
  end.

(** The array [values] of [saveBook]. *)
Definition values_of (book : LocalBook) : string * Cols :=
  (id book,
   {| c_title := title book;
      c_author := author book;
      c_content_url := content_url book;
      c_cover_image := cover_image book;
      c_narration_url := narration_url book;
      c_podcast_url := podcast_url book;
      c_content_category := content_category book;
      c_current_page := current_page book;
      c_total_pages := total_pages book;
      c_last_read := last_read book;
      c_narration_status := narration_status book;
      c_podcast_status := podcast_status book;
      c_highlighted_words := Stringified (highlighted_words book);
      c_difficult_words := Stringified (difficult_words book);
      c_vocab_mastery := Stringified (vocab_mastery book);
      c_read_progress := read_progress book;
      c_audio_progress := audio_progress book;
      c_book_language := book_language book;
      c_is_favorite := bit (is_favorite book);
      c_is_offline := bit (is_offline book);
      c_is_manual := bit (is_manual book);
      c_synced_with_supabase := bit (synced_with_supabase book);
      c_cache_expiry := cache_expiry book;
      c_local_content_path := local_content_path book;
      c_local_narration_path := local_narration_path book;
      c_local_podcast_path := local_podcast_path book;
      c_created_at := created_at book;
      c_updated_at := updated_at book |}).

Definition saveBook (book : LocalBook) : M unit :=
  try_catch (run_insert_or_replace (values_of book)) (fun error => throw error).

(** The object [transformQueryResult] builds from one row: one property
    per column. *)
Definition book_of_row (row : string * Cols) : LocalBook :=
  let c := snd row in
  {| base :=
       {| id := fst row;
          title := c_title c;
          author := c_author c;
          content_url := c_content_url c;
          cover_image := c_cover_image c;
          narration_url := c_narration_url c;
          podcast_url := c_podcast_url c;
          content_category := c_content_category c;
          current_page := c_current_page c;
          total_pages := c_total_pages c;
          last_read := c_last_read c;
          narration_status := c_narration_status c;
          podcast_status := c_podcast_status c;
          highlighted_words := parse_or_empty (Some []) (c_highlighted_words c);
          difficult_words := parse_or_empty (Some []) (c_difficult_words c);
          vocab_mastery := parse_or_empty (JArr []) (c_vocab_mastery c);
          read_progress := c_read_progress c;
          audio_progress := c_audio_progress c;
          book_language := c_book_language c;
          is_favorite := Boolean (c_is_favorite c);
          is_offline := Boolean (c_is_offline c);
          synced_with_supabase := Boolean (c_synced_with_supabase c);
          is_crafted := None;
          created_at := c_created_at c;
          updated_at := c_updated_at c |};
     is_manual := Boolean (c_is_manual c);
     cache_expiry := c_cache_expiry c;
     local_content_path := c_local_content_path c;
     local_narration_path := c_local_narration_path c;
     local_podcast_path := c_local_podcast_path c |}.

Definition transformQueryResult (result : option (list QueryExecResult))
  : list LocalBook :=
  match result with
  | None => []
  | Some [] => []
  | Some (first :: _) => map book_of_row (values first)
  end.

Definition getBooks : M (list LocalBook) :=
  try_catch
    (let* result := execute_select_all in
     ret (transformQueryResult result))
    (fun error => throw error).

Definition getBook (key : string) : M (option LocalBook) :=
  try_catch
    (let* result := execute_select_by_id key in
     let books := transformQueryResult result in
     ret (head books))
    (fun error => throw error).

(** [deleteBookFiles]: a file that cannot be deleted is logged and passed
    over. *)
Fixpoint delete_each (paths : list string) : M unit :=
  match paths with
  | [] => ret tt
  | path :: rest =>
      let* _ := try_catch (Filesystem_deleteFile path) (fun _ => ret tt) in
      delete_each rest
  end.

Definition deleteBookFiles (book : LocalBook) : M unit :=
  let filesToDelete :=
    omap (fun path => path)
      [local_content_path book; local_narration_path book;
       local_podcast_path book] in
  delete_each filesToDelete.

Definition deleteBook (key : string) : M unit :=
  try_catch
    (let* _ := run_delete key in
     let* book := getBook key in
     match book with
     | Some book => deleteBookFiles book
     | None => ret tt
     end)
    (fun error => throw error).

(** The base64 text [cacheFile] takes out of the data URL. *)
Definition base64Content (base64String : string) : string :=
  if includes base64String "base64,"
  then nth 1 (split base64String "base64,") ""
  else base64String.

(** The decimal text of a number of milliseconds. *)
Definition decimal (n : Z) : string :=
  NilZero.string_of_int (Z.to_int n).

Definition cacheFile (fileUrl fileType : string) : M string :=
  try_catch
    (let* blob := fetch_blob fileUrl in
     let* now := Date_now in
     let fileName := decimal now +:+ "_" +:+ fileType in
     let path := "cache/" +:+ fileName in
     let base64Data := base64Content (readAsDataURL blob) in
     let* _ := Filesystem_writeFile path base64Data in
     let* _ := modify (emit (Cached fileUrl fileType path)) in
     ret path)
    (fun error => throw error).

Definition readCachedFile (path : string) : M Blob :=
  try_catch
    (let* result := Filesystem_readFile path in
     match result with
     | DataBlob blob => ret blob
     | DataString text => fetch_epub_data_url text
     end)
    (fun error => throw error).

(** ** [BookService] *)

(** Assignments to one property of a book. *)
Definition with_synced_with_supabase (v : bool) (book : SupabaseBook) : SupabaseBook :=
  {| id := id book;
     title := title book;
     author := author book;
     content_url := content_url book;
     cover_image := cover_image book;
     narration_url := narration_url book;
     podcast_url := podcast_url book;
     content_category := content_category book;
     current_page := current_page book;
     total_pages := total_pages book;
     last_read := last_read book;
     narration_status := narration_status book;
     podcast_status := podcast_status book;
     highlighted_words := highlighted_words book;
     difficult_words := difficult_words book;
     vocab_mastery := vocab_mastery book;
     read_progress := read_progress book;
     audio_progress := audio_progress book;
     book_language := book_language book;
     is_favorite := is_favorite book;
     is_offline := is_offline book;
     synced_with_supabase := v;
     is_crafted := is_crafted book;
     created_at := created_at book;
     updated_at := updated_at book |}.

Definition with_narration_url (v : option string) (book : SupabaseBook) : SupabaseBook :=
  {| id := id book;
     title := title book;
     author := author book;
     content_url := content_url book;
     cover_image := cover_image book;
     narration_url := v;
     podcast_url := podcast_url book;
     content_category := content_category book;
     current_page := current_page book;
     total_pages := total_pages book;
     last_read := last_read book;
     narration_status := narration_status book;
     podcast_status := podcast_status book;
     highlighted_words := highlighted_words book;
     difficult_words := difficult_words book;
     vocab_mastery := vocab_mastery book;
     read_progress := read_progress book;
     audio_progress := audio_progress book;
     book_language := book_language book;
     is_favorite := is_favorite book;
     is_offline := is_offline book;
     synced_with_supabase := synced_with_supabase book;
     is_crafted := is_crafted book;
     created_at := created_at book;
     updated_at := updated_at book |}.

Definition with_read_progress (v : Z) (book : SupabaseBook) : SupabaseBook :=
  {| id := id book;
     title := title book;
     author := author book;
     content_url := content_url book;
     cover_image := cover_image book;
     narration_url := narration_url book;
     podcast_url := podcast_url book;
     content_category := content_category book;
     current_page := current_page book;
     total_pages := total_pages book;
     last_read := last_read book;
     narration_status := narration_status book;
     podcast_status := podcast_status book;
     highlighted_words := highlighted_words book;
     difficult_words := difficult_words book;
     vocab_mastery := vocab_mastery book;
     read_progress := v;
     audio_progress := audio_progress book;
     book_language := book_language book;
     is_favorite := is_favorite book;
     is_offline := is_offline book;
     synced_with_supabase := synced_with_supabase book;
     is_crafted := is_crafted book;
     created_at := created_at book;
     updated_at := updated_at book |}.

Definition with_updated_at (v : string) (book : SupabaseBook) : SupabaseBook :=
  {| id := id book;
     title := title book;
     author := author book;
     content_url := content_url book;
     cover_image := cover_image book;
     narration_url := narration_url book;
     podcast_url := podcast_url book;
     content_category := content_category book;
     current_page := current_page book;
     total_pages := total_pages book;
     last_read := last_read book;
     narration_status := narration_status book;
     podcast_status := podcast_status book;
     highlighted_words := highlighted_words book;
     difficult_words := difficult_words book;
     vocab_mastery := vocab_mastery book;
     read_progress := read_progress book;
     audio_progress := audio_progress book;
     book_language := book_language book;
     is_favorite := is_favorite book;
     is_offline := is_offline book;
     synced_with_supabase := synced_with_supabase book;
     is_crafted := is_crafted book;
     created_at := created_at book;
     updated_at := v |}.

Definition with_base (v : SupabaseBook) (book : LocalBook) : LocalBook :=
  {| base := v;
     is_manual := is_manual book;
     cache_expiry := cache_expiry book;
     local_content_path := local_content_path book;
     local_narration_path := local_narration_path book;
     local_podcast_path := local_podcast_path book |}.

Definition with_local_content_path (v : option string) (book : LocalBook) : LocalBook :=
  {| base := base book;
     is_manual := is_manual book;
     cache_expiry := cache_expiry book;
     local_content_path := v;
     local_narration_path := local_narration_path book;
     local_podcast_path := local_podcast_path book |}.

Definition with_local_narration_path (v : option string) (book : LocalBook) : LocalBook :=
  {| base := base book;
     is_manual := is_manual book;
     cache_expiry := cache_expiry book;
     local_content_path := local_content_path book;
     local_narration_path := v;
     local_podcast_path := local_podcast_path book |}.

Definition with_local_podcast_path (v : option string) (book : LocalBook) : LocalBook :=
  {| base := base book;
     is_manual := is_manual book;
     cache_expiry := cache_expiry book;
     local_content_path := local_content_path book;
     local_narration_path := local_narration_path book;
     local_podcast_path := v |}.


(** [7 * 24 * 60 * 60 * 1000]: seven days in milliseconds. *)
Definition CACHE_DURATION : Z := 7 * 24 * 60 * 60 * 1000.

(** [localBook?.path]. *)
Definition path_of (localBook : option LocalBook)
  (path : LocalBook -> option string) : option string :=
  match localBook with
  | Some b => path b
  | None => None
  end.

(** [supabase.from('books').select('*').order(...)]. *)
Definition supabase_select : M SelectResponse := ask remote_books.

(** [supabase.from('books').update({ read_progress }).eq('id', bookId)]:
    resolves with the [error], if any. *)
Definition supabase_update (bookId : string) (progress : Z)
  : M (option string) :=
  let* _ := modify (emit (RemoteUpdated bookId progress)) in
  ask (fun env => remote_update env bookId progress).

(** The body of the loop of [processSupabaseBooks], inside its [try]. *)
Definition processSupabaseBook (book : SupabaseBook) : M LocalBook :=
  let* localBook := getBook (id book) in
  let* now := Date_now in
  let cacheExpiry := toISOString (now + CACHE_DURATION) in
  let newLocalBook :=
    {| base := with_synced_with_supabase true book;
       is_manual := false;
       cache_expiry := cacheExpiry;
       local_content_path := or_null (path_of localBook local_content_path);
       local_narration_path := or_null (path_of localBook local_narration_path);
       local_podcast_path := or_null (path_of localBook local_podcast_path) |} in
  let* newLocalBook :=
    if negb (truthy (path_of localBook local_content_path))
    then
      let* path := cacheFile (content_url book) "epub" in
      ret (with_local_content_path (Some path) newLocalBook)
    else ret newLocalBook in
  let* newLocalBook :=
    if truthy (narration_url book)
       && negb (truthy (path_of localBook local_narration_path))
    then
      let* path := cacheFile (default "" (narration_url book)) "audio" in
      ret (with_local_narration_path (Some path) newLocalBook)
    else ret newLocalBook in
  let* newLocalBook :=
    if truthy (podcast_url book)
       && negb (truthy (path_of localBook local_podcast_path))
    then
      let* path := cacheFile (default "" (podcast_url book)) "audio" in
      ret (with_local_podcast_path (Some path) newLocalBook)
    else ret newLocalBook in
  let* _ := saveBook newLocalBook in
  ret newLocalBook.

(** The loop of [processSupabaseBooks]: a book whose processing throws is
    logged and left out. *)
Fixpoint processSupabaseBooks_from (processedBooks : list LocalBook)
  (supabaseBooks : list SupabaseBook) : M (list LocalBook) :=
  match supabaseBooks with
  | [] => ret processedBooks
  | book :: rest =>
      let* processedBooks :=
        try_catch
          (let* newLocalBook := processSupabaseBook book in
           ret (processedBooks ++ [newLocalBook]))
          (fun _ => ret processedBooks) in
      processSupabaseBooks_from processedBooks rest
  end.

Definition processSupabaseBooks (supabaseBooks : list SupabaseBook)
  : M (list LocalBook) :=
  processSupabaseBooks_from [] supabaseBooks.

(** The test of the filter of [fetchBooks]:
    [book.is_manual || (book.cache_expiry && book.cache_expiry > now)]. *)
Definition is_valid (now : string) (book : LocalBook) : bool :=
  is_manual book
  || (nonempty (cache_expiry book) && str_gt (cache_expiry book) now).

Definition fetchBooks : M (list LocalBook) :=
  try_catch
    (let* localBooks := getBooks in
     let* ms := Date_now in
     let now := toISOString ms in
     let validBooks := List.filter (is_valid now) localBooks in
     let* onLine := ask navigator_onLine in
     if negb onLine then ret validBooks
     else
       let* response := supabase_select in
       if bool_decide (is_Some (error response)) then ret validBooks
       else
         let* processedBooks :=
           processSupabaseBooks (default [] (data response)) in
         let manualBooks := List.filter is_manual validBooks in
         let allBooks := processedBooks ++ manualBooks in
         ret allBooks)
    (fun error => throw error).

Definition updateBookProgress (bookId : string) (progress : Z) : M unit :=
  try_catch
    (let* localBook := getBook bookId in
     let* _ :=
       match localBook with
       | Some localBook =>
           let localBook := with_base (with_read_progress progress localBook) localBook in
           let* now := Date_now in
           let localBook :=
             with_base (with_updated_at (toISOString now) localBook) localBook in
           saveBook localBook
       | None => ret tt
       end in
     let* onLine := ask navigator_onLine in
     if match localBook with
        | Some localBook => synced_with_supabase localBook
        | None => false
        end && onLine
     then
       let* _ := supabase_update bookId progress in
       ret tt
     else ret tt)
    (fun error => throw error).

Definition removeBook (bookId : string) : M unit :=
  try_catch
    (let* localBook := getBook bookId in
     match localBook with
     | None => ret tt
     | Some localBook =>
         if negb (is_manual localBook)
         then throw {| message := "Cannot remove non-manual books" |}
         else deleteBook bookId
     end)
    (fun error => throw error).

(** ** Sample data *)

Definition demo_remote : SupabaseBook :=
  {| id := "b1"; title := "Remote title"; author := "An Author";
     content_url := "https://cdn/b1-v2.epub"; cover_image := "";
     narration_url := None; podcast_url := None;
     content_category := "novel"; current_page := 3; total_pages := 90;
     last_read := None; narration_status := None; podcast_status := None;
     highlighted_words := Some ["ni"; "hao"]; difficult_words := None;
     vocab_mastery := JNull; read_progress := 10; audio_progress := None;
     book_language := "zh"; is_favorite := false; is_offline := false;
     synced_with_supabase := true; is_crafted := Some true;
     created_at := "2024-01-01T00:00:00.000Z";
     updated_at := "2024-01-02T00:00:00.000Z" |}.

(** A book fetched earlier: title and content url differ from the remote
    row, the content is in the cache. *)
Definition demo_synced : LocalBook :=
  {| base :=
       with_read_progress 7
         {| id := "b1"; title := "Old title"; author := "An Author";
            content_url := "https://cdn/b1.epub"; cover_image := "";
            narration_url := None; podcast_url := None;
            content_category := "novel"; current_page := 3; total_pages := 90;
            last_read := None; narration_status := None; podcast_status := None;
            highlighted_words := Some []; difficult_words := None;
            vocab_mastery := JNull; read_progress := 0; audio_progress := None;
            book_language := "zh"; is_favorite := false; is_offline := false;
            synced_with_supabase := true; is_crafted := Some true;
            created_at := "2024-01-01T00:00:00.000Z";
            updated_at := "2024-01-01T00:00:00.000Z" |};
     is_manual := false;
     cache_expiry := "2023-11-21T22:13:20.000Z";
     local_content_path := Some "cache/x";
     local_narration_path := None;
     local_podcast_path := None |}.

(** A book the user imported. *)
Definition demo_manual : LocalBook :=
  {| base :=
       {| id := "manual_1700000000000"; title := "My Book"; author := "";
          content_url := "blob:1"; cover_image := "";
          narration_url := None; podcast_url := None;
          content_category := "manual"; current_page := 0; total_pages := 0;
          last_read := None; narration_status := None; podcast_status := None;
          highlighted_words := Some []; difficult_words := Some [];
          vocab_mastery := JNull; read_progress := 0; audio_progress := None;
          book_language := "zh"; is_favorite := false; is_offline := true;
          synced_with_supabase := false; is_crafted := Some false;
          created_at := "2023-11-14T22:13:20.000Z";
          updated_at := "2023-11-14T22:13:20.000Z" |};
     is_manual := true;
     cache_expiry := "2023-11-21T22:13:20.000Z";
     local_content_path := Some "cache/1700000000000_epub";
     local_narration_path := None;
     local_podcast_path := None |}.

Definition demo_blob : Blob :=
  {| blob_bytes := [Byte.x4d; Byte.x61; Byte.x6e; Byte.x00; Byte.xff];
     blob_type := "application/epub+zip" |}.

(** The table holding the books of [rows]. *)
Definition table_of (rows : list LocalBook) : gmap string Cols :=
  list_to_map (map values_of rows).

(** A page whose database holds the imported and the synced book, with the
    content of both in the cache. *)
Definition demo_world : World :=
  {| sqlite := Some (table_of [demo_manual; demo_synced]);
     files := <["cache/1700000000000_epub" := DataString "TWFuAP8="]>
                (<["cache/x" := DataString "TWFu"]> ∅);
     ticks := 0;
     trace := [] |}.

(** The clock starts at [start] and advances one second per reading; the
    catalog answers with [response]; every url can be fetched unless it is
    ["https://cdn/down"]. *)
Definition demo_env_at (start : Z) (onLine : bool) (response : SelectResponse)
  : Env :=
  {| clock := fun k => start + 1000 * Z.of_nat k;
     navigator_onLine := onLine;
     engine_loads := true;
     http := fun url =>
       if String.eqb url "https://cdn/down" then None else Some demo_blob;
     remote_books := response;
     remote_update := fun _ _ => Some "network error" |}.

(** Starting at 2023-11-14T22:13:20Z. *)
Definition demo_env : bool -> SelectResponse -> Env :=
  demo_env_at 1700000000000.

Definition answer (rows : list SupabaseBook) : SelectResponse :=
  {| data := Some rows; error := None |}.

Definition failure : SelectResponse :=
  {| data := None; error := Some "TypeError: Failed to fetch" |}.

(** ** Observations of the state and auxiliary definitions *)

(** The books of a database, as [getBooks] lists them. *)
Definition listed (db : option (gmap string Cols)) : list LocalBook :=
  match db with
  | None => []
  | Some db => map book_of_row (map_to_list db)
  end.

(** The book under a key, as [getBook] finds it. *)
Definition found (db : option (gmap string Cols)) (key : string)
  : option LocalBook :=
  match db with
  | None => None
  | Some db => (fun cols => book_of_row (key, cols)) <$> db !! key
  end.

(** The database after [saveBook book]. *)
Definition saved (book : LocalBook) (w : World) : World :=
  match sqlite w with
  | None => w
  | Some db => set_sqlite (Some (<[id book := snd (values_of book)]> db)) w
  end.

(** What is left of a book once it went through the table: every
    property but [is_crafted]. *)
Definition stored (book : LocalBook) : LocalBook :=
  {| base :=
       {| id := id book; title := title book; author := author book;
          content_url := content_url book; cover_image := cover_image book;
          narration_url := narration_url book; podcast_url := podcast_url book;
          content_category := content_category book;
          current_page := current_page book; total_pages := total_pages book;
          last_read := last_read book;
          narration_status := narration_status book;
          podcast_status := podcast_status book;
          highlighted_words := highlighted_words book;
          difficult_words := difficult_words book;
          vocab_mastery := vocab_mastery book;
          read_progress := read_progress book;
          audio_progress := audio_progress book;
          book_language := book_language book;
          is_favorite := is_favorite book; is_offline := is_offline book;
          synced_with_supabase := synced_with_supabase book;
          is_crafted := None;
          created_at := created_at book; updated_at := updated_at book |};
     is_manual := is_manual book;
     cache_expiry := cache_expiry book;
     local_content_path := local_content_path book;
     local_narration_path := local_narration_path book;
     local_podcast_path := local_podcast_path book |}.

(** The row of table [books] under [key], if the database is there and
    has one. *)
Definition row_of (w : World) (key : string) : option Cols :=
  match sqlite w with
  | None => None
  | Some db => db !! key
  end.

(** The page when the service is constructed: no database yet, nothing
    cached. *)
Definition blank : World :=
  {| sqlite := None; files := ∅; ticks := 0; trace := [] |}.

(** The same outside world with a storage engine that fails to load. *)
Definition broken_engine (env : Env) : Env :=
  {| clock := clock env; navigator_onLine := navigator_onLine env;
     engine_loads := false; http := http env;
     remote_books := remote_books env; remote_update := remote_update env |}.

(** The same outside world without connectivity. *)
Definition offline (env : Env) : Env :=
  {| clock := clock env; navigator_onLine := false;
     engine_loads := engine_loads env; http := http env;
     remote_books := remote_books env; remote_update := remote_update env |}.

(** A valid record in the words of the design: manual, or not manual with
    a [cache_expiry] strictly after [now], both being ISO timestamps. *)
Definition valid_at (now : string) (book : LocalBook) : Prop :=
  is_manual book = true
  \/ (is_manual book = false /\ String.ltb now (cache_expiry book) = true).

(** The valid books of a database at the instant [ms]. *)
Definition validBooks_at (ms : Z) (db : option (gmap string Cols))
  : list LocalBook :=
  List.filter (is_valid (toISOString ms)) (listed db).

(** The book [updateBookProgress] saves. *)
Definition progressed (progress : Z) (now : Z) (book : LocalBook) : LocalBook :=
  with_base
    (with_updated_at (toISOString now)
       (with_base (with_read_progress progress book) book))
    (with_base (with_read_progress progress book) book).

(** A sequence of [saveBook] calls. *)
Fixpoint saveBooks (books : list LocalBook) : M unit :=
  match books with
  | [] => ret tt
  | book :: rest => let* _ := saveBook book in saveBooks rest
  end.

(** The last book of [books] saved under [key]. *)
Fixpoint latest (key : string) (books : list LocalBook) : option LocalBook :=
  match books with
  | [] => None
  | book :: rest =>
      match latest key rest with
      | Some later => Some later
      | None => if decide (id book = key) then Some book else None
      end
  end.

(** The keys of a list of books. *)
Definition ids (books : list LocalBook) : list string :=
  map (fun book : LocalBook => id book) books.

(** The table after an [INSERT OR REPLACE] of [book]. *)
Definition upsert (db : gmap string Cols) (book : LocalBook) : gmap string Cols :=
  <[id book := snd (values_of book)]> db.

(** A character that the URL parser, percent-decoding and the removal of
    whitespace leave alone: no C0 control or space, [#], [%] or comma. *)
Definition plain_char (c : ascii) : bool :=
  negb (c0_control_or_space c) && negb (Ascii.eqb c "#")
  && negb (Ascii.eqb c "%") && negb (Ascii.eqb c ",").

(** Do all characters of a string satisfy [p]? *)
Fixpoint all_chars (p : ascii -> bool) (s : string) : bool :=
  match s with
  | EmptyString => true
  | String c s' => p c && all_chars p s'
  end.

(** Has a string no comma? *)
Fixpoint comma_free (s : string) : bool :=
  match s with
  | EmptyString => true
  | String c s' => negb (Ascii.eqb c ",") && comma_free s'
  end.

(** The path [cacheFile] generates at the instant [now]. *)
Definition cache_path (now : Z) (fileType : string) : string :=
  "cache/" +:+ decimal now +:+ "_" +:+ fileType.

(** The text the Filesystem keeps of what [cacheFile] hands it for
    [blob]. *)
Definition stored_text (blob : Blob) : string :=
  content_of_data (base64Content (readAsDataURL blob)).

(** Does the Filesystem take that text as base64? *)
Definition storable (blob : Blob) : bool := isBase64String (stored_text blob).

(** The state after [cacheFile] stored [blob]. *)
Definition cached (fileUrl fileType : string) (blob : Blob) (env : Env)
  (w : World) : World :=
  let path := cache_path (clock env (ticks w)) fileType in
  emit (Cached fileUrl fileType path)
    (set_files (<[path := DataString (stored_text blob)]> (files w)) (tick w)).

(** A resource whose media type has a quoted parameter,
    [text/plain;note="base64,abcdbase64,"]. *)
Definition quoted_type_blob : Blob :=
  {| blob_bytes := [Byte.x4d; Byte.x61; Byte.x6e];
     blob_type :=
       "text/plain;note=" +:+ String "034" ("base64,abcdbase64," +:+ String "034" "") |}.

(** Every url answers with that resource. *)
Definition quoted_type_env : Env :=
  {| clock := fun k => 1700000000000 + Z.of_nat k;
     navigator_onLine := true;
     engine_loads := true;
     http := fun _ => Some quoted_type_blob;
     remote_books := failure;
     remote_update := fun _ _ => None |}.

(** [m] relates the state it starts in to the state it ends in by [R],
    and what it returns satisfies [Q]. *)
Definition obeys {A : Type} (R : World -> World -> Prop) (Q : A -> Prop)
  (m : M A) : Prop :=
  forall env w,
    R w (snd (m env w)) /\ (forall a, fst (m env w) = Ok a -> Q a).

(** The row under [key] stays and the clock does not run backwards. *)
Definition keeps_row (key : string) (w w' : World) : Prop :=
  row_of w' key = row_of w key /\ (ticks w <= ticks w')%nat.

(** Is the asset at [url] still to be cached, [path] being what the local
    record has for it? *)
Definition needs_fetch (url path : option string) : bool :=
  truthy url && negb (truthy path).

(** Does [cacheFile] of [url] succeed: the fetch answers, and the
    Filesystem takes the text as base64? *)
Definition cacheable (env : Env) (url : option string) : bool :=
  match http env (default "" url) with
  | Some blob => storable blob
  | None => false
  end.

(** The narration and the podcast of [book] can be cached where the merge
    with [localBook] will cache them. *)
Definition assets_cacheable (env : Env) (book : SupabaseBook)
  (localBook : LocalBook) : bool :=
  implb (needs_fetch (narration_url book) (local_narration_path localBook))
        (cacheable env (narration_url book))
  && implb (needs_fetch (podcast_url book) (local_podcast_path localBook))
           (cacheable env (podcast_url book)).

(** Is [e] the caching of an audio asset? *)
Definition is_audio_event (e : Event) : Prop :=
  exists fileUrl path, e = Cached fileUrl "audio" path.

(** ** More sample data *)

(** The same outside world with a clock that stands still. *)
Definition frozen (env : Env) : Env :=
  {| clock := fun _ => clock env 0; navigator_onLine := navigator_onLine env;
     engine_loads := engine_loads env; http := http env;
     remote_books := remote_books env; remote_update := remote_update env |}.

(** Can [readCachedFile] turn what a file holds into a blob? *)
Definition readable (d : FileData) : bool :=
  match d with
  | DataBlob _ => true
  | DataString text =>
      match forgiving_base64_decode (data_url_body text) with
      | Some _ => true
      | None => false
      end
  end.

(** ** What a merge leaves in place *)

(** Nothing of [w] is missing in [w']: every row and every cached file of
    [w] is still there (possibly with new content), the clock did not run
    backwards and the calls made so far are a prefix of the calls made. *)
Definition grows (w w' : World) : Prop :=
  (forall key, is_Some (row_of w key) -> is_Some (row_of w' key))
  /\ (forall path, is_Some (files w !! path) -> is_Some (files w' !! path))
  /\ (ticks w <= ticks w')%nat
  /\ (exists evs, trace w' = trace w ++ evs).

(** The database is the one of [w]. *)
Definition same_database (w w' : World) : Prop := sqlite w' = sqlite w.

(** What [processSupabaseBook book] returns when it returns: a synced,
    not manual record of the row with its content cached. *)
Definition merged_from (book : SupabaseBook) (nb : LocalBook) : Prop :=
  id nb = id book
  /\ is_manual nb = false
  /\ synced_with_supabase nb = true
  /\ truthy (local_content_path nb) = true.

(** Is the remote update due for the book [updateBookProgress] found? *)
Definition remote_due (env : Env) (localBook : option LocalBook) : bool :=
  match localBook with
  | Some localBook => synced_with_supabase localBook && navigator_onLine env
  | None => false
  end.

(** When [m] throws, the database is the one it started with. *)
Definition fails_clean {A : Type} (m : M A) : Prop :=
  forall env w e w', m env w = (Throw e, w') -> sqlite w' = sqlite w.

(** The rows of the catalog as [fetchBooks] takes them:
    [supabaseBooks || []]. *)
Definition catalog (env : Env) : list SupabaseBook :=
  default [] (data (remote_books env)).

(** The last character of a string. *)
Fixpoint last_char (s : string) : option ascii :=
  match s with
  | EmptyString => None
  | String c EmptyString => Some c
  | String _ s' => last_char s'
  end.

(** ** [BookService.addManualBook] *)

(** [addManualBook(file, title, coverUrl)]. The file reaches the code only
    through [URL.createObjectURL(file)], which is called twice and answers
    with a new [blob:] url each time: [objectUrl] is the first answer, the
    one that is fetched and cached, [contentUrl] the second, the one that
    is stored as [content_url]. [coverUrl] is [None] when it is left out. *)
Definition addManualBook (objectUrl contentUrl : string) (title : string)
  (coverUrl : option string) : M LocalBook :=
  try_catch
    (let* ms := Date_now in
     let now := toISOString ms in
     let* stamp := Date_now in
     let bookId := "manual_" +:+ decimal stamp in
     let* localContentPath := cacheFile objectUrl "epub" in
     let* expiry := Date_now in
     let newBook :=
       {| base :=
            {| id := bookId;
               title := title;
               author := "";
               content_url := contentUrl;
               cover_image := default "" (or_null coverUrl);
               narration_url := None;
               podcast_url := None;
               content_category := "manual";
               current_page := 0;
               total_pages := 0;
               last_read := None;
               narration_status := None;
               podcast_status := None;
               highlighted_words := Some [];
               difficult_words := Some [];
               vocab_mastery := JNull;
               read_progress := 0;
               audio_progress := None;
               book_language := "zh";
               is_favorite := false;
               is_offline := true;
               synced_with_supabase := false;
               is_crafted := Some false;
               created_at := now;
               updated_at := now |};
          is_manual := true;
          cache_expiry := toISOString (expiry + CACHE_DURATION);
          local_content_path := Some localContentPath;
          local_narration_path := None;
          local_podcast_path := None |} in
     let* _ := saveBook newBook in
     ret newBook)
    (fun error => throw error).

(** ** [CoverService] *)

(** An entry of [interface BookCoverCache]. *)
Record CoverEntry : Type := { dataUrl : string; timestamp : Z }.

(** The methods take the field [coverCache] and return it as they leave
    it. [generateBookCover], of [utils/coverGenerator], is a parameter: a
    function of the title and the file type. The duration is the service's
    own constant, seven days as [CACHE_DURATION]. Book ids are taken not
    to be names of members of [Object.prototype]. *)
Definition getBookCover (generateBookCover : string -> string -> string)
  (bookId title fileType : string) (coverCache : gmap string CoverEntry)
  : M (string * gmap string CoverEntry) :=
  let generate :=
    let dataUrl := generateBookCover title fileType in
    let* now := Date_now in
    ret (dataUrl,
         <[bookId := {| dataUrl := dataUrl; timestamp := now |}]> coverCache) in
  match coverCache !! bookId with
  | Some entry =>
      let* now := Date_now in
      if now - timestamp entry <? CACHE_DURATION
      then ret (dataUrl entry, coverCache)
      else generate
  | None => generate
  end.

Definition removeCover (bookId : string) (coverCache : gmap string CoverEntry)
  : gmap string CoverEntry :=
  delete bookId coverCache.

(** The test of [cleanupCache]: [now - cache.timestamp > CACHE_DURATION]. *)
Definition outdated (now : Z) (entry : CoverEntry) : bool :=
  now - timestamp entry >? CACHE_DURATION.

Definition cleanupCache (coverCache : gmap string CoverEntry)
  : M (gmap string CoverEntry) :=
  let* now := Date_now in
  ret (fold_left
         (fun cache entry =>
            if outdated now (snd entry) then removeCover (fst entry) cache
            else cache)
         (map_to_list coverCache) coverCache).

(** ** [BookService.fetchBookFile] *)

(** What the pages keep of a book ([interface Book]) and of a [File]: a
    blob with a name. *)
Module Page.

Record File : Type := { blob : Blob; name : string }.

Record Book : Type := {
  id : string;
  title : string;
  type : string;
  progress : Z;
  file : File;
  shelf : Z;
  coverUrl : option string;
  supabaseId : option string;
  is_manual : bool;
  local_content_path : option string
}.

End Page.

(** [new File([blob], name, { type: 'application/epub+zip' })]. *)
Definition epub_file (blob : Blob) (name : string) : Page.File :=
  {| Page.blob := {| blob_bytes := blob_bytes blob;
                     blob_type := "application/epub+zip" |};
     Page.name := name |}.

(** [fetchBookFile(url)]. [response_ok] tells whether the response to a
    url has a status in the range 200-299; the body is what [http] gives.
    Whatever is thrown is logged and answered with [null]. *)
Definition fetchBookFile (response_ok : string -> bool) (url : string)
  : M (option Page.File) :=
  try_catch
    (let* blob := fetch_blob url in
     if negb (response_ok url)
     then throw {| message := "Failed to fetch book file" |}
     else
       let filename :=
         let popped := List.last (split url "/") "" in
         if nonempty popped then popped else "book.epub" in
       ret (Some (epub_file blob filename)))
    (fun _ => ret None).

(** ** The home page ([app/page.tsx]) *)

(** The callback [loadBooks] maps over the books of [fetchBooks]: the file
    of the book from the cache, else from its url, and the [Book] made of
    both; [null] when there is no file. *)
Definition convertBook (response_ok : string -> bool) (localBook : LocalBook)
  : M (option Page.Book) :=
  let* file :=
    if truthy (local_content_path localBook)
    then
      try_catch
        (let* blob := readCachedFile (default "" (local_content_path localBook)) in
         ret (Some (epub_file blob (title localBook +:+ ".epub"))))
        (fun _ => ret None)
    else ret None in
  let* file :=
    if negb (bool_decide (is_Some file)) && nonempty (content_url localBook)
    then
      try_catch (fetchBookFile response_ok (content_url localBook))
        (fun _ => ret file)
    else ret file in
  match file with
  | None => ret None
  | Some file =>
      ret (Some
             {| Page.id := id localBook;
                Page.title := title localBook;
                Page.type := blob_type (Page.blob file);
                Page.progress := read_progress localBook;
                Page.file := file;
                Page.shelf := 1;
                Page.coverUrl := Some (cover_image localBook);
                Page.supabaseId :=
                  if synced_with_supabase localBook
                  then Some (id localBook) else None;
                Page.is_manual := is_manual localBook;
                Page.local_content_path := local_content_path localBook |})
  end.

(** [Promise.all(list.map(f))]; the callbacks here change no state, so
    they are run one after the other. *)
Fixpoint for_each {A B : Type} (f : A -> M B) (l : list A) : M (list B) :=
  match l with
  | [] => ret []
  | a :: rest =>
      let* b := f a in
      let* bs := for_each f rest in
      ret (b :: bs)
  end.

(** [loadBooks] for a signed-in user: the new value of the state [books],
    which stays what it is when something is thrown. *)
Definition loadBooks (response_ok : string -> bool) (books : list Page.Book)
  : M (list Page.Book) :=
  try_catch
    (let* localBooks := fetchBooks in
     let* convertedBooks := for_each (convertBook response_ok) localBooks in
     let validBooks := omap (fun book => book) convertedBooks in
     ret validBooks)
    (fun _ => ret books).

(** [handleRemoveBook]: the new value of the state [books]. *)
Definition handleRemoveBook (books : list Page.Book) (book : Page.Book)
  : M (list Page.Book) :=
  try_catch
    (let* _ := removeBook (Page.id book) in
     ret (List.filter
            (fun b => negb (String.eqb (Page.id b) (Page.id book))) books))
    (fun _ => ret books).

(** [closeBook]: the new value of the state [selectedBook]. *)
Definition closeBook (selectedBook : option Page.Book) : M (option Page.Book) :=
  let* _ :=
    match selectedBook with
    | Some book =>
        if truthy (Page.supabaseId book) && (Page.progress book >? 0)
        then updateBookProgress (default "" (Page.supabaseId book))
               (Page.progress book)
        else ret tt
    | None => ret tt
    end in
  ret None.

(** [calculateBooksPerShelf]: what it sets [booksPerShelf] to for a
    container [containerWidth] pixels wide. *)
Definition calculateBooksPerShelf (containerWidth : Z) : Z :=
  let bookWidth := 120 in
  let gap := 16 in
  let padding := 32 in
  let availableWidth := containerWidth - padding in
  let booksPerRow := (availableWidth + gap) / (bookWidth + gap) in
  Z.max 1 booksPerRow.

(** [Math.ceil(a / b)] for counts, [b] not zero. *)
Definition ceil_div (a b : nat) : nat := ((a + b - 1) / b)%nat.

(** [Math.max(3, Math.ceil(books.length / booksPerShelf))]. *)
Definition requiredShelves (count booksPerShelf : nat) : nat :=
  Nat.max 3 (ceil_div count booksPerShelf).

(** [l.slice(start, end)] for [0 <= start <= end]. *)
Definition slice {A : Type} (start stop : nat) (l : list A) : list A :=
  firstn (stop - start) (skipn start l).

(** The memo [shelves] of [BookshelfContent]. *)
Definition shelves {A : Type} (books : list A) (booksPerShelf numShelves : nat)
  : list (list A) :=
  if (booksPerShelf =? 0)%nat then repeat [] numShelves
  else
    map (fun shelfIndex =>
           let startIndex := (shelfIndex * booksPerShelf)%nat in
           slice startIndex (startIndex + booksPerShelf) books)
      (seq 0 numShelves).

(** Has a string no occurrence of the character [c]? *)
Fixpoint lacks (c : ascii) (s : string) : bool :=
  match s with
  | EmptyString => true
  | String c' s' => negb (Ascii.eqb c c') && lacks c s'
  end.

(** What [convertBook] answers for a book in a given state. *)
Definition converted (response_ok : string -> bool) (env : Env) (w : World)
  (localBook : LocalBook) : option Page.Book :=
  match fst (convertBook response_ok localBook env w) with
  | Ok result => result
  | Throw _ => None
  end.

(** * Properties *)

(** ** The built-ins on sample inputs *)

Example toISOString_epoch : toISOString 0 = "1970-01-01T00:00:00.000Z".
Proof. reflexivity. Qed.

Example toISOString_2023 : toISOString 1700000000123 = "2023-11-14T22:13:20.123Z".
Proof. reflexivity. Qed.

Example toISOString_leap : toISOString 1709164800000 = "2024-02-29T00:00:00.000Z".
Proof. reflexivity. Qed.

Example b64_encode_Man :
  b64_encode [Byte.x4d; Byte.x61; Byte.x6e] = "TWFu"
  /\ b64_encode [Byte.x4d; Byte.x61] = "TWE="
  /\ b64_encode [Byte.x4d] = "TQ==".
Proof. repeat split. Qed.

(** The decoder takes text without padding, with whitespace or with bits
    set that are dropped; the test of the plugin takes none of them. *)
Example forgiving_base64_decode_Ma :
  forgiving_base64_decode "TWE=" = Some [Byte.x4d; Byte.x61]
  /\ forgiving_base64_decode "TWE" = Some [Byte.x4d; Byte.x61]
  /\ forgiving_base64_decode "T W E" = Some [Byte.x4d; Byte.x61]
  /\ forgiving_base64_decode "TWF=" = Some [Byte.x4d; Byte.x61]
  /\ forgiving_base64_decode "TWFuT" = None
  /\ forgiving_base64_decode "TQ=" = None
  /\ forgiving_base64_decode "TW=E" = None
  /\ isBase64String "TWE=" = true
  /\ isBase64String "TWE" = false
  /\ isBase64String "TWF=" = false
  /\ isBase64String "" = true.
Proof. repeat split. Qed.

(** The body of a [data:] URL ends at [#], loses the controls at its end
    and is percent-decoded. *)
Example data_url_body_examples :
  data_url_body "TWFu#x" = "TWFu"
  /\ data_url_body "%54WFu" = "TWFu"
  /\ data_url_body ("TWFu" +:+ String "001" "") = "TWFu"
  /\ data_url_body "TW%zzFu" = "TW%zzFu"
  /\ data_url_body "TWFu" = "TWFu".
Proof. repeat split. Qed.

Example split_data_url :
  split "data:text/plain;base64,TWFu" "base64," = ["data:text/plain;"; "TWFu"]
  /\ split "a,b,,c" "," = ["a"; "b"; ""; "c"]
  /\ includes "data:text/plain;base64,TWFu" "base64," = true
  /\ includes "data:" "base64," = false.
Proof. repeat split. Qed.

(** ** The Record Store, operation by operation *)

Lemma try_rethrow {A : Type} (m : M A) env w :
  try_catch m (fun error => throw error) env w = m env w.
Proof.
  unfold try_catch, throw. destruct (m env w) as [[a|e] w']; reflexivity.
Qed.

Lemma getBooks_spec env w : getBooks env w = (Ok (listed (sqlite w)), w).
Proof.
  unfold getBooks. rewrite try_rethrow.
  unfold bind, execute_select_all, gets, ret, listed.
  destruct (sqlite w) as [db|]; [|reflexivity].
  destruct (map_to_list db); reflexivity.
Qed.

Lemma getBook_spec key env w : getBook key env w = (Ok (found (sqlite w) key), w).
Proof.
  unfold getBook. rewrite try_rethrow.
  unfold bind, execute_select_by_id, gets, ret, found.
  destruct (sqlite w) as [db|]; [|reflexivity].
  destruct (db !! key); reflexivity.
Qed.

Lemma saveBook_spec book env w : saveBook book env w = (Ok tt, saved book w).
Proof. unfold saveBook. rewrite try_rethrow. reflexivity. Qed.

Lemma Boolean_bit b : Boolean (bit b) = b.
Proof. destruct b; reflexivity. Qed.

Lemma book_of_row_values_of book : book_of_row (values_of book) = stored book.
Proof.
  unfold book_of_row, values_of, stored; simpl.
  rewrite !Boolean_bit. reflexivity.
Qed.

Lemma book_of_row_id key cols : id (book_of_row (key, cols)) = key.
Proof. reflexivity. Qed.

(** [deleteBook] looks the book up after the row is gone: it finds none
    and never reaches [deleteBookFiles]. *)
Lemma deleteBook_spec key env w :
  deleteBook key env w =
  (Ok tt, match sqlite w with
          | None => w
          | Some db => set_sqlite (Some (delete key db)) w
          end).
Proof.
  unfold deleteBook. rewrite try_rethrow.
  unfold bind at 1. unfold run_delete, modify.
  unfold bind. rewrite getBook_spec.
  destruct (sqlite w) as [db|] eqn:E; simpl.
  - rewrite lookup_delete_eq. reflexivity.
  - rewrite E. reflexivity.
Qed.

Lemma removeBook_spec bookId env w :
  removeBook bookId env w =
  match found (sqlite w) bookId with
  | None => (Ok tt, w)
  | Some localBook =>
      if is_manual localBook
      then (Ok tt, match sqlite w with
                   | None => w
                   | Some db => set_sqlite (Some (delete bookId db)) w
                   end)
      else (Throw {| message := "Cannot remove non-manual books" |}, w)
  end.
Proof.
  unfold removeBook. rewrite try_rethrow.
  unfold bind. rewrite getBook_spec.
  destruct (found (sqlite w) bookId) as [b|]; [|reflexivity].
  destruct (is_manual b); simpl; [apply deleteBook_spec | reflexivity].
Qed.

Lemma found_row_of w key :
  found (sqlite w) key = (fun cols => book_of_row (key, cols)) <$> row_of w key.
Proof. unfold found, row_of. destruct (sqlite w); reflexivity. Qed.

Lemma removeBook_absent env w bookId :
  row_of w bookId = None -> removeBook bookId env w = (Ok tt, w).
Proof.
  intros H. rewrite removeBook_spec, found_row_of, H. reflexivity.
Qed.

(** C10. For an id that has no row in the Record Store (or when there is
    no database at all), [removeBook] returns normally and leaves the whole
    state, Record Store and Blob Cache included, as it was: no not-found
    error, no permission error. *)
Theorem removeBook_unknown_id env w bookId :
  row_of w bookId = None ->
  removeBook bookId env w = (Ok tt, w).
Proof. apply removeBook_absent. Qed.

Lemma removeBook_unknown_id_witness :
  row_of demo_world "b2" = None
  /\ removeBook "b2" (demo_env true failure) demo_world = (Ok tt, demo_world).
Proof.
  split; [reflexivity | apply removeBook_unknown_id; reflexivity].
Defined.

(** C2. For a row of the Record Store whose [is_manual] is false,
    [removeBook] throws the error "Cannot remove non-manual books" and
    leaves the whole state, Record Store and Blob Cache included, as it
    was. That outcome differs from the one for an id that is not found,
    which is a normal return. *)
Theorem removeBook_non_manual env w bookId cols :
  row_of w bookId = Some cols ->
  Boolean (c_is_manual cols) = false ->
  removeBook bookId env w
    = (Throw {| message := "Cannot remove non-manual books" |}, w)
  /\ forall w0 other,
       row_of w0 other = None ->
       fst (removeBook other env w0) <> fst (removeBook bookId env w).
Proof.
  intros H Hm.
  assert (E : removeBook bookId env w
              = (Throw {| message := "Cannot remove non-manual books" |}, w)).
  { rewrite removeBook_spec, found_row_of, H. simpl. rewrite Hm. reflexivity. }
  split; [exact E|].
  intros w0 other H0. rewrite E, (removeBook_absent _ _ _ H0). discriminate.
Qed.

Lemma removeBook_non_manual_witness :
  removeBook "b1" (demo_env true failure) demo_world
    = (Throw {| message := "Cannot remove non-manual books" |}, demo_world).
Proof.
  refine (proj1 (removeBook_non_manual (demo_env true failure) demo_world "b1"
                   (snd (values_of demo_synced)) _ _)); reflexivity.
Defined.

Lemma removeBook_manual env w bookId db cols :
  sqlite w = Some db ->
  db !! bookId = Some cols ->
  Boolean (c_is_manual cols) = true ->
  removeBook bookId env w = (Ok tt, set_sqlite (Some (delete bookId db)) w).
Proof.
  intros Hdb H Hm. rewrite removeBook_spec. unfold found. rewrite Hdb, H.
  simpl. rewrite Hm. reflexivity.
Qed.

(** C1, on the imported book of [demo_world]. [removeBook] succeeds and
    the row is gone, but the cached content of the book is still in the
    Blob Cache and no file was deleted: [deleteBook] deletes the row first
    and looks the book up afterwards, so it never reaches
    [deleteBookFiles]. *)
Theorem removeBook_leaves_cached_content :
  let key := "manual_1700000000000" in
  let path := "cache/1700000000000_epub" in
  (exists cols, row_of demo_world key = Some cols
                /\ Boolean (c_is_manual cols) = true
                /\ c_local_content_path cols = Some path)
  /\ fst (removeBook key (demo_env true failure) demo_world) = Ok tt
  /\ row_of (snd (removeBook key (demo_env true failure) demo_world)) key = None
  /\ files (snd (removeBook key (demo_env true failure) demo_world)) !! path
     = Some (DataString "TWFuAP8=")
  /\ trace (snd (removeBook key (demo_env true failure) demo_world)) = [].
Proof.
  cbv zeta. split.
  - eexists. split; [reflexivity|]. split; reflexivity.
  - rewrite (removeBook_manual _ demo_world "manual_1700000000000"
               (table_of [demo_manual; demo_synced])
               (snd (values_of demo_manual))) by reflexivity.
    repeat split; reflexivity.
Qed.

Lemma initializeStorage_spec env w :
  initializeStorage env w
  = (Ok tt, if engine_loads env then set_sqlite (Some ∅) w else w).
Proof.
  unfold initializeStorage, try_catch, bind, initSqlJs.
  destruct (engine_loads env); reflexivity.
Qed.

(** C6, refuted on an engine that cannot be loaded: after the failed
    initialization [getBooks] returns the same successful empty list as
    after a successful one. *)
Lemma getBooks_failed_init_same_as_empty :
  let broken := broken_engine (demo_env true failure) in
  let sound := demo_env true failure in
  engine_loads broken = false
  /\ engine_loads sound = true
  /\ ~ (fst (getBooks broken (snd (initializeStorage broken blank)))
        <> fst (getBooks sound (snd (initializeStorage sound blank)))).
Proof.
  cbv zeta. split; [reflexivity|]. split; [reflexivity|].
  intros H. apply H. reflexivity.
Qed.

(** C6, as the code has it. When the storage engine fails to initialize,
    the failure is caught and logged and [this.sqlite] stays [null];
    [getBooks] then returns the successful empty list, which is also its
    outcome over a database initialized with no records: the two are not
    distinguishable. *)
Theorem getBooks_after_failed_init env w :
  sqlite w = None ->
  engine_loads env = false ->
  fst (getBooks env (snd (initializeStorage env w))) = Ok []
  /\ forall env',
       engine_loads env' = true ->
       fst (getBooks env' (snd (initializeStorage env' w)))
       = fst (getBooks env (snd (initializeStorage env w))).
Proof.
  intros Hw He.
  assert (E : fst (getBooks env (snd (initializeStorage env w))) = Ok []).
  { rewrite initializeStorage_spec, He, getBooks_spec. simpl. rewrite Hw.
    reflexivity. }
  split; [exact E|].
  intros env' He'. rewrite E, initializeStorage_spec, He', getBooks_spec.
  reflexivity.
Qed.

Lemma getBooks_after_failed_init_witness :
  let broken := broken_engine (demo_env true failure) in
  fst (getBooks broken (snd (initializeStorage broken blank))) = Ok []
  /\ fst (getBooks (demo_env true failure)
            (snd (initializeStorage (demo_env true failure) blank)))
     = Ok [].
Proof.
  cbv zeta.
  destruct (getBooks_after_failed_init
              (broken_engine (demo_env true failure)) blank eq_refl eq_refl)
    as [E H].
  split; [exact E|].
  rewrite (H (demo_env true failure) eq_refl). exact E.
Defined.

Lemma fetchBooks_offline_spec env w :
  navigator_onLine env = false ->
  fetchBooks env w
  = (Ok (validBooks_at (clock env (ticks w)) (sqlite w)), tick w).
Proof.
  intros H. unfold fetchBooks. rewrite try_rethrow.
  unfold bind. rewrite getBooks_spec. unfold Date_now, ask. rewrite H.
  reflexivity.
Qed.

Lemma fetchBooks_remote_error_spec env w :
  navigator_onLine env = true ->
  is_Some (error (remote_books env)) ->
  fetchBooks env w
  = (Ok (validBooks_at (clock env (ticks w)) (sqlite w)), tick w).
Proof.
  intros H He. unfold fetchBooks. rewrite try_rethrow.
  unfold bind. rewrite getBooks_spec. unfold Date_now, ask. rewrite H.
  simpl. unfold supabase_select, ask.
  rewrite bool_decide_eq_true_2 by exact He. reflexivity.
Qed.

Lemma ltb_empty_r s : String.ltb s "" = false.
Proof. destruct s; reflexivity. Qed.

Lemma is_valid_iff now book : is_valid now book = true <-> valid_at now book.
Proof.
  unfold is_valid, valid_at, str_gt.
  destruct (is_manual book); simpl.
  - split; auto.
  - destruct (cache_expiry book) as [|c s] eqn:E; simpl.
    + rewrite ltb_empty_r. split; [discriminate|]. intros [?|[_ ?]]; discriminate.
    + split; [intros ->; right; auto | intros [?|[_ ?]]; [discriminate|assumption]].
Qed.

(** C7. Online, when the catalog answers with an error, [fetchBooks]
    returns normally with the valid books of the Record Store: the listed
    books that are manual, or not manual with a [cache_expiry] strictly
    after the current instant, expired records being left out. It is the
    very outcome it has without connectivity: the error of the remote fetch
    does not reach the caller, and the database, the cached files and the
    calls made to the outside are as before. *)
Theorem fetchBooks_remote_failure env w :
  navigator_onLine env = true ->
  is_Some (error (remote_books env)) ->
  let now := toISOString (clock env (ticks w)) in
  exists books w',
    fetchBooks env w = (Ok books, w')
    /\ books = validBooks_at (clock env (ticks w)) (sqlite w)
    /\ w' = tick w
    /\ fetchBooks env w = fetchBooks (offline env) w
    /\ (forall book,
          In book books <-> In book (listed (sqlite w)) /\ valid_at now book)
    /\ sqlite w' = sqlite w
    /\ files w' = files w
    /\ trace w' = trace w.
Proof.
  intros H He now. eexists _, _.
  split; [apply fetchBooks_remote_error_spec; assumption|].
  split; [reflexivity|]. split; [reflexivity|]. split.
  - rewrite fetchBooks_remote_error_spec by assumption.
    rewrite fetchBooks_offline_spec by reflexivity. reflexivity.
  - split; [|repeat split].
    intros book. unfold validBooks_at. rewrite filter_In, is_valid_iff.
    reflexivity.
Qed.

Lemma fetchBooks_remote_failure_witness :
  let env := demo_env_at 1700608400000 true failure in
  exists books w',
    fetchBooks env demo_world = (Ok books, w')
    /\ books = [stored demo_manual]
    /\ In (stored demo_synced) (listed (sqlite demo_world))
    /\ ~ In (stored demo_synced) books.
Proof.
  cbv zeta.
  destruct (fetchBooks_remote_failure (demo_env_at 1700608400000 true failure)
              demo_world eq_refl (ex_intro _ _ eq_refl))
    as (books & w' & E & Eb & _ & _ & V & _).
  assert (Eb' : books = [stored demo_manual])
    by (rewrite Eb; vm_compute; reflexivity).
  exists books, w'. split; [exact E|]. split; [exact Eb'|]. split.
  - vm_compute. auto.
  - rewrite Eb'. intros [Hin|[]]. discriminate Hin.
Defined.

(** C4. Without connectivity [fetchBooks] returns the books of the Record
    Store that pass its filter, and those are exactly the listed books that
    are manual, or not manual with a [cache_expiry] strictly after the
    current instant (timestamps are compared as ISO text, as the code
    does). Nothing is deleted: the database and the cached files are as
    before. *)
Theorem fetchBooks_offline env w :
  navigator_onLine env = false ->
  let now := toISOString (clock env (ticks w)) in
  exists books w',
    fetchBooks env w = (Ok books, w')
    /\ books = List.filter (is_valid now) (listed (sqlite w))
    /\ (forall book,
          In book books <-> In book (listed (sqlite w)) /\ valid_at now book)
    /\ sqlite w' = sqlite w
    /\ files w' = files w.
Proof.
  intros H now. eexists _, _. split; [apply fetchBooks_offline_spec, H|].
  split; [reflexivity|]. split; [|split; reflexivity].
  intros book. unfold validBooks_at. rewrite filter_In, is_valid_iff. reflexivity.
Qed.

Lemma found_saved book w :
  is_Some (sqlite w) -> found (sqlite (saved book w)) (id book) = Some (stored book).
Proof.
  intros [db E]. rewrite <- book_of_row_values_of. unfold saved. rewrite E.
  unfold found, set_sqlite; cbn [sqlite]. rewrite lookup_insert_eq. reflexivity.
Qed.

Lemma found_is_Some db key book : found db key = Some book -> is_Some db.
Proof. destruct db; [eauto | discriminate]. Qed.

Lemma found_id db key book : found db key = Some book -> id book = key.
Proof.
  destruct db as [db|]; [|discriminate]. simpl.
  destruct (db !! key); [|discriminate]. simpl. intros [= <-]. reflexivity.
Qed.

Lemma found_stored db key book : found db key = Some book -> stored book = book.
Proof.
  destruct db as [db|]; [|discriminate]. simpl.
  destruct (db !! key); [|discriminate]. simpl. intros [= <-]. reflexivity.
Qed.

Lemma updateBookProgress_spec bookId progress env w :
  updateBookProgress bookId progress env w =
  match found (sqlite w) bookId with
  | None => (Ok tt, w)
  | Some book =>
      let w' := saved (progressed progress (clock env (ticks w)) book) (tick w) in
      (Ok tt,
       if synced_with_supabase book && navigator_onLine env
       then emit (RemoteUpdated bookId progress) w'
       else w')
  end.
Proof.
  unfold updateBookProgress. rewrite try_rethrow.
  unfold bind at 1. rewrite getBook_spec.
  destruct (found (sqlite w) bookId) as [book|].
  - unfold bind at 1. unfold bind at 1. unfold Date_now.
    rewrite saveBook_spec. unfold bind, ask. cbv zeta.
    change (synced_with_supabase
              (with_base (with_read_progress progress book) book))
      with (synced_with_supabase book).
    destruct (synced_with_supabase book && navigator_onLine env); reflexivity.
  - unfold bind, ret, ask. simpl. reflexivity.
Qed.

(** C8. For a book of the Record Store, whatever the connectivity, whether
    the book is synced and whatever the remote update answers,
    [updateBookProgress] returns normally; afterwards the Record Store has
    the book with [read_progress] set to the new value and [updated_at] to
    the current instant, nothing else changed, and the database is the one
    the local save alone produces: a remote failure undoes nothing. *)
Theorem updateBookProgress_local_first env w bookId progress book :
  found (sqlite w) bookId = Some book ->
  exists w',
    updateBookProgress bookId progress env w = (Ok tt, w')
    /\ (exists after,
          found (sqlite w') bookId = Some after
          /\ read_progress after = progress
          /\ updated_at after = toISOString (clock env (ticks w))
          /\ after = progressed progress (clock env (ticks w)) book)
    /\ sqlite w' = sqlite (saved (progressed progress (clock env (ticks w)) book) w)
    /\ files w' = files w.
Proof.
  intros H. rewrite updateBookProgress_spec, H. cbv zeta.
  set (b' := progressed progress (clock env (ticks w)) book).
  assert (Hs : is_Some (sqlite w)) by (eapply found_is_Some; eauto).
  assert (Hid : id b' = bookId) by (apply (found_id _ _ _ H)).
  assert (Hst : stored b' = b').
  { subst b'. rewrite <- (found_stored _ _ _ H). reflexivity. }
  assert (Hf : found (sqlite (saved b' (tick w))) bookId = Some b').
  { rewrite <- Hid at 1. rewrite found_saved by exact Hs. rewrite Hst. reflexivity. }
  assert (Hq : sqlite (saved b' (tick w)) = sqlite (saved b' w)).
  { unfold saved. simpl. destruct (sqlite w); reflexivity. }
  assert (Hfiles : files (saved b' (tick w)) = files w).
  { unfold saved. simpl. destruct (sqlite w); reflexivity. }
  eexists. split; [reflexivity|].
  destruct (synced_with_supabase book && navigator_onLine env); simpl;
    (split; [exists b'; repeat split; exact Hf | split; [exact Hq | exact Hfiles]]).
Qed.

Lemma updateBookProgress_never_throws env w bookId progress :
  fst (updateBookProgress bookId progress env w) = Ok tt.
Proof.
  rewrite updateBookProgress_spec.
  destruct (found (sqlite w) bookId); reflexivity.
Qed.

Section Upserts.

Implicit Types (books : list LocalBook) (db : gmap string Cols).

Lemma saveBooks_spec books env w :
  saveBooks books env w = (Ok tt, fold_left (fun w book => saved book w) books w).
Proof.
  revert w. induction books as [|book rest IH]; intros w; [reflexivity|].
  simpl. unfold bind. rewrite saveBook_spec. apply IH.
Qed.

Lemma sqlite_saved_fold books w db :
  sqlite w = Some db ->
  sqlite (fold_left (fun w book => saved book w) books w)
  = Some (fold_left upsert books db).
Proof.
  revert w db. induction books as [|book rest IH]; intros w db E; [exact E|].
  simpl. apply IH. unfold saved. rewrite E. reflexivity.
Qed.

Lemma lookup_upserts books db key :
  fold_left upsert books db !! key
  = match latest key books with
    | Some book => Some (snd (values_of book))
    | None => db !! key
    end.
Proof.
  revert db. induction books as [|book rest IH]; intros db; [reflexivity|].
  simpl. rewrite IH. destruct (latest key rest); [reflexivity|].
  unfold upsert. destruct (decide (id book = key)) as [->|Hne].
  - apply lookup_insert_eq.
  - apply lookup_insert_ne, Hne.
Qed.

Lemma latest_None key books :
  latest key books = None <-> ~ In key (ids books).
Proof.
  induction books as [|book rest IH]; simpl; [tauto|].
  destruct (latest key rest) as [later|].
  - split; [discriminate|]. intros H.
    assert (E : Some later = None) by (apply IH; tauto). discriminate.
  - destruct (decide (id book = key)) as [Heq|Hne]; split.
    + discriminate.
    + intros H. exfalso. apply H. left. exact Heq.
    + intros _ [?|?]; [congruence | tauto].
    + reflexivity.
Qed.

Lemma latest_Some key books book :
  latest key books = Some book <->
  exists before after,
    books = before ++ book :: after
    /\ id book = key /\ ~ In key (ids after).
Proof.
  induction books as [|b rest IH]; simpl.
  - split; [discriminate|]. intros (before & after & E & _).
    destruct before; discriminate.
  - destruct (latest key rest) as [later|] eqn:L.
    + split.
      * intros [= <-]. destruct (proj1 IH eq_refl) as (before & after & -> & ? & ?).
        exists (b :: before), after. auto.
      * intros (before & after & E & Hid & Hn).
        destruct before as [|b0 before]; simpl in E; injection E as -> E.
        -- subst rest. apply latest_None in Hn. congruence.
        -- apply IH. eauto.
    + apply latest_None in L. split.
      * destruct (decide (id b = key)); [|discriminate]. intros [= <-].
        exists [], rest. auto.
      * intros (before & after & E & Hid & Hn).
        destruct before as [|b0 before]; simpl in E; injection E as -> E.
        -- rewrite decide_True by exact Hid. reflexivity.
        -- exfalso. apply L. subst rest. unfold ids. rewrite map_app, in_app_iff.
           right. left. exact Hid.
Qed.

Lemma ids_listed db : ids (listed (Some db)) = (map_to_list db).*1.
Proof.
  unfold ids, listed. rewrite map_map. apply map_ext. intros [key cols]. reflexivity.
Qed.

Lemma In_listed db book :
  In book (listed (Some db)) <->
  exists key cols, db !! key = Some cols /\ book = book_of_row (key, cols).
Proof.
  unfold listed. rewrite in_map_iff. split.
  - intros ([key cols] & <- & Hin). exists key, cols. split; [|reflexivity].
    apply elem_of_map_to_list, list_elem_of_In, Hin.
  - intros (key & cols & H & ->). exists (key, cols). split; [reflexivity|].
    apply list_elem_of_In, elem_of_map_to_list, H.
Qed.

End Upserts.

(** C5, refuted on one [saveBook]: the book listed afterwards is not the
    book saved, its [is_crafted] is gone. *)
Lemma getBooks_drops_is_crafted :
  let env := demo_env true failure in
  let w := snd (saveBooks [demo_synced] env (set_sqlite (Some ∅) blank)) in
  is_crafted demo_synced = Some true
  /\ ~ (exists books,
          fst (getBooks env w) = Ok books
          /\ forall book, In book books -> book = demo_synced).
Proof.
  cbv zeta. split; [reflexivity|]. intros (books & E & H).
  vm_compute in E. injection E as <-.
  specialize (H _ (or_introl eq_refl)). discriminate H.
Qed.

(** C5, as the code has it. After any sequence of [saveBook] calls on an
    initialized, empty Record Store, [getBooks] lists exactly one book per
    distinct id of the sequence, and that book is the last one saved under
    the id with every column of the table as saved; [is_crafted], which
    the table does not have, is absent from it. *)
Theorem getBooks_after_upserts env w books :
  sqlite w = Some ∅ ->
  exists w' listing,
    saveBooks books env w = (Ok tt, w')
    /\ getBooks env w' = (Ok listing, w')
    /\ NoDup (ids listing)
    /\ (forall key, In key (ids listing)
                    <-> In key (ids books))
    /\ (forall book,
          In book listing <->
          exists before last after,
            books = before ++ last :: after
            /\ ~ In (id last) (ids after)
            /\ book = stored last).
Proof.
  intros E. eexists _, _. split; [apply saveBooks_spec|].
  split; [apply getBooks_spec|].
  rewrite (sqlite_saved_fold books w ∅ E).
  set (db := fold_left upsert books ∅).
  assert (L : forall key, db !! key = (fun b => snd (values_of b)) <$> latest key books).
  { intros key. subst db. rewrite lookup_upserts, lookup_empty.
    destruct (latest key books); reflexivity. }
  split; [|split].
  - rewrite ids_listed. apply NoDup_fst_map_to_list.
  - intros key. rewrite ids_listed.
    rewrite <- list_elem_of_In, list_elem_of_fmap. split.
    + intros ([k cols] & -> & Hin). apply elem_of_map_to_list in Hin.
      cbn [fst] in *. rewrite L in Hin.
      destruct (latest k books) eqn:Lk; [|discriminate].
      destruct (in_dec String.string_dec k (ids books)) as [|n];
        [assumption|].
      apply latest_None in n. congruence.
    + intros Hin. destruct (latest key books) as [u|] eqn:Lk.
      * exists (key, snd (values_of u)). split; [reflexivity|].
        apply elem_of_map_to_list. rewrite L, Lk. reflexivity.
      * apply latest_None in Lk. contradiction.
  - intros book. rewrite In_listed. split.
    + intros (key & cols & Hl & ->). rewrite L in Hl.
      destruct (latest key books) as [u|] eqn:Lk; [|discriminate].
      injection Hl as <-. apply latest_Some in Lk.
      destruct Lk as (before & after & -> & Hid & Hn).
      exists before, u, after. split; [reflexivity|]. split; [rewrite Hid; exact Hn|].
      rewrite <- book_of_row_values_of, <- Hid. reflexivity.
    + intros (before & u & after & -> & Hn & ->).
      exists (id u), (snd (values_of u)). split.
      * rewrite L.
        assert (Lk : latest (id u) (before ++ u :: after) = Some u).
        { apply latest_Some. exists before, after. auto. }
        rewrite Lk. reflexivity.
      * rewrite <- book_of_row_values_of. reflexivity.
Qed.

(** ** Base64 *)

Section Base64.

Local Open Scope N_scope.

Local Ltac six_bits n H :=
  destruct n as [|p]; [vm_compute; reflexivity|];
  do 6 (destruct p as [p|p|]; [ | | vm_compute; reflexivity]);
  exfalso; revert H; clear; lia.

Lemma b64_value_char n : n < 64 -> b64_value (b64_char n) = Some n.
Proof. intros H. six_bits n H. Qed.

Lemma b64_char_not_pad n : n < 64 -> Ascii.eqb (b64_char n) "=" = false.
Proof. intros H. six_bits n H. Qed.

Lemma b64_char_not_comma n : n < 64 -> Ascii.eqb (b64_char n) "," = false.
Proof. intros H. six_bits n H. Qed.

Lemma of_N_byte_to_N b : of_N_byte (Byte.to_N b) = b.
Proof. unfold of_N_byte. rewrite Byte.of_to_N. reflexivity. Qed.

Lemma to_N_bound b : Byte.to_N b < 256.
Proof. pose proof (Byte.to_N_bounded b). lia. Qed.

Local Ltac Zify.zify_post_hook ::= Z.to_euclidean_division_equations.

Lemma b64_encode_step a b c rest :
  b64_encode (a :: b :: c :: rest) =
  String (b64_char (Byte.to_N a / 4))
    (String (b64_char (Byte.to_N a mod 4 * 16 + Byte.to_N b / 16))
      (String (b64_char (Byte.to_N b mod 16 * 4 + Byte.to_N c / 64))
        (String (b64_char (Byte.to_N c mod 64)) (b64_encode rest)))).
Proof. reflexivity. Qed.

Lemma b64_char_plain n : n < 64 -> plain_char (b64_char n) = true.
Proof. intros H. six_bits n H. Qed.

(** Lists three elements at a time. *)
Lemma by_threes {A : Type} (P : list A -> Prop) :
  P [] -> (forall a, P [a]) -> (forall a b, P [a; b]) ->
  (forall a b c rest, P rest -> P (a :: b :: c :: rest)) ->
  forall l, P l.
Proof.
  intros H0 H1 H2 H3.
  assert (H : forall l, P l /\ (forall a, P (a :: l)) /\ (forall a b, P (a :: b :: l))).
  { induction l as [|x l (IH0 & IH1 & IH2)]; [auto|].
    split; [apply IH1|]. split; [intros a; apply IH2|].
    intros a b. apply H3, IH0. }
  intros l. apply H.
Qed.

Lemma without_final_pad_step c1 c2 c3 c4 rest :
  Ascii.eqb c4 "=" = false ->
  without_final_pad (String c1 (String c2 (String c3 (String c4 rest))))
  = String c1 (String c2 (String c3 (String c4 (without_final_pad rest)))).
Proof.
  intros H. destruct rest; cbn [without_final_pad]; [rewrite H|]; reflexivity.
Qed.

Lemma decode_sextets_step c1 c2 c3 c4 rest :
  decode_sextets (String c1 (String c2 (String c3 (String c4 rest)))) =
  match b64_value c1, b64_value c2, b64_value c3, b64_value c4,
        decode_sextets rest with
  | Some v1, Some v2, Some v3, Some v4, Some more =>
      Some (of_N_byte (v1 * 4 + v2 / 16)
              :: of_N_byte (v2 mod 16 * 16 + v3 / 4)
              :: of_N_byte (v3 mod 4 * 64 + v4) :: more)
  | _, _, _, _, _ => None
  end.
Proof. reflexivity. Qed.

(** The encoding without its padding decodes to the bytes. *)
Lemma decode_sextets_encode bs :
  decode_sextets (without_final_pad (without_final_pad (b64_encode bs)))
  = Some bs.
Proof.
  induction bs as [|a|a b|a b c rest IH] using by_threes.
  - reflexivity.
  - pose proof (to_N_bound a) as Ha.
    change (b64_encode [a]) with
      (String (b64_char (Byte.to_N a / 4))
         (String (b64_char (Byte.to_N a mod 4 * 16)) "==")).
    cbn [without_final_pad]. change (Ascii.eqb "=" "=") with true.
    cbn [without_final_pad]. change (Ascii.eqb "=" "=") with true.
    cbn [decode_sextets]. rewrite !b64_value_char by lia.
    replace (Byte.to_N a / 4 * 4 + Byte.to_N a mod 4 * 16 / 16) with (Byte.to_N a)
      by lia.
    rewrite of_N_byte_to_N. reflexivity.
  - pose proof (to_N_bound a) as Ha. pose proof (to_N_bound b) as Hb.
    change (b64_encode [a; b]) with
      (String (b64_char (Byte.to_N a / 4))
         (String (b64_char (Byte.to_N a mod 4 * 16 + Byte.to_N b / 16))
            (String (b64_char (Byte.to_N b mod 16 * 4)) "="))).
    cbn [without_final_pad]. change (Ascii.eqb "=" "=") with true.
    cbn [without_final_pad].
    rewrite (b64_char_not_pad (Byte.to_N b mod 16 * 4)) by lia.
    cbn [decode_sextets]. rewrite !b64_value_char by lia.
    replace (Byte.to_N a / 4 * 4 + (Byte.to_N a mod 4 * 16 + Byte.to_N b / 16) / 16)
      with (Byte.to_N a) by lia.
    replace ((Byte.to_N a mod 4 * 16 + Byte.to_N b / 16) mod 16 * 16
             + Byte.to_N b mod 16 * 4 / 4)
      with (Byte.to_N b) by lia.
    rewrite !of_N_byte_to_N. reflexivity.
  - pose proof (to_N_bound a) as Ha. pose proof (to_N_bound b) as Hb.
    pose proof (to_N_bound c) as Hc.
    rewrite b64_encode_step.
    rewrite !without_final_pad_step by (apply b64_char_not_pad; lia).
    rewrite decode_sextets_step, IH.
    rewrite !b64_value_char by lia.
    replace (Byte.to_N a / 4 * 4 + (Byte.to_N a mod 4 * 16 + Byte.to_N b / 16) / 16)
      with (Byte.to_N a) by lia.
    replace ((Byte.to_N a mod 4 * 16 + Byte.to_N b / 16) mod 16 * 16
             + (Byte.to_N b mod 16 * 4 + Byte.to_N c / 64) / 4)
      with (Byte.to_N b) by lia.
    replace ((Byte.to_N b mod 16 * 4 + Byte.to_N c / 64) mod 4 * 64
             + Byte.to_N c mod 64)
      with (Byte.to_N c) by lia.
    rewrite !of_N_byte_to_N. reflexivity.
Qed.

Lemma length_b64_encode bs : (String.length (b64_encode bs) mod 4 = 0)%nat.
Proof.
  induction bs as [|a|a b|a b c rest IH] using by_threes; try reflexivity.
  rewrite b64_encode_step. cbn [String.length].
  change (S (S (S (S (String.length (b64_encode rest))))))
    with (4 + String.length (b64_encode rest))%nat.
  rewrite Nat.Div0.add_mod, IH. reflexivity.
Qed.

Lemma plain_b64_encode bs : all_chars plain_char (b64_encode bs) = true.
Proof.
  induction bs as [|a|a b|a b c rest IH] using by_threes.
  - reflexivity.
  - pose proof (to_N_bound a).
    cbn [b64_encode all_chars]. rewrite !b64_char_plain by lia. reflexivity.
  - pose proof (to_N_bound a). pose proof (to_N_bound b).
    cbn [b64_encode all_chars]. rewrite !b64_char_plain by lia. reflexivity.
  - pose proof (to_N_bound a). pose proof (to_N_bound b). pose proof (to_N_bound c).
    rewrite b64_encode_step. cbn [all_chars].
    rewrite !b64_char_plain by lia. exact IH.
Qed.

Lemma plain_not_whitespace c :
  plain_char c = true ->
  ascii_whitespace c = false /\ ascii_tab_or_newline c = false
  /\ c0_control_or_space c = false
  /\ Ascii.eqb c "#" = false /\ Ascii.eqb c "%" = false
  /\ Ascii.eqb c "," = false.
Proof.
  unfold plain_char, ascii_whitespace, ascii_tab_or_newline, c0_control_or_space.
  rewrite !andb_true_iff, !negb_true_iff. intros [[[C H] P] K].
  apply N.leb_gt in C.
  repeat split; try assumption;
    repeat match goal with
           | |- context [?a =? ?b] => destruct (N.eqb_spec a b); [lia|]
           end; try reflexivity.
  apply N.leb_gt. exact C.
Qed.

Lemma plain_remove_chars p s :
  (forall c, plain_char c = true -> p c = false) ->
  all_chars plain_char s = true -> remove_chars p s = s.
Proof.
  intros Hp. induction s as [|c s IH]; [reflexivity|].
  cbn [all_chars remove_chars]. intros [Hc Hs]%andb_true_iff.
  rewrite (Hp c Hc), IH by exact Hs. reflexivity.
Qed.

Lemma plain_strip_trailing s :
  all_chars plain_char s = true -> strip_trailing c0_control_or_space s = s.
Proof.
  induction s as [|c s IH]; [reflexivity|].
  cbn [all_chars strip_trailing]. intros [Hc Hs]%andb_true_iff.
  rewrite IH by exact Hs.
  destruct (plain_not_whitespace c Hc) as (_ & _ & -> & _).
  rewrite andb_false_r. reflexivity.
Qed.

Lemma plain_before s : all_chars plain_char s = true -> before "#" s = s.
Proof.
  induction s as [|c s IH]; [reflexivity|].
  cbn [all_chars before]. intros [Hc Hs]%andb_true_iff.
  destruct (plain_not_whitespace c Hc) as (_ & _ & _ & -> & _).
  rewrite IH by exact Hs. reflexivity.
Qed.

Lemma plain_percent_decode s :
  all_chars plain_char s = true -> percent_decode s = s.
Proof.
  induction s as [|c s IH]; [reflexivity|].
  cbn [all_chars]. intros [Hc Hs]%andb_true_iff.
  destruct (plain_not_whitespace c Hc) as (_ & _ & _ & _ & P & _).
  specialize (IH Hs).
  destruct s as [|h [|l rest]]; cbn [percent_decode] in *; rewrite ?P;
    try rewrite IH; reflexivity.
Qed.

(** A text of such characters is the body of its [data:] URL. *)
Lemma data_url_body_plain s :
  all_chars plain_char s = true -> data_url_body s = s.
Proof.
  intros H. unfold data_url_body.
  rewrite plain_strip_trailing by exact H.
  rewrite plain_remove_chars; [|intros c Hc; apply plain_not_whitespace, Hc|exact H].
  rewrite plain_before by exact H. apply plain_percent_decode, H.
Qed.

(** Decoding undoes encoding. *)
Lemma decode_encode bs : forgiving_base64_decode (b64_encode bs) = Some bs.
Proof.
  unfold forgiving_base64_decode.
  rewrite plain_remove_chars;
    [|intros c Hc; apply plain_not_whitespace, Hc|apply plain_b64_encode].
  rewrite length_b64_encode. cbn [Nat.eqb]. apply decode_sextets_encode.
Qed.

Lemma isBase64String_b64_encode bs : isBase64String (b64_encode bs) = true.
Proof.
  unfold isBase64String, atob, btoa. rewrite decode_encode. apply String.eqb_refl.
Qed.

(** What passes the test of the plugin is the encoding of the bytes it
    decodes to. *)
Lemma isBase64String_inv str :
  isBase64String str = true ->
  exists bs, str = b64_encode bs /\ atob str = Some bs.
Proof.
  unfold isBase64String, btoa. destruct (atob str) as [bs|] eqn:E; [|discriminate].
  intros H%String.eqb_eq. eauto.
Qed.

Lemma comma_free_b64_encode bs : comma_free (b64_encode bs) = true.
Proof.
  induction bs as [|a|a b|a b c rest IH] using by_threes.
  - reflexivity.
  - pose proof (to_N_bound a).
    cbn [b64_encode comma_free]. rewrite !b64_char_not_comma by lia. reflexivity.
  - pose proof (to_N_bound a). pose proof (to_N_bound b).
    cbn [b64_encode comma_free]. rewrite !b64_char_not_comma by lia. reflexivity.
  - pose proof (to_N_bound a). pose proof (to_N_bound b). pose proof (to_N_bound c).
    rewrite b64_encode_step. cbn [comma_free].
    rewrite !b64_char_not_comma by lia. exact IH.
Qed.

End Base64.

(** ** The data URL of [cacheFile] *)

Section DataUrl.

Lemma append_cons c (a b : string) : String c a +:+ b = String c (a +:+ b).
Proof. reflexivity. Qed.

Lemma append_nil (b : string) : "" +:+ b = b.
Proof. reflexivity. Qed.

Local Ltac chars :=
  rewrite ?append_cons, ?append_nil;
  cbn [starts_with comma_free andb negb];
  repeat match goal with
         | |- context [Ascii.eqb ?a ?b] =>
             destruct (Ascii.eqb_spec a b);
             [subst|]; cbn [starts_with comma_free andb negb]
         end;
  try discriminate; try reflexivity; try congruence.

(** A text with the separator in front has a comma. *)
Lemma starts_with_has_comma s :
  starts_with s "base64," = true -> comma_free s = false.
Proof.
  destruct s as [|c1 [|c2 [|c3 [|c4 [|c5 [|c6 [|c7 s]]]]]]]; chars.
Qed.

(** A semicolon stops a match that began before it. *)
Lemma starts_with_before_semicolon t rest :
  starts_with (t +:+ String ";" rest) "base64," = starts_with t "base64,".
Proof.
  destruct t as [|c1 [|c2 [|c3 [|c4 [|c5 [|c6 [|c7 t]]]]]]]; chars.
Qed.

Lemma comma_free_tail c s : comma_free (String c s) = true -> comma_free s = true.
Proof. cbn [comma_free]. intros H. apply andb_true_iff in H. apply H. Qed.

Lemma append_assoc (a b c : string) : (a +:+ b) +:+ c = a +:+ (b +:+ c).
Proof.
  induction a as [|x a IH]; [reflexivity|].
  rewrite !append_cons, IH. reflexivity.
Qed.

Lemma append_empty_r (a : string) : a +:+ "" = a.
Proof.
  induction a as [|x a IH]; [reflexivity|].
  rewrite !append_cons, IH. reflexivity.
Qed.

(** Without a comma there is nothing to split at. *)
Lemma split_no_match cur s :
  comma_free s = true -> split_from "base64," 0 cur s = [cur +:+ s].
Proof.
  revert cur. induction s as [|c s IH]; intros cur H.
  - cbn [split_from]. rewrite append_empty_r. reflexivity.
  - cbn [split_from].
    destruct (starts_with (String c s) "base64,") eqn:E.
    + apply starts_with_has_comma in E. congruence.
    + rewrite IH by (eapply comma_free_tail; eauto).
      rewrite append_assoc. reflexivity.
Qed.

Lemma includes_tail c s sub :
  includes (String c s) sub = false ->
  starts_with (String c s) sub = false /\ includes s sub = false.
Proof. cbn [includes]. intros H. apply orb_false_iff in H. exact H. Qed.

Lemma split_at_marker cur payload :
  split_from "base64," 0 cur (";base64," +:+ payload)
  = (cur +:+ ";") :: split_from "base64," 0 "" payload.
Proof. reflexivity. Qed.

Lemma split_data_scheme rest :
  split_from "base64," 0 "" ("data:" +:+ rest)
  = split_from "base64," 0 "data:" rest.
Proof. reflexivity. Qed.

(** The pieces of a data URL whose media type is [t]. *)
Lemma split_after_type cur t payload :
  includes t "base64," = false ->
  comma_free payload = true ->
  split_from "base64," 0 cur (t +:+ ";base64," +:+ payload)
  = [cur +:+ t +:+ ";"; payload].
Proof.
  revert cur. induction t as [|c t IH]; intros cur Ht Hp.
  - rewrite append_nil, split_at_marker, split_no_match by exact Hp.
    reflexivity.
  - apply includes_tail in Ht. destruct Ht as [Hs Ht].
    change (String c t +:+ ";base64," +:+ payload)
      with (String c (t +:+ ";base64," +:+ payload)).
    cbn [split_from].
    change (String c (t +:+ ";base64," +:+ payload))
      with (String c t +:+ String ";" ("base64," +:+ payload)).
    rewrite starts_with_before_semicolon, Hs.
    rewrite IH by assumption.
    rewrite !append_assoc. reflexivity.
Qed.

Lemma includes_after_type t payload :
  includes (t +:+ ";base64," +:+ payload) "base64," = true.
Proof.
  induction t as [|c t IH].
  - reflexivity.
  - change (String c t +:+ ";base64," +:+ payload)
      with (String c (t +:+ ";base64," +:+ payload)).
    cbn [includes]. rewrite IH. apply orb_true_r.
Qed.

Lemma base64Content_readAsDataURL blob :
  includes (blob_type blob) "base64," = false ->
  base64Content (readAsDataURL blob) = b64_encode (blob_bytes blob).
Proof.
  intros H. unfold base64Content, readAsDataURL.
  assert (I : includes
                ("data:" +:+ blob_type blob +:+ ";base64,"
                 +:+ b64_encode (blob_bytes blob)) "base64," = true).
  { change ("data:" +:+ blob_type blob +:+ ";base64,"
            +:+ b64_encode (blob_bytes blob))
      with (String "d" (String "a" (String "t" (String "a" (String ":"
              (blob_type blob +:+ ";base64," +:+ b64_encode (blob_bytes blob))))))).
    cbn [includes]. rewrite includes_after_type. rewrite !orb_true_r.
    reflexivity. }
  rewrite I. unfold split. rewrite split_data_scheme.
  rewrite split_after_type by (auto using comma_free_b64_encode).
  reflexivity.
Qed.

End DataUrl.

(** ** The Blob Cache *)

Lemma includes_comma_free s : comma_free s = true -> includes s "," = false.
Proof.
  induction s as [|c s IH]; [reflexivity|].
  cbn [comma_free includes starts_with]. intros [Hc Hs]%andb_true_iff.
  rewrite IH by exact Hs. rewrite Ascii.eqb_sym.
  apply negb_true_iff in Hc. rewrite Hc. reflexivity.
Qed.

(** For a media type without the text [base64,], what the Filesystem is
    given and keeps is the base64 text of the bytes. *)
Lemma stored_text_plain blob :
  includes (blob_type blob) "base64," = false ->
  stored_text blob = b64_encode (blob_bytes blob).
Proof.
  intros H. unfold stored_text, content_of_data.
  rewrite base64Content_readAsDataURL by exact H.
  rewrite includes_comma_free by apply comma_free_b64_encode. reflexivity.
Qed.

Lemma storable_plain blob :
  includes (blob_type blob) "base64," = false -> storable blob = true.
Proof.
  intros H. unfold storable. rewrite stored_text_plain by exact H.
  apply isBase64String_b64_encode.
Qed.

Lemma cacheFile_spec fileUrl fileType env w :
  cacheFile fileUrl fileType env w =
  match http env fileUrl with
  | Some blob =>
      if storable blob
      then (Ok (cache_path (clock env (ticks w)) fileType),
            cached fileUrl fileType blob env w)
      else (Throw {| message := "The supplied data is not valid base64 content." |},
            tick w)
  | None => (Throw {| message := "Failed to fetch" |}, w)
  end.
Proof.
  unfold cacheFile. rewrite try_rethrow. unfold bind, fetch_blob.
  destruct (http env fileUrl) as [blob|]; [|reflexivity].
  unfold Date_now, Filesystem_writeFile, storable, stored_text.
  destruct (isBase64String (content_of_data (base64Content (readAsDataURL blob))))
    eqn:E; [|reflexivity].
  unfold cached, stored_text. reflexivity.
Qed.

Lemma cacheFile_plain fileUrl fileType blob env w :
  http env fileUrl = Some blob ->
  includes (blob_type blob) "base64," = false ->
  cacheFile fileUrl fileType env w
  = (Ok (cache_path (clock env (ticks w)) fileType),
     cached fileUrl fileType blob env w).
Proof.
  intros Hf Ht. rewrite cacheFile_spec, Hf, storable_plain by exact Ht.
  reflexivity.
Qed.

Lemma readCachedFile_string path text env w :
  files w !! path = Some (DataString text) ->
  readCachedFile path env w =
  match forgiving_base64_decode (data_url_body text) with
  | Some bs => (Ok {| blob_bytes := bs; blob_type := "application/epub+zip" |}, w)
  | None => (Throw {| message := "Failed to fetch" |}, w)
  end.
Proof.
  intros H. unfold readCachedFile. rewrite try_rethrow.
  unfold bind, Filesystem_readFile. rewrite H. unfold fetch_epub_data_url.
  destruct (forgiving_base64_decode (data_url_body text)); reflexivity.
Qed.

(** A file that holds the base64 text of [bs] is read as [bs]. *)
Lemma readCachedFile_encoded path bs env w :
  files w !! path = Some (DataString (b64_encode bs)) ->
  readCachedFile path env w
  = (Ok {| blob_bytes := bs; blob_type := "application/epub+zip" |}, w).
Proof.
  intros H. rewrite (readCachedFile_string _ _ _ _ H).
  rewrite data_url_body_plain by apply plain_b64_encode.
  rewrite decode_encode. reflexivity.
Qed.

(** C9, on a resource with the bytes [Man] whose media type is
    [text/plain;note="base64,abcdbase64,"]. The data URL of the blob has
    the text [base64,] three times; [cacheFile] stores what lies between
    the first two, [abcd], not the base64 text [TWFu] of the bytes. The
    Filesystem takes it, being base64, and [readCachedFile] of the path
    returned yields three bytes that are not the bytes fetched. *)
Theorem cacheFile_quoted_media_type :
  let path := "cache/1700000000000_epub" in
  let r := cacheFile "https://cdn/a.txt" "epub" quoted_type_env blank in
  http quoted_type_env "https://cdn/a.txt" = Some quoted_type_blob
  /\ blob_bytes quoted_type_blob = [Byte.x4d; Byte.x61; Byte.x6e]
  /\ b64_encode (blob_bytes quoted_type_blob) = "TWFu"
  /\ base64Content (readAsDataURL quoted_type_blob) = "abcd"
  /\ isBase64String "abcd" = true
  /\ fst r = Ok path
  /\ files (snd r) !! path = Some (DataString "abcd")
  /\ readCachedFile path quoted_type_env (snd r)
     = (Ok {| blob_bytes := [Byte.x69; Byte.xb7; Byte.x1d];
              blob_type := "application/epub+zip" |}, snd r).
Proof.
  cbv zeta.
  assert (St : stored_text quoted_type_blob = "abcd") by (vm_compute; reflexivity).
  assert (Sb : storable quoted_type_blob = true) by (vm_compute; reflexivity).
  rewrite cacheFile_spec. cbn [http quoted_type_env]. rewrite Sb. cbn [fst snd].
  assert (F : files (cached "https://cdn/a.txt" "epub" quoted_type_blob
                       quoted_type_env blank)
              !! "cache/1700000000000_epub" = Some (DataString "abcd")).
  { unfold cached. cbn [files emit set_files]. rewrite St.
    change (cache_path (clock quoted_type_env (ticks blank)) "epub")
      with "cache/1700000000000_epub".
    apply lookup_insert_eq. }
  split; [reflexivity|]. split; [reflexivity|]. split; [reflexivity|].
  split; [vm_compute; reflexivity|]. split; [reflexivity|].
  split; [reflexivity|]. split; [exact F|].
  rewrite (readCachedFile_string _ _ _ _ F). reflexivity.
Qed.

(** For a media type without the text [base64,], reading what [cacheFile]
    stored gives back the bytes fetched. *)
Lemma cache_round_trip env w fileUrl fileType blob :
  http env fileUrl = Some blob ->
  includes (blob_type blob) "base64," = false ->
  exists path w1 blob',
    cacheFile fileUrl fileType env w = (Ok path, w1)
    /\ readCachedFile path env w1 = (Ok blob', w1)
    /\ blob_bytes blob' = blob_bytes blob.
Proof.
  intros Hf Ht. rewrite (cacheFile_plain _ _ _ _ _ Hf Ht). eexists _, _, _.
  split; [reflexivity|].
  rewrite (readCachedFile_encoded _ (blob_bytes blob)).
  - split; reflexivity.
  - unfold cached. cbn [files emit set_files].
    rewrite lookup_insert_eq, stored_text_plain by exact Ht.
    reflexivity.
Qed.

Example cache_round_trip_demo :
  exists path w1 blob',
    cacheFile "https://cdn/b1.epub" "epub" (demo_env true failure) demo_world
      = (Ok path, w1)
    /\ readCachedFile path (demo_env true failure) w1 = (Ok blob', w1)
    /\ blob_bytes blob' = blob_bytes demo_blob.
Proof.
  apply (cache_round_trip (demo_env true failure) demo_world
           "https://cdn/b1.epub" "epub" demo_blob); reflexivity.
Qed.

(** ** Reasoning about computations *)

Section Obeys.

Variable R : World -> World -> Prop.
Hypothesis R_refl : forall w, R w w.
Hypothesis R_trans : forall w1 w2 w3, R w1 w2 -> R w2 w3 -> R w1 w3.

Lemma obeys_ret {A : Type} (Q : A -> Prop) a : Q a -> obeys R Q (ret a).
Proof. intros H env w. split; [apply R_refl|]. intros a' [= <-]. exact H. Qed.

Lemma obeys_throw {A : Type} (Q : A -> Prop) e : obeys R Q (throw e).
Proof. intros env w. split; [apply R_refl | discriminate]. Qed.

Lemma obeys_ask {A : Type} (f : Env -> A) : obeys R (fun _ => True) (ask f).
Proof. intros env w. split; [apply R_refl | auto]. Qed.

Lemma obeys_bind {A B : Type} (Q : A -> Prop) (Q' : B -> Prop)
  (m : M A) (k : A -> M B) :
  obeys R Q m -> (forall a, Q a -> obeys R Q' (k a)) -> obeys R Q' (bind m k).
Proof.
  intros Hm Hk env w. unfold bind.
  destruct (Hm env w) as [HR HQ].
  destruct (m env w) as [[a|e] w1]; cbn [fst snd] in *.
  - destruct (Hk a (HQ a eq_refl) env w1) as [HR' HQ'].
    split; [eapply R_trans; eauto | exact HQ'].
  - split; [exact HR | discriminate].
Qed.

Lemma obeys_try_catch {A : Type} (Q : A -> Prop) (m : M A)
  (handler : Error -> M A) :
  obeys R Q m -> (forall e, obeys R Q (handler e)) ->
  obeys R Q (try_catch m handler).
Proof.
  intros Hm Hh env w. unfold try_catch.
  destruct (Hm env w) as [HR HQ].
  destruct (m env w) as [[a|e] w1]; cbn [fst snd] in *.
  - split; [exact HR | exact HQ].
  - destruct (Hh e env w1) as [HR' HQ'].
    split; [eapply R_trans; eauto | exact HQ'].
Qed.

Lemma obeys_weaken {A : Type} (Q Q' : A -> Prop) (m : M A) :
  (forall a, Q a -> Q' a) -> obeys R Q m -> obeys R Q' m.
Proof.
  intros HQ Hm env w. destruct (Hm env w) as [HR H].
  split; [exact HR | auto].
Qed.

Lemma obeys_if {A : Type} (Q : A -> Prop) (c : bool) (m1 m2 : M A) :
  obeys R Q m1 -> obeys R Q m2 -> obeys R Q (if c then m1 else m2).
Proof. destruct c; auto. Qed.

End Obeys.

Section KeepsRow.

Variable key : string.

Lemma keeps_row_refl w : keeps_row key w w.
Proof. split; [reflexivity | lia]. Qed.

Lemma keeps_row_trans w1 w2 w3 :
  keeps_row key w1 w2 -> keeps_row key w2 w3 -> keeps_row key w1 w3.
Proof. intros [E1 L1] [E2 L2]. split; [congruence | lia]. Qed.

Lemma keeps_getBook k : obeys (keeps_row key) (fun _ => True) (getBook k).
Proof.
  intros env w. rewrite getBook_spec. split; [apply keeps_row_refl | auto].
Qed.

Lemma keeps_Date_now : obeys (keeps_row key) (fun _ => True) Date_now.
Proof.
  intros env w. split; [|auto]. split; [reflexivity | cbn; lia].
Qed.

Lemma keeps_cacheFile fileUrl fileType :
  obeys (keeps_row key) (fun _ => True) (cacheFile fileUrl fileType).
Proof.
  intros env w. rewrite cacheFile_spec. split; [|auto].
  destruct (http env fileUrl) as [blob|]; [|apply keeps_row_refl].
  destruct (storable blob); (split; [reflexivity | cbn; lia]).
Qed.

Lemma keeps_saveBook (book : LocalBook) :
  id book <> key -> obeys (keeps_row key) (fun _ => True) (saveBook book).
Proof.
  intros Hne env w. rewrite saveBook_spec. split; [|auto].
  unfold keeps_row, saved, row_of. cbn [snd].
  destruct (sqlite w) as [db|] eqn:E.
  - cbn [sqlite set_sqlite ticks]. rewrite lookup_insert_ne by exact Hne.
    split; [reflexivity | lia].
  - rewrite E. split; [reflexivity | lia].
Qed.

Lemma keeps_processSupabaseBook (book : SupabaseBook) :
  id book <> key ->
  obeys (keeps_row key) (fun _ => True) (processSupabaseBook book).
Proof.
  intros Hne. unfold processSupabaseBook.
  pose proof keeps_row_refl as Rr. pose proof keeps_row_trans as Rt.
  eapply obeys_bind; [assumption | apply keeps_getBook |]. intros localBook _.
  eapply obeys_bind; [assumption | apply keeps_Date_now |]. intros now _.
  eapply (obeys_bind _ Rt (fun nb : LocalBook => id nb = id book)).
  { apply obeys_if.
    - eapply obeys_bind; [assumption | apply keeps_cacheFile |].
      intros path _. apply obeys_ret; [assumption | reflexivity].
    - apply obeys_ret; [assumption | reflexivity]. }
  intros nb1 E1.
  eapply (obeys_bind _ Rt (fun nb : LocalBook => id nb = id book)).
  { apply obeys_if.
    - eapply obeys_bind; [assumption | apply keeps_cacheFile |].
      intros path _. apply obeys_ret; [assumption | exact E1].
    - apply obeys_ret; [assumption | exact E1]. }
  intros nb2 E2.
  eapply (obeys_bind _ Rt (fun nb : LocalBook => id nb = id book)).
  { apply obeys_if.
    - eapply obeys_bind; [assumption | apply keeps_cacheFile |].
      intros path _. apply obeys_ret; [assumption | exact E2].
    - apply obeys_ret; [assumption | exact E2]. }
  intros nb3 E3.
  eapply obeys_bind; [assumption | apply keeps_saveBook; congruence |].
  intros _ _. apply obeys_ret; [assumption | exact I].
Qed.

Lemma keeps_processSupabaseBooks_from processed (books : list SupabaseBook) :
  ~ In key (map id books) ->
  obeys (keeps_row key) (fun _ => True)
    (processSupabaseBooks_from processed books).
Proof.
  pose proof keeps_row_refl as Rr. pose proof keeps_row_trans as Rt.
  revert processed. induction books as [|book rest IH]; intros processed Hn.
  - apply obeys_ret; [assumption | exact I].
  - cbn [processSupabaseBooks_from].
    eapply (obeys_bind _ Rt (fun _ => True)).
    + apply obeys_try_catch; [assumption | |].
      * eapply obeys_bind;
          [assumption | apply keeps_processSupabaseBook |].
        -- intros E. apply Hn. left. exact E.
        -- intros nb _. apply obeys_ret; [assumption | exact I].
      * intros e. apply obeys_ret; [assumption | exact I].
    + intros acc _. apply IH. intros Hin. apply Hn. right. exact Hin.
Qed.

End KeepsRow.

(** ** Merging a remote row *)

Lemma bind_eq {A B : Type} (m : M A) (k : A -> M B) env w :
  bind m k env w =
  match m env w with
  | (Ok a, w') => k a env w'
  | (Throw e, w') => (Throw e, w')
  end.
Proof. reflexivity. Qed.

(** An audio asset is cached when it has to be, and that succeeds when
    the asset can be fetched and the Filesystem takes its text. *)
Lemma cache_audio_if_needed env w (c : bool) (url : option string)
  (k : string -> LocalBook) (nb : LocalBook) :
  implb c (cacheable env url) = true ->
  exists nb' w' evs,
    (if c
     then let* path := cacheFile (default "" url) "audio" in ret (k path)
     else ret nb) env w = (Ok nb', w')
    /\ (nb' = nb \/ exists path, nb' = k path)
    /\ sqlite w' = sqlite w
    /\ trace w' = trace w ++ evs
    /\ Forall is_audio_event evs
    /\ (ticks w <= ticks w')%nat.
Proof.
  intros H. destruct c; cbn [implb] in H.
  - unfold cacheable in H. rewrite bind_eq, cacheFile_spec.
    destruct (http env (default "" url)) as [blob|]; [|discriminate].
    rewrite H.
    eexists _, _, [_]. split; [reflexivity|].
    split; [right; eexists; reflexivity|].
    split; [reflexivity|]. split; [reflexivity|].
    split; [|cbn; lia].
    constructor; [|constructor]. eexists _, _. reflexivity.
  - exists nb, w, []. split; [reflexivity|]. split; [left; reflexivity|].
    split; [reflexivity|]. split; [symmetry; apply app_nil_r|].
    split; [constructor | lia].
Qed.

Lemma processSupabaseBook_cached env w (book : SupabaseBook) (localBook : LocalBook) :
  found (sqlite w) (id book) = Some localBook ->
  truthy (local_content_path localBook) = true ->
  assets_cacheable env book localBook = true ->
  exists (merged : LocalBook) w' evs,
    processSupabaseBook book env w = (Ok merged, w')
    /\ found (sqlite w') (id book) = Some (stored merged)
    /\ base merged = with_synced_with_supabase true book
    /\ is_manual merged = false
    /\ cache_expiry merged = toISOString (clock env (ticks w) + CACHE_DURATION)
    /\ local_content_path merged = local_content_path localBook
    /\ trace w' = trace w ++ evs
    /\ Forall is_audio_event evs
    /\ (ticks w < ticks w')%nat.
Proof.
  intros Hf Hc Hr. unfold processSupabaseBook.
  rewrite bind_eq, getBook_spec, Hf. rewrite bind_eq. unfold Date_now at 1.
  cbn [path_of]. rewrite Hc. cbn [negb].
  rewrite bind_eq. unfold ret at 1.
  unfold assets_cacheable, needs_fetch in Hr.
  apply andb_true_iff in Hr. destruct Hr as [Hn Hp].
  set (nb0 := {| base := with_synced_with_supabase true book;
                 is_manual := false;
                 cache_expiry := toISOString (clock env (ticks w) + CACHE_DURATION);
                 local_content_path := or_null (local_content_path localBook);
                 local_narration_path := or_null (local_narration_path localBook);
                 local_podcast_path := or_null (local_podcast_path localBook) |}).
  assert (P0 : base nb0 = with_synced_with_supabase true book
               /\ is_manual nb0 = false
               /\ cache_expiry nb0 = toISOString (clock env (ticks w) + CACHE_DURATION)
               /\ local_content_path nb0 = local_content_path localBook).
  { repeat split. cbn. unfold or_null. rewrite Hc. reflexivity. }
  pose proof (cache_audio_if_needed env (tick w) _ (narration_url book)
                (fun path => with_local_narration_path (Some path) nb0) nb0 Hn)
    as (nb1 & w1 & evs1 & E1 & V1 & S1 & T1 & A1 & K1).
  cbv beta in E1. rewrite bind_eq, E1.
  assert (P1 : base nb1 = with_synced_with_supabase true book
               /\ is_manual nb1 = false
               /\ cache_expiry nb1 = toISOString (clock env (ticks w) + CACHE_DURATION)
               /\ local_content_path nb1 = local_content_path localBook).
  { destruct V1 as [->|[path ->]]; exact P0. }
  pose proof (cache_audio_if_needed env w1 _ (podcast_url book)
                (fun path => with_local_podcast_path (Some path) nb1) nb1 Hp)
    as (nb2 & w2 & evs2 & E2 & V2 & S2 & T2 & A2 & K2).
  cbv beta in E2. rewrite bind_eq, E2.
  assert (P2 : base nb2 = with_synced_with_supabase true book
               /\ is_manual nb2 = false
               /\ cache_expiry nb2 = toISOString (clock env (ticks w) + CACHE_DURATION)
               /\ local_content_path nb2 = local_content_path localBook).
  { destruct V2 as [->|[path ->]]; exact P1. }
  rewrite bind_eq, saveBook_spec. unfold ret.
  destruct P2 as (B2 & M2 & C2 & L2).
  exists nb2, (saved nb2 w2), (evs1 ++ evs2).
  split; [reflexivity|]. split.
  { replace (id book) with (id nb2) by (rewrite B2; reflexivity).
    apply found_saved. rewrite S2, S1. cbn [sqlite tick].
    eapply found_is_Some, Hf. }
  repeat (split; [assumption|]).
  assert (Tr : trace (saved nb2 w2) = trace w2).
  { unfold saved. destruct (sqlite w2); reflexivity. }
  assert (Ti : ticks (saved nb2 w2) = ticks w2).
  { unfold saved. destruct (sqlite w2); reflexivity. }
  split; [|split].
  - rewrite Tr, T2, T1. cbn [trace tick]. rewrite app_assoc. reflexivity.
  - apply Forall_app. split; assumption.
  - rewrite Ti. cbn [ticks tick] in K1. lia.
Qed.

(** ** The loop over the remote rows *)

Lemma processSupabaseBooks_from_ok processed books env w :
  exists processed' w',
    processSupabaseBooks_from processed books env w = (Ok processed', w').
Proof.
  revert processed w. induction books as [|book rest IH]; intros processed w.
  - eexists _, _. reflexivity.
  - cbn [processSupabaseBooks_from]. rewrite bind_eq. unfold try_catch.
    rewrite bind_eq.
    destruct (processSupabaseBook book env w) as [[nb|e] w1]; apply IH.
Qed.

Lemma processSupabaseBooks_from_app processed pre rest env w :
  processSupabaseBooks_from processed (pre ++ rest) env w =
  match processSupabaseBooks_from processed pre env w with
  | (Ok processed', w') => processSupabaseBooks_from processed' rest env w'
  | (Throw e, w') => (Throw e, w')
  end.
Proof.
  revert processed w. induction pre as [|book pre IH]; intros processed w.
  - reflexivity.
  - cbn [app processSupabaseBooks_from]. rewrite !bind_eq.
    destruct (try_catch _ _ env w) as [[acc|e] w1]; [apply IH | reflexivity].
Qed.

Lemma processSupabaseBooks_from_state processed processed' books env w :
  snd (processSupabaseBooks_from processed books env w)
  = snd (processSupabaseBooks_from processed' books env w).
Proof.
  revert processed processed' w.
  induction books as [|book rest IH]; intros processed processed' w.
  - reflexivity.
  - cbn [processSupabaseBooks_from]. rewrite !bind_eq. unfold try_catch.
    rewrite !bind_eq.
    destruct (processSupabaseBook book env w) as [[nb|e] w1]; apply IH.
Qed.

Lemma fetchBooks_online_spec env w :
  navigator_onLine env = true ->
  error (remote_books env) = None ->
  fetchBooks env w =
  match processSupabaseBooks (default [] (data (remote_books env))) env (tick w) with
  | (Ok processedBooks, w') =>
      (Ok (processedBooks
           ++ List.filter is_manual (validBooks_at (clock env (ticks w)) (sqlite w))),
       w')
  | (Throw e, w') => (Throw e, w')
  end.
Proof.
  intros H He. unfold fetchBooks. rewrite try_rethrow.
  rewrite bind_eq, getBooks_spec. rewrite bind_eq. unfold Date_now at 1.
  rewrite bind_eq. unfold ask at 1. rewrite H. cbn [negb].
  rewrite bind_eq. unfold supabase_select, ask. rewrite He.
  rewrite bool_decide_eq_false_2 by (intros [? ?]; discriminate).
  rewrite bind_eq.
  destruct (processSupabaseBooks _ env (tick w)) as [[acc|e] w']; reflexivity.
Qed.

(** C3, refuted twice on the synced book of [demo_world]. When the
    narration of the remote row cannot be fetched the row is skipped: the
    record keeps its old title and its old expiry. When the local content
    path is the empty string, which is not [null], the content is fetched
    and cached again. *)
Lemma fetchBooks_skips_or_refetches :
  (let unreachable := with_narration_url (Some "https://cdn/down") demo_remote in
   let env := demo_env true (answer [unreachable]) in
   found (sqlite demo_world) "b1" = Some (stored demo_synced)
   /\ local_content_path demo_synced = Some "cache/x"
   /\ found (sqlite (snd (fetchBooks env demo_world))) "b1"
      = Some (stored demo_synced)
   /\ title demo_synced <> title unreachable
   /\ cache_expiry demo_synced
      <> toISOString (clock env 1 + CACHE_DURATION))
  /\
  (let env := demo_env true (answer [demo_remote]) in
   let w := set_sqlite
              (Some (table_of [with_local_content_path (Some "") demo_synced]))
              demo_world in
   (local_content_path <$> found (sqlite w) "b1") = Some (Some "")
   /\ (local_content_path <$> found (sqlite (snd (fetchBooks env w))) "b1")
      = Some (Some "cache/1700000002000_epub")
   /\ trace (snd (fetchBooks env w))
      = [Cached "https://cdn/b1-v2.epub" "epub" "cache/1700000002000_epub"]).
Proof.
  split; cbv zeta.
  - repeat split; try (vm_compute; reflexivity); vm_compute; discriminate.
  - repeat split; vm_compute; reflexivity.
Qed.

(** C3, as the code has it. Online with the catalog fetched and its ids
    distinct, take a remote row whose id has a local record with a
    non-empty [local_content_path], the narration and the podcast of the row
    being such, where they are still to be cached, that the fetch answers
    and the Filesystem takes the text as base64. After [fetchBooks]
    the record persisted under that id keeps that [local_content_path], and
    while the row is merged the only assets cached are audio ones; the
    record has the title, author, content url, cover and progress of the
    remote row, [is_manual = false], [synced_with_supabase = true], and a
    [cache_expiry] seven days after the clock reading taken when the row
    is merged. *)
Theorem fetchBooks_merges_cached_book env w pre (book : SupabaseBook) post
  (localBook : LocalBook) :
  navigator_onLine env = true ->
  remote_books env = answer (pre ++ book :: post) ->
  ~ In (id book) (map id pre) ->
  ~ In (id book) (map id post) ->
  found (sqlite w) (id book) = Some localBook ->
  truthy (local_content_path localBook) = true ->
  assets_cacheable env book localBook = true ->
  exists books w' (merged : LocalBook) evs,
    let w1 := snd (processSupabaseBooks pre env (tick w)) in
    let w2 := snd (processSupabaseBook book env w1) in
    fetchBooks env w = (Ok books, w')
    /\ w' = snd (processSupabaseBooks post env w2)
    /\ found (sqlite w') (id book) = Some merged
    /\ local_content_path merged = local_content_path localBook
    /\ trace w2 = trace w1 ++ evs
    /\ Forall is_audio_event evs
    /\ title merged = title book
    /\ author merged = author book
    /\ content_url merged = content_url book
    /\ cover_image merged = cover_image book
    /\ read_progress merged = read_progress book
    /\ is_manual merged = false
    /\ synced_with_supabase merged = true
    /\ cache_expiry merged = toISOString (clock env (ticks w1) + CACHE_DURATION)
    /\ (ticks w < ticks w1 < ticks w')%nat.
Proof.
  intros Hon Hr Hpre Hpost Hf Hc Ha.
  set (key := id book).
  rewrite fetchBooks_online_spec by (rewrite ?Hr; auto).
  rewrite Hr. cbn [data answer default]. unfold processSupabaseBooks.
  unfold Datatypes.id. rewrite processSupabaseBooks_from_app.
  (* the rows before [book] *)
  destruct (keeps_processSupabaseBooks_from key [] pre Hpre env (tick w))
    as [[Krow Ktick] _].
  destruct (processSupabaseBooks_from_ok [] pre env (tick w)) as (acc1 & w1 & E1).
  rewrite E1 in *. cbn [snd] in *. cbn [ticks tick] in Ktick.
  assert (Hf1 : found (sqlite w1) key = Some localBook).
  { rewrite found_row_of, Krow. rewrite found_row_of in Hf. exact Hf. }
  (* [book] itself *)
  destruct (processSupabaseBook_cached env w1 book localBook Hf1 Hc Ha)
    as (merged & w2 & evs & E2 & F2 & B2 & M2 & C2 & L2 & T2 & A2 & K2).
  cbn [processSupabaseBooks_from]. rewrite !bind_eq. unfold try_catch at 1.
  rewrite bind_eq, E2. unfold ret at 1.
  (* the rows after it *)
  destruct (keeps_processSupabaseBooks_from key (acc1 ++ [merged]) post Hpost env w2)
    as [[Krow3 Ktick3] _].
  destruct (processSupabaseBooks_from_ok (acc1 ++ [merged]) post env w2)
    as (acc3 & w3 & E3).
  rewrite E3 in *. cbn [snd] in *.
  exists (acc3 ++ List.filter is_manual (validBooks_at (clock env (ticks w)) (sqlite w))),
    w3, (stored merged), evs.
  cbv zeta. cbn [snd].
  split; [reflexivity|]. split.
  { rewrite (processSupabaseBooks_from_state [] (acc1 ++ [merged])), E3.
    reflexivity. }
  split.
  { rewrite found_row_of, Krow3, <- found_row_of. exact F2. }
  split; [exact L2|]. split; [exact T2|]. split; [exact A2|].
  change (title (stored merged)) with (title (base merged)).
  change (author (stored merged)) with (author (base merged)).
  change (content_url (stored merged)) with (content_url (base merged)).
  change (cover_image (stored merged)) with (cover_image (base merged)).
  change (read_progress (stored merged)) with (read_progress (base merged)).
  change (synced_with_supabase (stored merged))
    with (synced_with_supabase (base merged)).
  rewrite B2. repeat (split; [reflexivity|]).
  split; [exact M2|]. split; [reflexivity|]. split; [exact C2|]. lia.
Qed.

(** ** The theorems on the sample data *)

Lemma fetchBooks_merges_cached_book_witness :
  let env := demo_env true (answer [demo_remote]) in
  exists merged,
    found (sqlite (snd (fetchBooks env demo_world))) "b1" = Some merged
    /\ local_content_path merged = Some "cache/x"
    /\ title merged = "Remote title"
    /\ content_url merged = "https://cdn/b1-v2.epub"
    /\ is_manual merged = false
    /\ synced_with_supabase merged = true
    /\ cache_expiry merged = "2023-11-21T22:13:21.000Z"
    /\ trace (snd (fetchBooks env demo_world)) = [].
Proof.
  cbv zeta.
  destruct (fetchBooks_merges_cached_book
              (demo_env true (answer [demo_remote])) demo_world
              [] demo_remote [] (stored demo_synced))
    as (books & w' & merged & evs & E & _ & F & L & _ & _ & T & _ & C & _ & _
        & M & S & X & _).
  - reflexivity.
  - reflexivity.
  - intros H. exact H.
  - intros H. exact H.
  - reflexivity.
  - reflexivity.
  - reflexivity.
  - rewrite E. cbn [snd]. exists merged.
    split; [exact F|]. split; [exact L|]. split; [exact T|]. split; [exact C|].
    split; [exact M|]. split; [exact S|]. split; [exact X|].
    pose proof (f_equal (fun r => trace (snd r)) E) as Tr. cbn [snd] in Tr.
    rewrite <- Tr. vm_compute. reflexivity.
Defined.

Lemma fetchBooks_offline_witness :
  let env := demo_env_at 1700608400000 false failure in
  exists books w',
    fetchBooks env demo_world = (Ok books, w')
    /\ books = [stored demo_manual]
    /\ sqlite w' = sqlite demo_world.
Proof.
  cbv zeta.
  destruct (fetchBooks_offline (demo_env_at 1700608400000 false failure)
              demo_world eq_refl)
    as (books & w' & E & Eb & _ & S & _).
  exists books, w'. split; [exact E|]. split; [|exact S].
  rewrite Eb. vm_compute. reflexivity.
Defined.

Lemma getBooks_after_upserts_witness :
  let w := set_sqlite (Some ∅) blank in
  let books := [demo_synced; demo_manual;
                with_base (with_read_progress 42 demo_synced) demo_synced] in
  exists w' listing,
    saveBooks books (demo_env true failure) w = (Ok tt, w')
    /\ getBooks (demo_env true failure) w' = (Ok listing, w')
    /\ NoDup (ids listing).
Proof.
  cbv zeta.
  destruct (getBooks_after_upserts (demo_env true failure)
              (set_sqlite (Some ∅) blank)
              [demo_synced; demo_manual;
               with_base (with_read_progress 42 demo_synced) demo_synced]
              eq_refl)
    as (w' & listing & E1 & E2 & N & _).
  exists w', listing. split; [exact E1|]. split; [exact E2 | exact N].
Defined.

Lemma updateBookProgress_local_first_witness :
  let env := demo_env false failure in
  exists w',
    updateBookProgress "b1" 42 env demo_world = (Ok tt, w')
    /\ ((fun b : LocalBook => read_progress b) <$> found (sqlite w') "b1") = Some 42
    /\ files w' = files demo_world.
Proof.
  cbv zeta.
  destruct (updateBookProgress_local_first (demo_env false failure) demo_world
              "b1" 42 (stored demo_synced) eq_refl)
    as (w' & E & (after & F & P & _) & _ & Fi).
  exists w'. split; [exact E|]. split; [|exact Fi].
  rewrite F. cbn. rewrite P. reflexivity.
Defined.

(** ** The scenarios of the design document, evaluated *)

Example offline_scenario :
  fst (fetchBooks (demo_env_at 1700608400000 false failure) demo_world)
  = Ok [stored demo_manual].
Proof. vm_compute. reflexivity. Qed.

Example progress_scenario :
  let r := updateBookProgress "b1" 42 (demo_env false failure) demo_world in
  fst r = Ok tt
  /\ ((fun b : LocalBook => read_progress b) <$> found (sqlite (snd r)) "b1") = Some 42
  /\ trace (snd r) = [].
Proof. vm_compute. repeat split. Qed.

Example progress_remote_failure :
  let r := updateBookProgress "b1" 42 (demo_env true failure) demo_world in
  fst r = Ok tt
  /\ ((fun b : LocalBook => read_progress b) <$> found (sqlite (snd r)) "b1") = Some 42
  /\ trace (snd r) = [RemoteUpdated "b1" 42].
Proof. vm_compute. repeat split. Qed.

(** * Further properties of the code *)

(** ** The Record Store and the Blob Cache, operation by operation *)

Lemma world_eta w :
  {| sqlite := sqlite w; files := files w; ticks := ticks w; trace := trace w |} = w.
Proof. destruct w; reflexivity. Qed.

Lemma saveBook_getBook_helper env w book db :
  sqlite w = Some db ->
  saveBook book env w = (Ok tt, saved book w)
  /\ getBook (id book) env (saved book w) = (Ok (Some (stored book)), saved book w)
  /\ (forall key, key <> id book -> row_of (saved book w) key = row_of w key)
  /\ files (saved book w) = files w.
Proof.
  intros E. split; [apply saveBook_spec|]. split.
  - rewrite getBook_spec, found_saved by (rewrite E; eauto). reflexivity.
  - unfold saved, row_of. rewrite E. cbn [sqlite set_sqlite files]. split.
    + intros key Hne. apply lookup_insert_ne. congruence.
    + reflexivity.
Qed.

(** X1. With a database, [saveBook] returns normally and a following
    [getBook] of the book's id gives the book as the table holds it (all
    columns, no [is_crafted]); every other id reads as it did before, and no
    cached file is touched. *)
Theorem saveBook_then_getBook env w book db :
  sqlite w = Some db ->
  exists w',
    saveBook book env w = (Ok tt, w')
    /\ getBook (id book) env w' = (Ok (Some (stored book)), w')
    /\ (forall key, key <> id book -> getBook key env w' = (Ok (found (sqlite w) key), w'))
    /\ files w' = files w.
Proof.
  intros E. destruct (saveBook_getBook_helper env w book db E) as (S & G & O & F).
  exists (saved book w). split; [exact S|]. split; [exact G|]. split; [|exact F].
  intros key Hne. rewrite getBook_spec, !found_row_of, (O key Hne). reflexivity.
Qed.

Lemma saveBook_then_getBook_witness :
  exists w',
    saveBook demo_synced (demo_env true failure) (set_sqlite (Some ∅) blank)
      = (Ok tt, w')
    /\ getBook "b1" (demo_env true failure) w' = (Ok (Some (stored demo_synced)), w').
Proof.
  destruct (saveBook_then_getBook (demo_env true failure)
              (set_sqlite (Some ∅) blank) demo_synced ∅ eq_refl)
    as (w' & S & G & _).
  exists w'. split; [exact S | exact G].
Defined.

(** X2. Without a database (the initialisation failed and [this.sqlite] is
    null) [saveBook] and [deleteBook] return normally and change nothing,
    [getBook] gives null and [getBooks] the empty list: a book that was
    saved cannot be read back. *)
Theorem no_database_no_effect env w (book : LocalBook) key :
  sqlite w = None ->
  saveBook book env w = (Ok tt, w)
  /\ deleteBook key env w = (Ok tt, w)
  /\ getBook key env w = (Ok None, w)
  /\ getBooks env w = (Ok [], w)
  /\ getBook (id book) env (snd (saveBook book env w)) = (Ok None, w).
Proof.
  intros E.
  assert (S : saveBook book env w = (Ok tt, w)).
  { rewrite saveBook_spec. unfold saved. rewrite E. reflexivity. }
  split; [exact S|]. split.
  { rewrite deleteBook_spec, E. reflexivity. }
  split.
  { rewrite getBook_spec, E. reflexivity. }
  split.
  { rewrite getBooks_spec, E. reflexivity. }
  rewrite S. cbn [snd]. rewrite getBook_spec, E. reflexivity.
Qed.

Lemma no_database_no_effect_witness :
  saveBook demo_manual (demo_env true failure) blank = (Ok tt, blank)
  /\ getBooks (demo_env true failure) blank = (Ok [], blank).
Proof.
  destruct (no_database_no_effect (demo_env true failure) blank demo_manual "b1"
              eq_refl) as (S & _ & _ & L & _).
  split; [exact S | exact L].
Defined.

(** X3. [deleteBook] never throws; afterwards the id has no row, while every
    other row, every cached file and the calls made to the outside are as
    before; for an id without a row nothing changes at all. *)
Theorem deleteBook_removes_only_the_row env w key :
  exists w',
    deleteBook key env w = (Ok tt, w')
    /\ getBook key env w' = (Ok None, w')
    /\ (forall other, other <> key -> row_of w' other = row_of w other)
    /\ files w' = files w
    /\ trace w' = trace w
    /\ (row_of w key = None -> w' = w).
Proof.
  rewrite deleteBook_spec. eexists. split; [reflexivity|].
  rewrite getBook_spec. unfold found, row_of.
  destruct (sqlite w) as [db|] eqn:E; cbn [sqlite set_sqlite files trace].
  - rewrite lookup_delete_eq. split; [reflexivity|]. split.
    + intros other Hne. apply lookup_delete_ne. congruence.
    + split; [reflexivity|]. split; [reflexivity|].
      intros Hn. rewrite delete_id by exact Hn. unfold set_sqlite.
      rewrite <- E. apply world_eta.
  - rewrite E. repeat split; reflexivity.
Qed.

Lemma delete_each_spec paths env w :
  exists w',
    delete_each paths env w = (Ok tt, w')
    /\ sqlite w' = sqlite w
    /\ ticks w' = ticks w
    /\ (forall p, In p paths -> files w' !! p = None)
    /\ (forall p, ~ In p paths -> files w' !! p = files w !! p).
Proof.
  revert w. induction paths as [|path rest IH]; intros w.
  - exists w. repeat split; auto. intros p [].
  - cbn [delete_each]. rewrite bind_eq. unfold try_catch, Filesystem_deleteFile.
    destruct (files w !! path) as [d|] eqn:E.
    + destruct (IH (emit (Deleted path) (set_files (delete path (files w)) w)))
        as (w' & R & S & T & Hin & Hout).
      exists w'. split; [exact R|]. split; [exact S|]. split; [exact T|]. split.
      * intros p [<-|Hp]; [|apply Hin, Hp].
        destruct (in_dec String.string_dec path rest) as [Hr|Hr]; [apply Hin, Hr|].
        rewrite (Hout path Hr). cbn [files emit set_files]. apply lookup_delete_eq.
      * intros p Hp. rewrite Hout by (intros H; apply Hp; right; exact H).
        cbn [files emit set_files]. apply lookup_delete_ne.
        intros ->. apply Hp. left. reflexivity.
    + unfold ret. destruct (IH w) as (w' & R & S & T & Hin & Hout).
      exists w'. split; [exact R|]. split; [exact S|]. split; [exact T|]. split.
      * intros p [<-|Hp]; [|apply Hin, Hp].
        destruct (in_dec String.string_dec path rest) as [Hr|Hr]; [apply Hin, Hr|].
        rewrite (Hout path Hr). exact E.
      * intros p Hp. apply Hout. intros H. apply Hp. right. exact H.
Qed.

(** The paths of the assets of a book that are not [null]. *)
Lemma In_filesToDelete (book : LocalBook) p :
  In p (omap (fun path => path)
          [local_content_path book; local_narration_path book;
           local_podcast_path book])
  <-> local_content_path book = Some p
      \/ local_narration_path book = Some p
      \/ local_podcast_path book = Some p.
Proof.
  destruct (local_content_path book) as [a|], (local_narration_path book) as [b|],
    (local_podcast_path book) as [c|]; cbn; intuition congruence.
Qed.

(** X4. [deleteBookFiles] never throws, also when a file is missing;
    afterwards none of the book's local content, narration and podcast paths
    holds a file, every other file is as before and the database is
    unchanged. *)
Theorem deleteBookFiles_clears_the_assets env w (book : LocalBook) :
  exists w',
    deleteBookFiles book env w = (Ok tt, w')
    /\ (forall p,
          local_content_path book = Some p
          \/ local_narration_path book = Some p
          \/ local_podcast_path book = Some p ->
          files w' !! p = None)
    /\ (forall p,
          local_content_path book <> Some p ->
          local_narration_path book <> Some p ->
          local_podcast_path book <> Some p ->
          files w' !! p = files w !! p)
    /\ sqlite w' = sqlite w.
Proof.
  unfold deleteBookFiles.
  destruct (delete_each_spec
              (omap (fun path => path)
                 [local_content_path book; local_narration_path book;
                  local_podcast_path book]) env w)
    as (w' & R & S & _ & Hin & Hout).
  exists w'. split; [exact R|]. split; [|split; [|exact S]].
  - intros p H. apply Hin, In_filesToDelete, H.
  - intros p H1 H2 H3. apply Hout. rewrite In_filesToDelete. tauto.
Qed.

(** ** Generated paths *)

Lemma length_append (a b : string) :
  String.length (a +:+ b) = (String.length a + String.length b)%nat.
Proof.
  induction a as [|x a IH]; [reflexivity|].
  rewrite append_cons. cbn [String.length]. rewrite IH. reflexivity.
Qed.

Lemma append_cancel_r (a b c : string) : a +:+ c = b +:+ c -> a = b.
Proof.
  revert b. induction a as [|x a IH]; intros [|y b] H.
  - reflexivity.
  - apply (f_equal String.length) in H. rewrite append_nil, length_append in H.
    cbn [String.length] in H. lia.
  - apply (f_equal String.length) in H. rewrite append_nil, length_append in H.
    cbn [String.length] in H. lia.
  - rewrite !append_cons in H. injection H as -> H. f_equal. apply IH, H.
Qed.

Lemma decimal_inj m n : decimal m = decimal n -> m = n.
Proof.
  unfold decimal. intros H.
  assert (N : forall z, NilZero.int_of_string (NilZero.string_of_int (Z.to_int z))
                       = Some (Z.to_int z)).
  { intros z. apply NilZero.isi; destruct z as [|p|p]; cbn; try discriminate;
      intros [= E]; exact (Unsigned.to_uint_nonnil p E). }
  apply DecimalZ.to_int_inj.
  apply (f_equal NilZero.int_of_string) in H. rewrite !N in H. congruence.
Qed.

Lemma cache_path_inj m n fileType :
  cache_path m fileType = cache_path n fileType -> m = n.
Proof.
  unfold cache_path. intros H.
  apply (String.app_inj "cache/") in H.
  rewrite <- !append_assoc in H. apply append_cancel_r in H.
  apply append_cancel_r in H. apply decimal_inj, H.
Qed.

(** A generated path is not the empty string. *)
Lemma cache_path_nonempty now fileType : nonempty (cache_path now fileType) = true.
Proof. reflexivity. Qed.

Lemma files_cached fileUrl fileType blob env w p :
  files (cached fileUrl fileType blob env w) !! p
  = if decide (cache_path (clock env (ticks w)) fileType = p)
    then Some (DataString (stored_text blob))
    else files w !! p.
Proof. unfold cached. cbn [files emit set_files tick]. apply lookup_insert. Qed.

Lemma cacheFile_twice_helper env w u1 u2 fileType b1 b2 :
  http env u1 = Some b1 ->
  http env u2 = Some b2 ->
  includes (blob_type b1) "base64," = false ->
  includes (blob_type b2) "base64," = false ->
  let p1 := cache_path (clock env (ticks w)) fileType in
  let p2 := cache_path (clock env (S (ticks w))) fileType in
  let w1 := cached u1 fileType b1 env w in
  let w2 := cached u2 fileType b2 env w1 in
  cacheFile u1 fileType env w = (Ok p1, w1)
  /\ cacheFile u2 fileType env w1 = (Ok p2, w2)
  /\ files w2 !! p2 = Some (DataString (base64Content (readAsDataURL b2)))
  /\ (p1 <> p2 ->
      files w2 !! p1 = Some (DataString (base64Content (readAsDataURL b1)))).
Proof.
  intros H1 H2 T1 T2. cbv zeta.
  rewrite (cacheFile_plain _ _ _ _ _ H1 T1), (cacheFile_plain _ _ _ _ _ H2 T2).
  split; [reflexivity|]. split; [reflexivity|].
  rewrite !files_cached. cbn [ticks cached emit set_files tick].
  rewrite !stored_text_plain, !base64Content_readAsDataURL by assumption.
  rewrite decide_True by reflexivity. split; [reflexivity|].
  intros Hne. rewrite decide_False by (intros E; apply Hne; symmetry; exact E).
  rewrite decide_True by reflexivity. reflexivity.
Qed.

(** X5. Two [cacheFile] calls with the same file type whose readings of
    [Date.now()] are equal return the same path; the second replaces what
    the first stored, and reading the path gives the bytes of the second
    file; for media types without the text [base64,]. *)
Theorem cacheFile_same_instant_overwrites env w u1 u2 fileType b1 b2 :
  http env u1 = Some b1 ->
  http env u2 = Some b2 ->
  includes (blob_type b1) "base64," = false ->
  includes (blob_type b2) "base64," = false ->
  clock env (ticks w) = clock env (S (ticks w)) ->
  exists path w1 w2,
    cacheFile u1 fileType env w = (Ok path, w1)
    /\ cacheFile u2 fileType env w1 = (Ok path, w2)
    /\ files w2 !! path = Some (DataString (base64Content (readAsDataURL b2)))
    /\ exists blob, readCachedFile path env w2 = (Ok blob, w2)
                    /\ blob_bytes blob = blob_bytes b2.
Proof.
  intros H1 H2 T1 T2 Hc.
  destruct (cacheFile_twice_helper env w u1 u2 fileType b1 b2 H1 H2 T1 T2)
    as (E1 & E2 & F2 & _).
  rewrite <- Hc in E2, F2.
  eexists _, _, _. split; [exact E1|]. split; [exact E2|]. split; [exact F2|].
  rewrite base64Content_readAsDataURL in F2 by exact T2.
  rewrite (readCachedFile_encoded _ _ _ _ F2).
  eexists. split; reflexivity.
Qed.

(** X6. Two [cacheFile] calls whose readings of [Date.now()] differ return
    different paths, and afterwards each path holds what its own call
    stored; for media types without the text [base64,]. *)
Theorem cacheFile_distinct_instants_keep_both env w u1 u2 fileType b1 b2 :
  http env u1 = Some b1 ->
  http env u2 = Some b2 ->
  includes (blob_type b1) "base64," = false ->
  includes (blob_type b2) "base64," = false ->
  clock env (ticks w) <> clock env (S (ticks w)) ->
  exists p1 p2 w1 w2,
    cacheFile u1 fileType env w = (Ok p1, w1)
    /\ cacheFile u2 fileType env w1 = (Ok p2, w2)
    /\ p1 <> p2
    /\ files w2 !! p1 = Some (DataString (base64Content (readAsDataURL b1)))
    /\ files w2 !! p2 = Some (DataString (base64Content (readAsDataURL b2))).
Proof.
  intros H1 H2 T1 T2 Hc.
  destruct (cacheFile_twice_helper env w u1 u2 fileType b1 b2 H1 H2 T1 T2)
    as (E1 & E2 & F2 & F1).
  assert (Hne : cache_path (clock env (ticks w)) fileType
                <> cache_path (clock env (S (ticks w))) fileType).
  { intros E. apply Hc. eapply cache_path_inj, E. }
  eexists _, _, _, _. split; [exact E1|]. split; [exact E2|].
  split; [exact Hne|]. split; [exact (F1 Hne) | exact F2].
Qed.

Lemma cacheFile_same_instant_overwrites_witness :
  exists path w1 w2,
    cacheFile "https://cdn/n.mp3" "audio" (frozen (demo_env true failure)) demo_world
      = (Ok path, w1)
    /\ cacheFile "https://cdn/p.mp3" "audio" (frozen (demo_env true failure)) w1
       = (Ok path, w2).
Proof.
  destruct (cacheFile_same_instant_overwrites (frozen (demo_env true failure))
              demo_world "https://cdn/n.mp3" "https://cdn/p.mp3" "audio"
              demo_blob demo_blob eq_refl eq_refl eq_refl eq_refl eq_refl)
    as (path & w1 & w2 & E1 & E2 & _).
  exists path, w1, w2. split; [exact E1 | exact E2].
Defined.

Lemma cacheFile_distinct_instants_keep_both_witness :
  exists p1 p2 w1 w2,
    cacheFile "https://cdn/n.mp3" "audio" (demo_env true failure) demo_world
      = (Ok p1, w1)
    /\ cacheFile "https://cdn/p.mp3" "audio" (demo_env true failure) w1
       = (Ok p2, w2)
    /\ p1 <> p2.
Proof.
  destruct (cacheFile_distinct_instants_keep_both (demo_env true failure)
              demo_world "https://cdn/n.mp3" "https://cdn/p.mp3" "audio"
              demo_blob demo_blob eq_refl eq_refl eq_refl eq_refl)
    as (p1 & p2 & w1 & w2 & E1 & E2 & Hne & _).
  - vm_compute. discriminate.
  - exists p1, p2, w1, w2. split; [exact E1|]. split; [exact E2 | exact Hne].
Defined.

Lemma readCachedFile_cases path env w :
  readCachedFile path env w =
  match files w !! path with
  | None => (Throw {| message := "File does not exist." |}, w)
  | Some (DataBlob blob) => (Ok blob, w)
  | Some (DataString text) =>
      match forgiving_base64_decode (data_url_body text) with
      | Some bs =>
          (Ok {| blob_bytes := bs; blob_type := "application/epub+zip" |}, w)
      | None => (Throw {| message := "Failed to fetch" |}, w)
      end
  end.
Proof.
  unfold readCachedFile. rewrite try_rethrow, bind_eq. unfold Filesystem_readFile.
  destruct (files w !! path) as [[text|blob]|]; try reflexivity.
  unfold fetch_epub_data_url.
  destruct (forgiving_base64_decode (data_url_body text)); reflexivity.
Qed.

(** X7. [readCachedFile] changes nothing; it yields a blob exactly when the
    path holds a file whose data is a Blob, or a string that the fetch of
    its [data:] URL decodes as base64 (padding and whitespace are not
    required there), and throws otherwise. A string that the Filesystem
    takes as base64 is always read, as the bytes it encodes. *)
Theorem readCachedFile_succeeds_iff path env w :
  snd (readCachedFile path env w) = w
  /\ ((exists blob, fst (readCachedFile path env w) = Ok blob)
      <-> exists d, files w !! path = Some d /\ readable d = true)
  /\ (forall text,
        files w !! path = Some (DataString text) ->
        isBase64String text = true ->
        exists bs,
          text = b64_encode bs
          /\ fst (readCachedFile path env w)
             = Ok {| blob_bytes := bs; blob_type := "application/epub+zip" |}).
Proof.
  split; [|split].
  - rewrite readCachedFile_cases.
    destruct (files w !! path) as [[text|blob]|]; try reflexivity.
    destruct (forgiving_base64_decode (data_url_body text)); reflexivity.
  - rewrite readCachedFile_cases.
    destruct (files w !! path) as [[text|blob]|] eqn:F; cbn [fst snd].
    + destruct (forgiving_base64_decode (data_url_body text)) as [bs|] eqn:D;
        cbn [fst snd].
      * split; [|eauto].
        intros _. eexists. split; [reflexivity|].
        cbn [readable]. rewrite D. reflexivity.
      * split.
        -- intros [? ?]. discriminate.
        -- intros (d & [= <-] & R). cbn [readable] in R. rewrite D in R.
           discriminate.
    + split; eauto.
    + split.
      * intros [? ?]. discriminate.
      * intros (d & ? & _). discriminate.
  - intros text F B. destruct (isBase64String_inv text B) as (bs & -> & _).
    exists bs. split; [reflexivity|].
    rewrite (readCachedFile_encoded _ _ _ _ F). reflexivity.
Qed.

(** A file without padding is read, though the Filesystem would not have
    stored it. *)
Example readCachedFile_without_padding :
  let w := set_files (<["cache/x" := DataString "TWE"]> ∅) blank in
  readCachedFile "cache/x" (demo_env true failure) w
  = (Ok {| blob_bytes := [Byte.x4d; Byte.x61];
           blob_type := "application/epub+zip" |}, w)
  /\ isBase64String "TWE" = false.
Proof.
  cbv zeta. split; [|reflexivity].
  rewrite (readCachedFile_string _ "TWE") by reflexivity. reflexivity.
Qed.

(** X8. What [cacheFile] stores under the path it returns, [readCachedFile]
    reads back with the bytes that were fetched, typed application/epub+zip
    whatever the media type of the response was; for a media type without
    the text [base64,]. *)
Theorem cacheFile_then_readCachedFile env w fileUrl fileType blob :
  http env fileUrl = Some blob ->
  includes (blob_type blob) "base64," = false ->
  exists path w1 blob',
    cacheFile fileUrl fileType env w = (Ok path, w1)
    /\ readCachedFile path env w1 = (Ok blob', w1)
    /\ blob_bytes blob' = blob_bytes blob
    /\ blob_type blob' = "application/epub+zip".
Proof.
  intros Hf Ht. rewrite (cacheFile_plain _ _ _ _ _ Hf Ht). eexists _, _, _.
  split; [reflexivity|].
  rewrite (readCachedFile_encoded _ (blob_bytes blob)); [repeat split|].
  rewrite files_cached, decide_True by reflexivity.
  rewrite stored_text_plain by exact Ht. reflexivity.
Qed.

Lemma cacheFile_then_readCachedFile_witness :
  exists path w1 blob',
    cacheFile "https://cdn/b1.epub" "epub" (demo_env true failure) demo_world
      = (Ok path, w1)
    /\ readCachedFile path (demo_env true failure) w1 = (Ok blob', w1)
    /\ blob_bytes blob' = blob_bytes demo_blob.
Proof.
  destruct (cacheFile_then_readCachedFile (demo_env true failure) demo_world
              "https://cdn/b1.epub" "epub" demo_blob eq_refl eq_refl)
    as (path & w1 & blob' & E1 & E2 & B & _).
  exists path, w1, blob'. split; [exact E1|]. split; [exact E2 | exact B].
Defined.

(** ** Progress updates *)

(** X9. [updateBookProgress] never throws; it sends exactly one remote
    update when the book is found, is synced and the browser is online, and
    none otherwise; it touches no cached file, and for an id without a
    record it changes nothing. *)
Theorem updateBookProgress_remote_calls env w bookId progress :
  let localBook := found (sqlite w) bookId in
  let w' := snd (updateBookProgress bookId progress env w) in
  fst (updateBookProgress bookId progress env w) = Ok tt
  /\ trace w'
     = trace w ++ (if remote_due env localBook
                   then [RemoteUpdated bookId progress] else [])
  /\ files w' = files w
  /\ (localBook = None -> w' = w).
Proof.
  cbv zeta. rewrite updateBookProgress_spec.
  destruct (found (sqlite w) bookId) as [book|] eqn:F; cbn [remote_due fst snd].
  - split; [reflexivity|].
    assert (T : trace (saved (progressed progress (clock env (ticks w)) book) (tick w))
                = trace w).
    { unfold saved. cbn [sqlite tick]. destruct (sqlite w); reflexivity. }
    assert (Fi : files (saved (progressed progress (clock env (ticks w)) book) (tick w))
                 = files w).
    { unfold saved. cbn [sqlite tick]. destruct (sqlite w); reflexivity. }
    destruct (synced_with_supabase book && navigator_onLine env);
      cbn [trace emit files]; rewrite T, Fi.
    + split; [reflexivity|]. split; [reflexivity | discriminate].
    + rewrite app_nil_r. split; [reflexivity|]. split; [reflexivity | discriminate].
  - rewrite app_nil_r. repeat split; reflexivity.
Qed.

(** ** Frames of the merge *)

Section Frame.

Variable R : World -> World -> Prop.
Variable P : string -> Prop.
Hypothesis R_refl : forall w, R w w.
Hypothesis R_trans : forall w1 w2 w3, R w1 w2 -> R w2 w3 -> R w1 w3.
Hypothesis R_tick : forall w, R w (tick w).
Hypothesis R_cached :
  forall fileUrl fileType blob env w, R w (cached fileUrl fileType blob env w).
Hypothesis R_saved : forall (book : LocalBook) w, P (id book) -> R w (saved book w).

Lemma frame_getBook key : obeys R (fun _ => True) (getBook key).
Proof. intros env w. rewrite getBook_spec. split; [apply R_refl | auto]. Qed.

Lemma frame_getBooks : obeys R (fun _ => True) getBooks.
Proof. intros env w. rewrite getBooks_spec. split; [apply R_refl | auto]. Qed.

Lemma frame_Date_now : obeys R (fun _ => True) Date_now.
Proof. intros env w. split; [apply R_tick | auto]. Qed.

Lemma frame_cacheFile fileUrl fileType :
  obeys R (fun path => nonempty path = true) (cacheFile fileUrl fileType).
Proof.
  intros env w. rewrite cacheFile_spec.
  destruct (http env fileUrl) as [blob|]; cbn [fst snd].
  - destruct (storable blob); cbn [fst snd].
    + split; [apply R_cached|]. intros a [= <-]. reflexivity.
    + split; [apply R_tick | discriminate].
  - split; [apply R_refl | discriminate].
Qed.

Lemma frame_saveBook (book : LocalBook) :
  P (id book) -> obeys R (fun _ => True) (saveBook book).
Proof.
  intros H env w. rewrite saveBook_spec. split; [apply R_saved, H | auto].
Qed.

(** One of the three conditional caching steps. *)
Lemma frame_cache_step (Q : LocalBook -> Prop) (c : bool) fileUrl fileType
  (k : string -> LocalBook) (nb : LocalBook) :
  (c = false -> Q nb) ->
  (forall path, nonempty path = true -> Q (k path)) ->
  obeys R Q
    (if c then let* path := cacheFile fileUrl fileType in ret (k path) else ret nb).
Proof.
  intros Hnb Hk. destruct c.
  - eapply obeys_bind; [exact R_trans | apply frame_cacheFile |].
    intros path Hp. apply obeys_ret; [exact R_refl | apply Hk, Hp].
  - apply obeys_ret; [exact R_refl | apply Hnb; reflexivity].
Qed.

Lemma frame_processSupabaseBook (book : SupabaseBook) :
  P (id book) -> obeys R (merged_from book) (processSupabaseBook book).
Proof.
  intros HP. unfold processSupabaseBook.
  eapply obeys_bind; [exact R_trans | apply frame_getBook |]. intros localBook _.
  eapply obeys_bind; [exact R_trans | apply frame_Date_now |]. intros now _.
  eapply (obeys_bind _ R_trans (merged_from book)).
  { apply frame_cache_step.
    - intros Hc. apply negb_false_iff in Hc.
      repeat split. cbn [local_content_path]. unfold or_null. rewrite Hc. exact Hc.
    - intros path Hp. repeat split. exact Hp. }
  intros nb1 Q1.
  eapply (obeys_bind _ R_trans (merged_from book)).
  { apply frame_cache_step; [intros _; exact Q1|].
    intros path _. exact Q1. }
  intros nb2 Q2.
  eapply (obeys_bind _ R_trans (merged_from book)).
  { apply frame_cache_step; [intros _; exact Q2|].
    intros path _. exact Q2. }
  intros nb3 Q3.
  eapply obeys_bind; [exact R_trans | apply frame_saveBook |].
  - destruct Q3 as [-> _]. exact HP.
  - intros _ _. apply obeys_ret; [exact R_refl | exact Q3].
Qed.

Lemma frame_processSupabaseBooks_from (catalog : list SupabaseBook)
  processed (books : list SupabaseBook) :
  (forall book, In book books -> In book catalog /\ P (id book)) ->
  Forall (fun nb => exists book, In book catalog /\ merged_from book nb) processed ->
  obeys R (Forall (fun nb => exists book, In book catalog /\ merged_from book nb))
    (processSupabaseBooks_from processed books).
Proof.
  revert processed. induction books as [|book rest IH]; intros processed Hb Hp.
  - apply obeys_ret; [exact R_refl | exact Hp].
  - cbn [processSupabaseBooks_from].
    eapply obeys_bind; [exact R_trans | |].
    + apply obeys_try_catch; [exact R_trans | |].
      * eapply obeys_bind;
          [exact R_trans | apply frame_processSupabaseBook, Hb; left; reflexivity |].
        intros nb Hnb. apply obeys_ret; [exact R_refl|].
        apply Forall_app. split; [exact Hp|].
        constructor; [|constructor]. exists book. split; [|exact Hnb].
        apply Hb. left. reflexivity.
      * intros e. apply obeys_ret; [exact R_refl | exact Hp].
    + intros acc Hacc. apply IH; [|exact Hacc].
      intros b Hin. apply Hb. right. exact Hin.
Qed.

End Frame.

(** ** What [fetchBooks] leaves in place *)

Lemma grows_refl w : grows w w.
Proof.
  split; [auto|]. split; [auto|]. split; [lia|]. exists []. symmetry. apply app_nil_r.
Qed.

Lemma grows_trans w1 w2 w3 : grows w1 w2 -> grows w2 w3 -> grows w1 w3.
Proof.
  intros (A1 & B1 & C1 & evs1 & D1) (A2 & B2 & C2 & evs2 & D2).
  split; [auto|]. split; [auto|]. split; [lia|].
  exists (evs1 ++ evs2). rewrite D2, D1, app_assoc. reflexivity.
Qed.

Lemma grows_tick w : grows w (tick w).
Proof.
  split; [auto|]. split; [auto|]. split; [cbn; lia|].
  exists []. symmetry. apply app_nil_r.
Qed.

Lemma grows_cached fileUrl fileType blob env w :
  grows w (cached fileUrl fileType blob env w).
Proof.
  split; [auto|]. split; [|split; [cbn; lia | eexists; reflexivity]].
  intros path H. rewrite files_cached. case_decide; eauto.
Qed.

Lemma grows_saved (book : LocalBook) w : True -> grows w (saved book w).
Proof.
  intros _. unfold saved, grows, row_of.
  destruct (sqlite w) as [db|] eqn:E; cbn [sqlite set_sqlite files ticks trace].
  - split.
    + intros key H. rewrite lookup_insert. case_decide; eauto.
    + split; [auto|]. split; [lia|]. exists []. symmetry. apply app_nil_r.
  - rewrite E. split; [auto|]. split; [auto|]. split; [lia|].
    exists []. symmetry. apply app_nil_r.
Qed.

Lemma same_database_trans w1 w2 w3 :
  same_database w1 w2 -> same_database w2 w3 -> same_database w1 w3.
Proof. unfold same_database. congruence. Qed.

Lemma fails_clean_bind {A B : Type} (Q : A -> Prop) (m : M A) (k : A -> M B) :
  obeys same_database Q m ->
  (forall a, Q a -> fails_clean (k a)) ->
  fails_clean (bind m k).
Proof.
  intros Hm Hk env w e w' E. rewrite bind_eq in E.
  destruct (Hm env w) as [HR HQ].
  destruct (m env w) as [[a|e1] w1]; cbn [fst snd] in *.
  - rewrite (Hk a (HQ a eq_refl) env w1 e w' E). exact HR.
  - injection E as _ <-. exact HR.
Qed.

Lemma fails_clean_processSupabaseBook (book : SupabaseBook) :
  fails_clean (processSupabaseBook book).
Proof.
  pose proof (fun w => eq_refl : same_database w w) as Rr.
  pose proof same_database_trans as Rt.
  pose proof (fun w => eq_refl : same_database w (tick w)) as Rk.
  pose proof (fun u t b env w => eq_refl : same_database w (cached u t b env w)) as Rc.
  unfold processSupabaseBook.
  eapply fails_clean_bind; [apply frame_getBook; assumption|]. intros localBook _.
  eapply fails_clean_bind; [apply frame_Date_now; assumption|]. intros now _.
  eapply (fails_clean_bind (fun _ => True)).
  { apply frame_cache_step; auto. }
  intros nb1 _.
  eapply (fails_clean_bind (fun _ => True)).
  { apply frame_cache_step; auto. }
  intros nb2 _.
  eapply (fails_clean_bind (fun _ => True)).
  { apply frame_cache_step; auto. }
  intros nb3 _ env w e w' E.
  rewrite bind_eq, saveBook_spec in E. discriminate E.
Qed.

(** X10. When the merge of a catalog row throws (a file of it cannot be
    fetched), the database is what it was before the row, and
    [processSupabaseBooks] goes on with the rows that remain, the failed row
    left out of its result. *)
Theorem failed_merge_keeps_the_database env w (book : SupabaseBook) e
  processed rest :
  fst (processSupabaseBook book env w) = Throw e ->
  sqlite (snd (processSupabaseBook book env w)) = sqlite w
  /\ processSupabaseBooks_from processed (book :: rest) env w
     = processSupabaseBooks_from processed rest env
         (snd (processSupabaseBook book env w)).
Proof.
  intros H. destruct (processSupabaseBook book env w) as [o w'] eqn:E.
  cbn [fst snd] in *. subst o. split.
  - eapply fails_clean_processSupabaseBook, E.
  - cbn [processSupabaseBooks_from]. rewrite bind_eq. unfold try_catch.
    rewrite bind_eq, E. reflexivity.
Qed.

Lemma failed_merge_keeps_the_database_witness :
  let unreachable := with_narration_url (Some "https://cdn/down") demo_remote in
  let env := demo_env true (answer [unreachable]) in
  sqlite (snd (processSupabaseBook unreachable env demo_world)) = sqlite demo_world.
Proof.
  cbv zeta.
  refine (proj1 (failed_merge_keeps_the_database
                   (demo_env true
                      (answer [with_narration_url (Some "https://cdn/down") demo_remote]))
                   demo_world
                   (with_narration_url (Some "https://cdn/down") demo_remote)
                   {| message := "Failed to fetch" |} [] [] _)).
  vm_compute. reflexivity.
Defined.

(** The two ways [fetchBooks] ends. *)
Lemma fetchBooks_shape env w :
  let valid := validBooks_at (clock env (ticks w)) (sqlite w) in
  (fetchBooks env w = (Ok valid, tick w)
   /\ (navigator_onLine env = false \/ is_Some (error (remote_books env))))
  \/ (exists processed w',
        fetchBooks env w = (Ok (processed ++ List.filter is_manual valid), w')
        /\ processSupabaseBooks_from [] (catalog env) env (tick w) = (Ok processed, w')
        /\ navigator_onLine env = true
        /\ error (remote_books env) = None).
Proof.
  cbv zeta. destruct (navigator_onLine env) eqn:On.
  - destruct (error (remote_books env)) as [err|] eqn:Er.
    + left. split; [|right; eauto].
      apply fetchBooks_remote_error_spec; [exact On | rewrite Er; eauto].
    + right. rewrite fetchBooks_online_spec by assumption.
      unfold processSupabaseBooks, catalog.
      destruct (processSupabaseBooks_from_ok [] (default [] (data (remote_books env)))
                  env (tick w)) as (processed & w' & E).
      rewrite E. exists processed, w'. auto.
  - left. split; [|left; reflexivity]. apply fetchBooks_offline_spec, On.
Qed.

Lemma keeps_row_tick key w : keeps_row key w (tick w).
Proof. split; [reflexivity | cbn; lia]. Qed.

(** X11. [fetchBooks] never throws; it removes no row and no cached file,
    only adds to the calls made to the outside, and leaves every row whose
    id is not in the fetched catalog exactly as it was; expired records are
    not deleted. *)
Theorem fetchBooks_only_adds env w :
  exists books w',
    fetchBooks env w = (Ok books, w')
    /\ grows w w'
    /\ (forall key,
          ~ In key (map id (catalog env)) -> row_of w' key = row_of w key).
Proof.
  destruct (fetchBooks_shape env w) as [[E _]|(processed & w' & E & L & _ & _)].
  - eexists _, _. split; [exact E|]. split; [apply grows_tick | reflexivity].
  - exists (processed ++ List.filter is_manual
                            (validBooks_at (clock env (ticks w)) (sqlite w))), w'.
    split; [exact E|]. split.
    + destruct (frame_processSupabaseBooks_from grows (fun _ => True)
                  grows_refl grows_trans grows_tick grows_cached grows_saved
                  (catalog env) [] (catalog env)) with (env := env) (w := tick w)
        as [G _]; [auto | constructor |].
      rewrite L in G. cbn [snd] in G.
      eapply grows_trans; [apply grows_tick | exact G].
    + intros key Hn.
      destruct (keeps_processSupabaseBooks_from key [] (catalog env) Hn env (tick w))
        as [[K _] _].
      rewrite L in K. exact K.
Qed.

(** X12. Every manual book of the Record Store is in the result of
    [fetchBooks], whatever the connectivity, the answer of the catalog and
    the time (a manual book does not expire). *)
Theorem fetchBooks_lists_every_manual_book env w (book : LocalBook) :
  In book (listed (sqlite w)) ->
  is_manual book = true ->
  exists books w', fetchBooks env w = (Ok books, w') /\ In book books.
Proof.
  intros Hin Hm.
  assert (V : In book (validBooks_at (clock env (ticks w)) (sqlite w))).
  { unfold validBooks_at. apply filter_In. split; [exact Hin|].
    unfold is_valid. rewrite Hm. reflexivity. }
  destruct (fetchBooks_shape env w) as [[E _]|(processed & w' & E & _)].
  - eexists _, _. split; [exact E | exact V].
  - eexists _, _. split; [exact E|]. apply in_or_app. right.
    apply filter_In. split; [exact V | exact Hm].
Qed.

Lemma fetchBooks_lists_every_manual_book_witness :
  exists books w',
    fetchBooks (demo_env_at 1900000000000 true (answer [demo_remote])) demo_world
      = (Ok books, w')
    /\ In (stored demo_manual) books.
Proof.
  apply (fetchBooks_lists_every_manual_book
           (demo_env_at 1900000000000 true (answer [demo_remote])) demo_world
           (stored demo_manual)).
  - vm_compute. left. reflexivity.
  - reflexivity.
Defined.

(** X13. Online and with the catalog fetched, every book [fetchBooks]
    returns is either a manual book of the Record Store or the merge of a
    catalog row: it has the row's id, is not manual, is synced and has a
    local content path. Non-manual local records that are not in the catalog
    are not returned. *)
Theorem fetchBooks_online_result env w :
  navigator_onLine env = true ->
  error (remote_books env) = None ->
  exists books w',
    fetchBooks env w = (Ok books, w')
    /\ forall book : LocalBook,
         In book books ->
         (is_manual book = true /\ In book (listed (sqlite w)))
         \/ (exists row, In row (catalog env) /\ merged_from row book).
Proof.
  intros On Er.
  destruct (fetchBooks_shape env w) as [[_ [Off|[err Err]]]|(processed & w' & E & L & _)].
  - congruence.
  - congruence.
  - eexists _, _. split; [exact E|].
    destruct (frame_processSupabaseBooks_from grows (fun _ => True)
                grows_refl grows_trans grows_tick grows_cached grows_saved
                (catalog env) [] (catalog env)) with (env := env) (w := tick w)
      as [_ Q]; [auto | constructor |].
    specialize (Q processed). rewrite L in Q. specialize (Q eq_refl).
    intros book Hin. apply in_app_or in Hin. destruct Hin as [Hp|Hm].
    + right. rewrite List.Forall_forall in Q. apply Q, Hp.
    + left. apply filter_In in Hm. destruct Hm as [Hv Hm]. split; [exact Hm|].
      unfold validBooks_at in Hv. apply filter_In in Hv. apply Hv.
Qed.

Lemma fetchBooks_online_result_witness :
  exists books w',
    fetchBooks (demo_env true (answer [demo_remote])) demo_world = (Ok books, w')
    /\ length books = 2%nat.
Proof.
  destruct (fetchBooks_online_result (demo_env true (answer [demo_remote]))
              demo_world eq_refl eq_refl) as (books & w' & E & _).
  exists books, w'. split; [exact E|].
  pose proof (f_equal (fun r => match fst r with Ok l => length l | Throw _ => 0%nat end) E)
    as Hl.
  cbn [fst] in Hl. rewrite <- Hl. vm_compute. reflexivity.
Defined.

(** ** Merging a row once and again *)

Lemma last_char_append a c b :
  last_char (a +:+ String c b) = last_char (String c b).
Proof.
  induction a as [|x a IH]; [reflexivity|].
  rewrite append_cons. cbn [last_char].
  destruct (a +:+ String c b) as [|y s] eqn:E.
  - destruct a; discriminate E.
  - exact IH.
Qed.

Lemma epub_path_not_audio_path m n : cache_path m "audio" <> cache_path n "epub".
Proof.
  unfold cache_path. intros H. apply (f_equal last_char) in H.
  rewrite <- !append_assoc in H.
  change ("_" +:+ "audio") with (String "_" "audio") in H.
  change ("_" +:+ "epub") with (String "_" "epub") in H.
  rewrite !last_char_append in H. discriminate H.
Qed.

Lemma truthy_or_null o : truthy (or_null o) = truthy o.
Proof. unfold or_null. destruct (truthy o) eqn:E; [exact E | reflexivity]. Qed.

Lemma or_null_truthy o : truthy o = true -> or_null o = o.
Proof. unfold or_null. intros ->. reflexivity. Qed.

Lemma or_null_idem o : or_null (or_null o) = or_null o.
Proof. unfold or_null. destruct (truthy o) eqn:E; [rewrite E|]; reflexivity. Qed.

(** What a conditional caching step did when it returned. *)
Lemma cache_step_inv env w (c : bool) fileUrl fileType
  (k : string -> LocalBook) (nb nb' : LocalBook) w' :
  (if c then let* path := cacheFile fileUrl fileType in ret (k path) else ret nb)
    env w = (Ok nb', w') ->
  sqlite w' = sqlite w
  /\ ((c = false /\ nb' = nb /\ w' = w)
      \/ (c = true
          /\ exists blob,
               http env fileUrl = Some blob
               /\ nb' = k (cache_path (clock env (ticks w)) fileType)
               /\ w' = cached fileUrl fileType blob env w)).
Proof.
  destruct c.
  - rewrite bind_eq, cacheFile_spec.
    destruct (http env fileUrl) as [blob|]; [|discriminate].
    destruct (storable blob); [|discriminate].
    intros [= <- <-]. split; [reflexivity|]. right. split; [reflexivity|].
    exists blob. auto.
  - intros [= <- <-]. split; [reflexivity|]. left. auto.
Qed.

(** The facts about a merged record that a second merge relies on. *)
Lemma processSupabaseBook_success env w (book : SupabaseBook) (m : LocalBook) w1 :
  processSupabaseBook book env w = (Ok m, w1) ->
  exists w0,
    w1 = saved m w0
    /\ sqlite w0 = sqlite w
    /\ id m = id book
    /\ truthy (local_content_path m) = true
    /\ needs_fetch (narration_url book) (local_narration_path m) = false
    /\ needs_fetch (podcast_url book) (local_podcast_path m) = false
    /\ or_null (local_narration_path m) = local_narration_path m
    /\ or_null (local_podcast_path m) = local_podcast_path m.
Proof.
  unfold processSupabaseBook. rewrite bind_eq, getBook_spec, bind_eq.
  unfold Date_now at 1. rewrite bind_eq.
  set (L := found (sqlite w) (id book)).
  match goal with
  | |- context [match ?X env (tick w) with _ => _ end] =>
      destruct (X env (tick w)) as [[nb1|e1] w2] eqn:S1; [|discriminate]
  end.
  rewrite bind_eq.
  match goal with
  | |- context [match ?X env w2 with _ => _ end] =>
      destruct (X env w2) as [[nb2|e2] w3] eqn:S2; [|discriminate]
  end.
  rewrite bind_eq.
  match goal with
  | |- context [match ?X env w3 with _ => _ end] =>
      destruct (X env w3) as [[nb3|e3] w4] eqn:S3; [|discriminate]
  end.
  rewrite bind_eq, saveBook_spec. unfold ret. intros [= <- <-].
  apply cache_step_inv in S1. destruct S1 as [D1 C1].
  apply cache_step_inv in S2. destruct S2 as [D2 C2].
  apply cache_step_inv in S3. destruct S3 as [D3 C3].
  cbn [sqlite tick] in D1.
  exists w4. split; [reflexivity|]. split; [congruence|].
  assert (F1 : id nb1 = id book
               /\ truthy (local_content_path nb1) = true
               /\ local_narration_path nb1 = or_null (path_of L local_narration_path)
               /\ local_podcast_path nb1 = or_null (path_of L local_podcast_path)).
  { destruct C1 as [(c1 & -> & _)|(c1 & b1 & _ & -> & _)].
    - apply negb_false_iff in c1. repeat split.
      cbn [local_content_path]. rewrite truthy_or_null. exact c1.
    - repeat split. }
  destruct F1 as (I1 & T1 & N1 & P1).
  assert (F2 : id nb2 = id book
               /\ truthy (local_content_path nb2) = true
               /\ needs_fetch (narration_url book) (local_narration_path nb2) = false
               /\ or_null (local_narration_path nb2) = local_narration_path nb2
               /\ local_podcast_path nb2 = or_null (path_of L local_podcast_path)).
  { destruct C2 as [(c2 & -> & _)|(c2 & b2 & _ & -> & _)].
    - split; [exact I1|]. split; [exact T1|]. rewrite N1. split.
      + unfold needs_fetch. rewrite truthy_or_null. exact c2.
      + split; [apply or_null_idem | exact P1].
    - split; [exact I1|]. split; [exact T1|]. split.
      + unfold needs_fetch. cbn [local_narration_path with_local_narration_path].
        cbn [truthy]. rewrite cache_path_nonempty. apply andb_false_r.
      + split; [reflexivity | exact P1]. }
  destruct F2 as (I2 & T2 & N2 & O2 & P2).
  destruct C3 as [(c3 & -> & _)|(c3 & b3 & _ & -> & _)].
  - split; [exact I2|]. split; [exact T2|]. split; [exact N2|]. rewrite P2. split.
    + unfold needs_fetch. rewrite truthy_or_null. exact c3.
    + split; [exact O2 | apply or_null_idem].
  - split; [exact I2|]. split; [exact T2|]. split; [exact N2|]. split.
    + unfold needs_fetch. cbn [local_podcast_path with_local_podcast_path].
      cbn [truthy]. rewrite cache_path_nonempty. apply andb_false_r.
    + split; [exact O2 | reflexivity].
Qed.

(** A merge that finds every asset cached touches the clock and the
    database only. *)
Lemma processSupabaseBook_nothing_to_fetch env w (book : SupabaseBook)
  (localBook : LocalBook) :
  found (sqlite w) (id book) = Some localBook ->
  truthy (local_content_path localBook) = true ->
  needs_fetch (narration_url book) (local_narration_path localBook) = false ->
  needs_fetch (podcast_url book) (local_podcast_path localBook) = false ->
  let merged :=
    {| base := with_synced_with_supabase true book;
       is_manual := false;
       cache_expiry := toISOString (clock env (ticks w) + CACHE_DURATION);
       local_content_path := or_null (local_content_path localBook);
       local_narration_path := or_null (local_narration_path localBook);
       local_podcast_path := or_null (local_podcast_path localBook) |} in
  processSupabaseBook book env w = (Ok merged, saved merged (tick w)).
Proof.
  intros Hf Hc Hn Hp. cbv zeta. unfold processSupabaseBook.
  rewrite bind_eq, getBook_spec, Hf. rewrite bind_eq. unfold Date_now at 1.
  cbn [path_of]. unfold needs_fetch in Hn, Hp. rewrite Hc, Hn, Hp. cbn [negb].
  rewrite bind_eq. unfold ret at 1. rewrite bind_eq. unfold ret at 1.
  rewrite bind_eq. unfold ret at 1. rewrite bind_eq, saveBook_spec. reflexivity.
Qed.

Lemma saved_frame (book : LocalBook) w :
  files (saved book w) = files w
  /\ trace (saved book w) = trace w
  /\ ticks (saved book w) = ticks w.
Proof. unfold saved. destruct (sqlite w); repeat split. Qed.

(** X14. Merging a catalog row a second time, right after a merge of it that
    succeeded, fetches and writes no file: the three local paths of the
    first merge are kept. *)
Theorem second_merge_caches_nothing env w (book : SupabaseBook) (m1 : LocalBook) :
  is_Some (sqlite w) ->
  fst (processSupabaseBook book env w) = Ok m1 ->
  let w1 := snd (processSupabaseBook book env w) in
  exists (m2 : LocalBook) w2,
    processSupabaseBook book env w1 = (Ok m2, w2)
    /\ files w2 = files w1
    /\ trace w2 = trace w1
    /\ local_content_path m2 = local_content_path m1
    /\ local_narration_path m2 = local_narration_path m1
    /\ local_podcast_path m2 = local_podcast_path m1.
Proof.
  intros Hs H. cbv zeta.
  destruct (processSupabaseBook book env w) as [o w1] eqn:E.
  cbn [fst snd] in *. subst o.
  destruct (processSupabaseBook_success env w book m1 w1 E)
    as (w0 & -> & D & I & T & N & P & ON & OP).
  assert (F : found (sqlite (saved m1 w0)) (id book) = Some (stored m1)).
  { rewrite <- I. apply found_saved. rewrite D. exact Hs. }
  rewrite (processSupabaseBook_nothing_to_fetch env (saved m1 w0) book (stored m1)
             F T N P).
  eexists _, _. split; [reflexivity|].
  destruct (saved_frame
              {| base := with_synced_with_supabase true book;
                 is_manual := false;
                 cache_expiry :=
                   toISOString (clock env (ticks (saved m1 w0)) + CACHE_DURATION);
                 local_content_path := or_null (local_content_path (stored m1));
                 local_narration_path := or_null (local_narration_path (stored m1));
                 local_podcast_path := or_null (local_podcast_path (stored m1)) |}
              (tick (saved m1 w0))) as (Fi & Tr & _).
  rewrite Fi, Tr. split; [reflexivity|]. split; [reflexivity|].
  cbn [local_content_path local_narration_path local_podcast_path stored].
  rewrite (or_null_truthy _ T), ON, OP. repeat split.
Qed.

Lemma second_merge_caches_nothing_witness :
  let env := demo_env true (answer [demo_remote]) in
  let w := set_sqlite (Some ∅) blank in
  let w1 := snd (processSupabaseBook demo_remote env w) in
  trace w1 = [Cached "https://cdn/b1-v2.epub" "epub" "cache/1700000001000_epub"]
  /\ exists (m2 : LocalBook) w2,
       processSupabaseBook demo_remote env w1 = (Ok m2, w2)
       /\ files w2 = files w1
       /\ trace w2 = trace w1
       /\ local_content_path m2 = Some "cache/1700000001000_epub".
Proof.
  cbv zeta. split; [vm_compute; reflexivity|].
  destruct (second_merge_caches_nothing (demo_env true (answer [demo_remote]))
              (set_sqlite (Some ∅) blank) demo_remote
              (match fst (processSupabaseBook demo_remote
                            (demo_env true (answer [demo_remote]))
                            (set_sqlite (Some ∅) blank)) with
               | Ok m => m
               | Throw _ => demo_synced
               end))
    as (m2 & w2 & E & Fi & Tr & C & _).
  - eexists. reflexivity.
  - vm_compute. reflexivity.
  - exists m2, w2. split; [exact E|]. split; [exact Fi|]. split; [exact Tr|].
    rewrite C. vm_compute. reflexivity.
Defined.

(** An audio caching step that can cache what it needs returns, and leaves
    the cached contents where they are. *)
Lemma cache_audio_step_keeps_epub env w (c : bool) (url : option string)
  (k : string -> LocalBook) (nb : LocalBook) :
  implb c (cacheable env url) = true ->
  exists nb' w',
    (if c
     then let* path := cacheFile (default "" url) "audio" in ret (k path)
     else ret nb) env w = (Ok nb', w')
    /\ (nb' = nb \/ exists path, nb' = k path)
    /\ sqlite w' = sqlite w
    /\ (forall n, files w' !! cache_path n "epub" = files w !! cache_path n "epub")
    /\ (exists evs, trace w' = trace w ++ evs).
Proof.
  intros H. destruct c; cbn [implb] in H.
  - unfold cacheable in H. rewrite bind_eq, cacheFile_spec.
    destruct (http env (default "" url)) as [blob|]; [|discriminate].
    rewrite H.
    eexists _, _. split; [reflexivity|]. split; [right; eexists; reflexivity|].
    split; [reflexivity|]. split; [|eexists; reflexivity].
    intros n. rewrite files_cached.
    apply decide_False, epub_path_not_audio_path.
  - exists nb, w. split; [reflexivity|]. split; [left; reflexivity|].
    split; [reflexivity|]. split; [reflexivity|].
    exists []. symmetry. apply app_nil_r.
Qed.

(** X15. Merging a catalog row that has no local record caches the content
    under cache/<now>_epub, saves the merged record, not manual, under the
    row's id, and the cached file reads back with the bytes that were
    fetched; for a content whose media type has not the text [base64,],
    and a narration and a podcast that, where the row has them, can be
    fetched and are taken by the Filesystem. *)
Theorem first_merge_caches_the_content env w (book : SupabaseBook) db blob :
  sqlite w = Some db ->
  db !! id book = None ->
  http env (content_url book) = Some blob ->
  includes (blob_type blob) "base64," = false ->
  implb (truthy (narration_url book)) (cacheable env (narration_url book)) = true ->
  implb (truthy (podcast_url book)) (cacheable env (podcast_url book)) = true ->
  exists (merged : LocalBook) w1 path,
    processSupabaseBook book env w = (Ok merged, w1)
    /\ path = cache_path (clock env (S (ticks w))) "epub"
    /\ local_content_path merged = Some path
    /\ is_manual merged = false
    /\ found (sqlite w1) (id book) = Some (stored merged)
    /\ In (Cached (content_url book) "epub" path) (trace w1)
    /\ exists blob',
         readCachedFile path env w1 = (Ok blob', w1)
         /\ blob_bytes blob' = blob_bytes blob.
Proof.
  intros Hdb Hnew Hf Ht Hn Hp. unfold processSupabaseBook.
  assert (F : found (sqlite w) (id book) = None).
  { unfold found. rewrite Hdb, Hnew. reflexivity. }
  rewrite bind_eq, getBook_spec, F. rewrite bind_eq. unfold Date_now at 1.
  cbn [path_of truthy negb andb]. rewrite !andb_true_r.
  rewrite bind_eq. rewrite bind_eq, (cacheFile_plain _ _ _ _ _ Hf Ht).
  unfold ret at 1.
  set (path := cache_path (clock env (ticks (tick w))) "epub").
  set (w0 := cached (content_url book) "epub" blob env (tick w)).
  set (nb0 := with_local_content_path (Some path) _).
  pose proof (cache_audio_step_keeps_epub env w0 _ (narration_url book)
                (fun p => with_local_narration_path (Some p) nb0) nb0 Hn)
    as (nb1 & w1 & E1 & V1 & S1 & K1 & (evs1 & T1)).
  cbv beta in E1. rewrite bind_eq, E1.
  pose proof (cache_audio_step_keeps_epub env w1 _ (podcast_url book)
                (fun p => with_local_podcast_path (Some p) nb1) nb1 Hp)
    as (nb2 & w2 & E2 & V2 & S2 & K2 & (evs2 & T2)).
  cbv beta in E2. rewrite bind_eq, E2.
  rewrite bind_eq, saveBook_spec. unfold ret.
  assert (P1 : id nb1 = id book /\ local_content_path nb1 = Some path
               /\ is_manual nb1 = false).
  { destruct V1 as [->|[p ->]]; repeat split. }
  assert (P2 : id nb2 = id book /\ local_content_path nb2 = Some path
               /\ is_manual nb2 = false).
  { destruct V2 as [->|[p ->]]; exact P1. }
  destruct P2 as (I2 & C2 & M2).
  destruct (saved_frame nb2 w2) as (Fi & Tr & _).
  exists nb2, (saved nb2 w2), path.
  split; [reflexivity|]. split; [reflexivity|]. split; [exact C2|].
  split; [exact M2|]. split.
  { rewrite <- I2. apply found_saved. rewrite S2, S1. subst w0.
    cbn [sqlite cached emit set_files tick]. rewrite Hdb. eauto. }
  split.
  { rewrite Tr, T2, T1. subst w0. cbn [trace cached emit set_files tick].
    rewrite !in_app_iff. left. left. right. left. reflexivity. }
  assert (Fp : files (saved nb2 w2) !! path
               = Some (DataString (b64_encode (blob_bytes blob)))).
  { rewrite Fi. subst path. rewrite K2, K1. subst w0.
    rewrite files_cached, decide_True by reflexivity.
    rewrite stored_text_plain by exact Ht. reflexivity. }
  rewrite (readCachedFile_encoded _ _ _ _ Fp).
  eexists. split; reflexivity.
Qed.

Lemma first_merge_caches_the_content_witness :
  let env := demo_env true (answer [demo_remote]) in
  exists (merged : LocalBook) w1 path,
    processSupabaseBook demo_remote env (set_sqlite (Some ∅) blank) = (Ok merged, w1)
    /\ local_content_path merged = Some path
    /\ exists blob',
         readCachedFile path env w1 = (Ok blob', w1)
         /\ blob_bytes blob' = blob_bytes demo_blob.
Proof.
  cbv zeta.
  destruct (first_merge_caches_the_content (demo_env true (answer [demo_remote]))
              (set_sqlite (Some ∅) blank) demo_remote ∅ demo_blob)
    as (merged & w1 & path & E & _ & C & _ & _ & _ & R);
    try reflexivity.
  exists merged, w1, path. split; [exact E|]. split; [exact C | exact R].
Defined.

(** ** Importing a book *)

Lemma found_In_listed db key (book : LocalBook) :
  found db key = Some book -> In book (listed db).
Proof.
  destruct db as [db|]; [|discriminate]. cbn [found].
  destruct (db !! key) as [cols|] eqn:E; [|discriminate].
  intros [= <-]. apply In_listed. eauto.
Qed.

Lemma addManualBook_ok env w objectUrl contentUrl name coverUrl blob :
  http env objectUrl = Some blob ->
  storable blob = true ->
  exists (newBook : LocalBook) w0,
    let path := cache_path (clock env (S (S (ticks w)))) "epub" in
    addManualBook objectUrl contentUrl name coverUrl env w
      = (Ok newBook, saved newBook w0)
    /\ sqlite w0 = sqlite w
    /\ files w0 !! path = Some (DataString (stored_text blob))
    /\ id newBook = "manual_" +:+ decimal (clock env (S (ticks w)))
    /\ title newBook = name
    /\ content_url newBook = contentUrl
    /\ is_manual newBook = true
    /\ synced_with_supabase newBook = false
    /\ local_content_path newBook = Some path.
Proof.
  intros Hf Hs. unfold addManualBook. rewrite try_rethrow.
  rewrite bind_eq. unfold Date_now at 1.
  rewrite bind_eq. unfold Date_now at 1.
  rewrite bind_eq, cacheFile_spec, Hf, Hs.
  rewrite bind_eq. unfold Date_now at 1.
  rewrite bind_eq, saveBook_spec. unfold ret.
  eexists _, _. cbv zeta. split; [reflexivity|].
  split; [reflexivity|]. split.
  { cbn [files tick]. rewrite files_cached. cbn [ticks tick].
    apply decide_True. reflexivity. }
  repeat split.
Qed.

(** X16. With a database and a file that can be read, whose media type has
    not the text [base64,], [addManualBook] returns a book with the id
    manual_<now>, the given title, manual and not synced; the book is found
    under its id afterwards and its local content path reads back with the
    bytes of the file. *)
Theorem addManualBook_stores_the_file env w objectUrl contentUrl name coverUrl
  db blob :
  sqlite w = Some db ->
  http env objectUrl = Some blob ->
  includes (blob_type blob) "base64," = false ->
  exists (newBook : LocalBook) w' path,
    addManualBook objectUrl contentUrl name coverUrl env w = (Ok newBook, w')
    /\ id newBook = "manual_" +:+ decimal (clock env (S (ticks w)))
    /\ title newBook = name
    /\ is_manual newBook = true
    /\ synced_with_supabase newBook = false
    /\ local_content_path newBook = Some path
    /\ getBook (id newBook) env w' = (Ok (Some (stored newBook)), w')
    /\ exists blob',
         readCachedFile path env w' = (Ok blob', w')
         /\ blob_bytes blob' = blob_bytes blob.
Proof.
  intros Hdb Hf Ht.
  destruct (addManualBook_ok env w objectUrl contentUrl name coverUrl blob Hf
              (storable_plain blob Ht))
    as (nb & w0 & E & Sq & F & I & T & _ & M & Sy & L).
  exists nb, (saved nb w0), (cache_path (clock env (S (S (ticks w)))) "epub").
  split; [exact E|]. split; [exact I|]. split; [exact T|]. split; [exact M|].
  split; [exact Sy|]. split; [exact L|]. split.
  - rewrite getBook_spec, found_saved by (rewrite Sq, Hdb; eauto). reflexivity.
  - destruct (saved_frame nb w0) as (Fi & _ & _).
    rewrite stored_text_plain in F by exact Ht.
    rewrite <- Fi in F.
    rewrite (readCachedFile_encoded _ _ _ _ F).
    eexists. split; reflexivity.
Qed.

Lemma addManualBook_stores_the_file_witness :
  exists (newBook : LocalBook) w',
    addManualBook "blob:1" "blob:2" "My Book" None (demo_env true failure)
      (set_sqlite (Some ∅) blank) = (Ok newBook, w')
    /\ id newBook = "manual_1700000001000"
    /\ is_manual newBook = true.
Proof.
  destruct (addManualBook_stores_the_file (demo_env true failure)
              (set_sqlite (Some ∅) blank) "blob:1" "blob:2" "My Book" None
              ∅ demo_blob eq_refl eq_refl eq_refl)
    as (nb & w' & path & E & I & _ & M & _).
  exists nb, w'. split; [exact E|]. split; [exact I | exact M].
Defined.

(** X17. When the file cannot be fetched, [addManualBook] throws the error
    of the fetch; no row and no file is written. *)
Theorem addManualBook_failure_stores_nothing env w objectUrl contentUrl name
  coverUrl :
  http env objectUrl = None ->
  exists w',
    addManualBook objectUrl contentUrl name coverUrl env w
      = (Throw {| message := "Failed to fetch" |}, w')
    /\ sqlite w' = sqlite w
    /\ files w' = files w
    /\ trace w' = trace w.
Proof.
  intros Hf. unfold addManualBook. rewrite try_rethrow.
  rewrite bind_eq. unfold Date_now at 1.
  rewrite bind_eq. unfold Date_now at 1.
  rewrite bind_eq, cacheFile_spec, Hf.
  eexists. split; [reflexivity|]. repeat split.
Qed.

Lemma addManualBook_failure_stores_nothing_witness :
  exists w',
    addManualBook "https://cdn/down" "blob:2" "My Book" None
      (demo_env true failure) demo_world
      = (Throw {| message := "Failed to fetch" |}, w')
    /\ sqlite w' = sqlite demo_world.
Proof.
  destruct (addManualBook_failure_stores_nothing (demo_env true failure)
              demo_world "https://cdn/down" "blob:2" "My Book" None eq_refl)
    as (w' & E & Sq & _).
  exists w'. split; [exact E | exact Sq].
Defined.

(** X18. A book imported with [addManualBook], from a file whose text the
    Filesystem takes as base64, is in the result of every later
    [fetchBooks], online or not and at any time, and [removeBook] of its id
    returns normally and leaves no row for it. *)
Theorem imported_book_is_listed_and_removable env env' env'' w objectUrl
  contentUrl name coverUrl db blob :
  sqlite w = Some db ->
  http env objectUrl = Some blob ->
  storable blob = true ->
  exists (newBook : LocalBook) w',
    addManualBook objectUrl contentUrl name coverUrl env w = (Ok newBook, w')
    /\ (exists books w1,
          fetchBooks env' w' = (Ok books, w1) /\ In (stored newBook) books)
    /\ (exists w2,
          removeBook (id newBook) env'' w' = (Ok tt, w2)
          /\ row_of w2 (id newBook) = None).
Proof.
  intros Hdb Hf Hst.
  destruct (addManualBook_ok env w objectUrl contentUrl name coverUrl blob Hf Hst)
    as (nb & w0 & E & Sq & _ & _ & _ & _ & M & _).
  assert (Hs : exists db0, sqlite w0 = Some db0) by (rewrite Sq, Hdb; eauto).
  destruct Hs as [db0 Hdb0].
  assert (F : found (sqlite (saved nb w0)) (id nb) = Some (stored nb)).
  { apply found_saved. rewrite Hdb0. eauto. }
  exists nb, (saved nb w0). split; [exact E|]. split.
  - assert (V : In (stored nb)
                  (validBooks_at (clock env' (ticks (saved nb w0)))
                     (sqlite (saved nb w0)))).
    { unfold validBooks_at. apply filter_In. split.
      - eapply found_In_listed, F.
      - unfold is_valid. cbn [is_manual stored]. rewrite M. reflexivity. }
    destruct (fetchBooks_shape env' (saved nb w0))
      as [[Ef _]|(processed & w1 & Ef & _)].
    + eexists _, _. split; [exact Ef | exact V].
    + eexists _, _. split; [exact Ef|]. apply in_or_app. right.
      apply filter_In. split; [exact V|]. cbn [is_manual stored]. exact M.
  - rewrite removeBook_spec, F. cbn [is_manual stored]. rewrite M.
    unfold saved at 1 2. rewrite Hdb0. cbn [sqlite set_sqlite].
    eexists. split; [reflexivity|].
    unfold row_of. cbn [sqlite set_sqlite]. apply lookup_delete_eq.
Qed.

Lemma imported_book_is_listed_and_removable_witness :
  exists (newBook : LocalBook) w',
    addManualBook "blob:1" "blob:2" "My Book" None (demo_env true failure)
      demo_world = (Ok newBook, w')
    /\ exists books w1,
         fetchBooks (demo_env_at 1900000000000 false failure) w' = (Ok books, w1)
         /\ In (stored newBook) books.
Proof.
  destruct (imported_book_is_listed_and_removable (demo_env true failure)
              (demo_env_at 1900000000000 false failure) (demo_env true failure)
              demo_world "blob:1" "blob:2" "My Book" None
              (table_of [demo_manual; demo_synced]) demo_blob eq_refl eq_refl
              eq_refl)
    as (nb & w' & E & L & _).
  exists nb, w'. split; [exact E | exact L].
Defined.

(** X19. Without a database [addManualBook], given a file whose text the
    Filesystem takes as base64, still returns a book and writes its file,
    but the book is in no list and cannot be found: the written file is
    referenced by no record. *)
Theorem addManualBook_without_database env w objectUrl contentUrl name coverUrl
  blob :
  sqlite w = None ->
  http env objectUrl = Some blob ->
  storable blob = true ->
  exists (newBook : LocalBook) w',
    addManualBook objectUrl contentUrl name coverUrl env w = (Ok newBook, w')
    /\ getBook (id newBook) env w' = (Ok None, w')
    /\ getBooks env w' = (Ok [], w')
    /\ is_Some (files w' !! cache_path (clock env (S (S (ticks w)))) "epub").
Proof.
  intros Hdb Hf Hst.
  destruct (addManualBook_ok env w objectUrl contentUrl name coverUrl blob Hf Hst)
    as (nb & w0 & E & Sq & F & _).
  assert (Sv : saved nb w0 = w0).
  { unfold saved. rewrite Sq, Hdb. reflexivity. }
  rewrite Sv in E. exists nb, w0. split; [exact E|].
  rewrite getBook_spec, getBooks_spec, Sq, Hdb. split; [reflexivity|].
  split; [reflexivity|]. rewrite F. eauto.
Qed.

Lemma addManualBook_without_database_witness :
  exists (newBook : LocalBook) w',
    addManualBook "blob:1" "blob:2" "My Book" None (demo_env true failure) blank
      = (Ok newBook, w')
    /\ getBooks (demo_env true failure) w' = (Ok [], w').
Proof.
  destruct (addManualBook_without_database (demo_env true failure) blank
              "blob:1" "blob:2" "My Book" None demo_blob eq_refl eq_refl eq_refl)
    as (nb & w' & E & _ & L & _).
  exists nb, w'. split; [exact E | exact L].
Defined.

(** ** The cover cache *)

Lemma getBookCover_cases generate bookId name fileType cache env w :
  getBookCover generate bookId name fileType cache env w =
  match cache !! bookId with
  | Some entry =>
      if clock env (ticks w) - timestamp entry <? CACHE_DURATION
      then (Ok (dataUrl entry, cache), tick w)
      else (Ok (generate name fileType,
                <[bookId := {| dataUrl := generate name fileType;
                               timestamp := clock env (S (ticks w)) |}]> cache),
            tick (tick w))
  | None =>
      (Ok (generate name fileType,
           <[bookId := {| dataUrl := generate name fileType;
                          timestamp := clock env (ticks w) |}]> cache),
       tick w)
  end.
Proof.
  unfold getBookCover. cbv zeta.
  destruct (cache !! bookId) as [entry|]; [|reflexivity].
  rewrite bind_eq. unfold Date_now at 1.
  destruct (clock env (ticks w) - timestamp entry <? CACHE_DURATION); reflexivity.
Qed.



(** X21. An entry that is seven days old or older is not used:
    [getBookCover] generates the cover again from the title and file type
    given and stores it with the time of the second reading of the clock;
    other entries are untouched. *)
Theorem expired_cover_is_generated_again generate bookId name fileType cache
  entry env w :
  cache !! bookId = Some entry ->
  CACHE_DURATION <= clock env (ticks w) - timestamp entry ->
  exists cache1,
    getBookCover generate bookId name fileType cache env w
      = (Ok (generate name fileType, cache1), tick (tick w))
    /\ cache1 !! bookId
       = Some {| dataUrl := generate name fileType;
                 timestamp := clock env (S (ticks w)) |}
    /\ forall other, other <> bookId -> cache1 !! other = cache !! other.
Proof.
  intros He Ha. rewrite getBookCover_cases, He.
  apply Z.ltb_ge in Ha. rewrite Ha. eexists. split; [reflexivity|].
  split; [apply lookup_insert_eq|].
  intros other Hne. apply lookup_insert_ne. congruence.
Qed.

Lemma expired_cover_is_generated_again_witness :
  let generate := fun name fileType => name +:+ "." +:+ fileType in
  let old := {| dataUrl := "stale"; timestamp := 1700000000000 - CACHE_DURATION |} in
  exists cache1,
    getBookCover generate "b1" "My Book" "EPUB" {["b1" := old]}
      (demo_env true failure) demo_world
      = (Ok ("My Book.EPUB", cache1), tick (tick demo_world)).
Proof.
  cbv zeta.
  destruct (expired_cover_is_generated_again
              (fun name fileType => name +:+ "." +:+ fileType)
              "b1" "My Book" "EPUB"
              {["b1" := {| dataUrl := "stale";
                           timestamp := 1700000000000 - CACHE_DURATION |}]}
              {| dataUrl := "stale"; timestamp := 1700000000000 - CACHE_DURATION |}
              (demo_env true failure) demo_world)
    as (cache1 & E & _).
  - reflexivity.
  - vm_compute. discriminate.
  - exists cache1. exact E.
Defined.

Lemma sweep_lookup now (l : list (string * CoverEntry)) (acc : gmap string CoverEntry) key :
  fold_left
    (fun cache entry =>
       if outdated now (snd entry) then removeCover (fst entry) cache else cache)
    l acc !! key
  = if existsb (fun entry => String.eqb (fst entry) key && outdated now (snd entry)) l
    then None
    else acc !! key.
Proof.
  revert acc. induction l as [|[k e] l IH]; intros acc; [reflexivity|].
  cbn [fold_left existsb fst snd]. rewrite IH.
  destruct (existsb _ l); [rewrite orb_true_r; reflexivity|].
  rewrite orb_false_r.
  destruct (outdated now e); [|rewrite andb_false_r; reflexivity].
  rewrite andb_true_r. unfold removeCover.
  destruct (String.eqb_spec k key) as [->|Hne].
  - apply lookup_delete_eq.
  - apply lookup_delete_ne, Hne.
Qed.

(** X22. After [cleanupCache] the cache has exactly the entries that were
    there and are not older than seven days at the time of the sweep,
    unchanged; an entry exactly seven days old stays. *)
Theorem cleanupCache_sweeps_the_outdated cache env w key :
  exists cache1,
    cleanupCache cache env w = (Ok cache1, tick w)
    /\ cache1 !! key
       = match cache !! key with
         | Some entry =>
             if clock env (ticks w) - timestamp entry >? CACHE_DURATION
             then None else Some entry
         | None => None
         end.
Proof.
  unfold cleanupCache. rewrite bind_eq. unfold Date_now at 1. unfold ret.
  eexists. split; [reflexivity|]. rewrite sweep_lookup.
  set (now := clock env (ticks w)).
  destruct (cache !! key) as [entry|] eqn:E.
  - destruct (existsb _ (map_to_list cache)) eqn:X.
    + apply existsb_exists in X. destruct X as ([k e] & Hin & Hb).
      cbn [fst snd] in Hb. apply andb_true_iff in Hb. destruct Hb as [Hk Ho].
      apply String.eqb_eq in Hk. subst k.
      apply list_elem_of_In, elem_of_map_to_list in Hin.
      assert (e = entry) by congruence. subst e.
      unfold outdated in Ho. rewrite Ho. reflexivity.
    + destruct (now - timestamp entry >? CACHE_DURATION) eqn:O; [|reflexivity].
      exfalso. apply Bool.not_true_iff_false in X. apply X.
      apply existsb_exists. exists (key, entry). split.
      * apply list_elem_of_In, elem_of_map_to_list, E.
      * cbn [fst snd]. rewrite String.eqb_refl. exact O.
  - destruct (existsb _ (map_to_list cache)) eqn:X; reflexivity.
Qed.

(** ** The shelves of the home page *)

Lemma firstn_then_firstn {A : Type} (a b : nat) (l : list A) :
  firstn a l ++ firstn b (skipn a l) = firstn (a + b) l.
Proof.
  revert l. induction a as [|a IH]; intros l; [reflexivity|].
  destruct l as [|x l]; [destruct b; reflexivity|].
  cbn [firstn skipn Nat.add app]. f_equal. apply IH.
Qed.

Lemma concat_shelves {A : Type} (books : list A) (b n : nat) :
  concat
    (map (fun shelfIndex =>
            let startIndex := (shelfIndex * b)%nat in
            slice startIndex (startIndex + b) books) (seq 0 n))
  = firstn (n * b) books.
Proof.
  induction n as [|n IH]; [reflexivity|].
  rewrite seq_S, map_app, concat_app, IH. cbn [map concat Nat.add].
  rewrite app_nil_r. unfold slice.
  replace (n * b + b - n * b)%nat with b by lia.
  rewrite firstn_then_firstn. f_equal. lia.
Qed.

Lemma ceil_div_covers (count b : nat) :
  (0 < b)%nat -> (count <= ceil_div count b * b)%nat.
Proof.
  intros Hb. unfold ceil_div.
  pose proof (Nat.div_mod_eq (count + b - 1) b) as E.
  pose proof (Nat.mod_upper_bound (count + b - 1) b ltac:(lia)) as U.
  nia.
Qed.

(** X23. With a positive number of books per shelf there are [numShelves]
    shelves, none holds more than [booksPerShelf] books, and in order they
    hold the first [numShelves * booksPerShelf] books; with the number of
    shelves the page computes, they hold every book once, in order. *)
Theorem shelves_hold_every_book {A : Type} (books : list A)
  (booksPerShelf numShelves : nat) :
  (0 < booksPerShelf)%nat ->
  length (shelves books booksPerShelf numShelves) = numShelves
  /\ Forall (fun shelf => (length shelf <= booksPerShelf)%nat)
       (shelves books booksPerShelf numShelves)
  /\ concat (shelves books booksPerShelf numShelves)
     = firstn (numShelves * booksPerShelf) books
  /\ (numShelves = requiredShelves (length books) booksPerShelf ->
      concat (shelves books booksPerShelf numShelves) = books).
Proof.
  intros Hb. unfold shelves.
  destruct (Nat.eqb_spec booksPerShelf 0) as [E|_]; [lia|].
  split; [rewrite length_map, length_seq; reflexivity|]. split.
  { apply List.Forall_forall. intros shelf Hin. apply in_map_iff in Hin.
    destruct Hin as (i & <- & _). unfold slice. rewrite length_firstn. lia. }
  rewrite concat_shelves. split; [reflexivity|].
  intros ->. apply firstn_all2. unfold requiredShelves.
  pose proof (ceil_div_covers (length books) booksPerShelf Hb). nia.
Qed.

Lemma shelves_hold_every_book_witness :
  shelves [1; 2; 3; 4; 5; 6; 7] 3 (requiredShelves 7 3) = [[1; 2; 3]; [4; 5; 6]; [7]]
  /\ concat (shelves [1; 2; 3; 4; 5; 6; 7] 3 (requiredShelves 7 3))
     = [1; 2; 3; 4; 5; 6; 7].
Proof.
  split; [reflexivity|].
  destruct (shelves_hold_every_book [1; 2; 3; 4; 5; 6; 7] 3 (requiredShelves 7 3))
    as (_ & _ & _ & H); [lia|].
  apply H. reflexivity.
Defined.

(** X24. [calculateBooksPerShelf] gives at least one book per shelf; for a
    container of 152 pixels or more it is the largest number of 120 pixel
    books that fit with 16 pixel gaps and 32 pixels of padding, and one for
    every narrower container. *)
Theorem calculateBooksPerShelf_fits containerWidth :
  let n := calculateBooksPerShelf containerWidth in
  1 <= n
  /\ (152 <= containerWidth ->
      n * 120 + (n - 1) * 16 + 32 <= containerWidth
      /\ containerWidth < (n + 1) * 120 + n * 16 + 32)
  /\ (containerWidth < 152 -> n = 1).
Proof.
  cbv zeta. unfold calculateBooksPerShelf.
  change (120 + 16) with 136.
  pose proof (Z.div_mod (containerWidth - 32 + 16) 136 ltac:(lia)) as E.
  pose proof (Z.mod_pos_bound (containerWidth - 32 + 16) 136 ltac:(lia)) as B.
  split; [lia|]. split; intros H; lia.
Qed.

(** ** Files for the reader *)

Lemma lacks_append c a b : lacks c (a +:+ b) = lacks c a && lacks c b.
Proof.
  induction a as [|x a IH]; [reflexivity|].
  rewrite append_cons. cbn [lacks]. rewrite IH. apply andb_assoc.
Qed.

Lemma split_slash_pieces cur s :
  lacks "/" cur = true ->
  Forall (fun piece => lacks "/" piece = true) (split_from "/" 0 cur s).
Proof.
  revert cur. induction s as [|c s IH]; intros cur Hc.
  - constructor; [exact Hc | constructor].
  - cbn [split_from starts_with String.length Nat.sub].
    rewrite andb_true_r. destruct (Ascii.eqb_spec "/" c) as [<-|Hne].
    + constructor; [exact Hc|]. apply IH. reflexivity.
    + apply IH. rewrite lacks_append, Hc. cbn [lacks andb].
      destruct (Ascii.eqb_spec "/" c); [contradiction | reflexivity].
Qed.

Lemma last_Forall {A : Type} (Q : A -> Prop) (l : list A) d :
  Q d -> Forall Q l -> Q (List.last l d).
Proof.
  intros Hd H. induction H as [|x l Hx Hl IH]; [exact Hd|].
  destruct l; [exact Hx | exact IH].
Qed.

(** The name [fetchBookFile] gives the file of [url]. *)
Lemma filename_ok url :
  let popped := List.last (split url "/") "" in
  let filename := if nonempty popped then popped else "book.epub" in
  nonempty filename = true /\ lacks "/" filename = true.
Proof.
  cbv zeta.
  assert (L : lacks "/" (List.last (split url "/") "") = true).
  { apply (last_Forall (fun piece => lacks "/" piece = true)); [reflexivity|].
    apply split_slash_pieces. reflexivity. }
  destruct (nonempty (List.last (split url "/") "")) eqn:N.
  - split; [exact N | exact L].
  - split; reflexivity.
Qed.

Lemma fetchBookFile_cases response_ok url env w :
  fetchBookFile response_ok url env w =
  (Ok match http env url with
      | Some blob =>
          if response_ok url
          then Some (epub_file blob
                       (let popped := List.last (split url "/") "" in
                        if nonempty popped then popped else "book.epub"))
          else None
      | None => None
      end, w).
Proof.
  unfold fetchBookFile, try_catch. rewrite bind_eq. unfold fetch_blob.
  destruct (http env url) as [blob|]; [|reflexivity].
  destruct (response_ok url); reflexivity.
Qed.

(** X25. [fetchBookFile] never throws and changes nothing; it answers a file
    exactly when the fetch succeeds with an ok status, and then the file has
    the bytes of the response, the type application/epub+zip and a name that
    is not empty and has no slash. *)
Theorem fetchBookFile_answers_a_file_or_null response_ok url env w :
  exists result,
    fetchBookFile response_ok url env w = (Ok result, w)
    /\ (is_Some result <-> is_Some (http env url) /\ response_ok url = true)
    /\ forall file,
         result = Some file ->
         (exists blob,
            http env url = Some blob
            /\ blob_bytes (Page.blob file) = blob_bytes blob)
         /\ blob_type (Page.blob file) = "application/epub+zip"
         /\ nonempty (Page.name file) = true
         /\ lacks "/" (Page.name file) = true.
Proof.
  rewrite fetchBookFile_cases. eexists. split; [reflexivity|].
  destruct (http env url) as [blob|] eqn:H.
  - destruct (response_ok url) eqn:O.
    + split; [split; eauto|]. intros file [= <-].
      destruct (filename_ok url) as [N L].
      split; [exists blob; split; reflexivity|]. split; [reflexivity|].
      split; [exact N | exact L].
    + split; [|discriminate]. split.
      * intros [? ?]. discriminate.
      * intros [_ ?]. discriminate.
  - split; [|discriminate]. split.
    + intros [? ?]. discriminate.
    + intros [[? ?] _]. discriminate.
Qed.

(** ** The shelf *)

Lemma readCachedFile_readable path env w :
  match files w !! path with
  | Some d =>
      if readable d
      then exists blob, readCachedFile path env w = (Ok blob, w)
      else exists e, readCachedFile path env w = (Throw e, w)
  | None => exists e, readCachedFile path env w = (Throw e, w)
  end.
Proof.
  rewrite readCachedFile_cases.
  destruct (files w !! path) as [[text|blob]|]; cbn [readable]; eauto.
  destruct (forgiving_base64_decode (data_url_body text)); eauto.
Qed.

Lemma convertBook_result response_ok localBook env w :
  exists result,
    convertBook response_ok localBook env w = (Ok result, w)
    /\ (is_Some result <->
        (exists path d,
           local_content_path localBook = Some path
           /\ nonempty path = true
           /\ files w !! path = Some d
           /\ readable d = true)
        \/ (nonempty (content_url localBook) = true
            /\ is_Some (http env (content_url localBook))
            /\ response_ok (content_url localBook) = true))
    /\ forall book,
         result = Some book ->
         Page.id book = id localBook
         /\ Page.title book = title localBook
         /\ Page.type book = "application/epub+zip"
         /\ Page.progress book = read_progress localBook
         /\ Page.is_manual book = is_manual localBook
         /\ Page.supabaseId book =
              (if synced_with_supabase localBook
               then Some (id localBook) else None).
Proof.
  assert (Second : forall cached : option Page.File,
    (cached = None ->
     ~ exists path d,
         local_content_path localBook = Some path
         /\ nonempty path = true
         /\ files w !! path = Some d
         /\ readable d = true) ->
    (forall file, cached = Some file ->
       blob_type (Page.blob file) = "application/epub+zip"
       /\ exists path d,
            local_content_path localBook = Some path
            /\ nonempty path = true
            /\ files w !! path = Some d
            /\ readable d = true) ->
    exists result,
      (let* file :=
         if negb (bool_decide (is_Some cached))
            && nonempty (content_url localBook)
         then
           try_catch (fetchBookFile response_ok (content_url localBook))
             (fun _ => ret cached)
         else ret cached in
       match file with
       | None => ret None
       | Some file =>
           ret (Some
                  {| Page.id := id localBook;
                     Page.title := title localBook;
                     Page.type := blob_type (Page.blob file);
                     Page.progress := read_progress localBook;
                     Page.file := file;
                     Page.shelf := 1;
                     Page.coverUrl := Some (cover_image localBook);
                     Page.supabaseId :=
                       if synced_with_supabase localBook
                       then Some (id localBook) else None;
                     Page.is_manual := is_manual localBook;
                     Page.local_content_path := local_content_path localBook |})
       end) env w = (Ok result, w)
      /\ (is_Some result <->
          (exists path d,
             local_content_path localBook = Some path
             /\ nonempty path = true
             /\ files w !! path = Some d
             /\ readable d = true)
          \/ (nonempty (content_url localBook) = true
              /\ is_Some (http env (content_url localBook))
              /\ response_ok (content_url localBook) = true))
      /\ forall book,
           result = Some book ->
           Page.id book = id localBook
           /\ Page.title book = title localBook
           /\ Page.type book = "application/epub+zip"
           /\ Page.progress book = read_progress localBook
           /\ Page.is_manual book = is_manual localBook
           /\ Page.supabaseId book =
                (if synced_with_supabase localBook
                 then Some (id localBook) else None)).
  { intros [file|] Hnone Hsome.
    - destruct (Hsome file eq_refl) as [Ty Hc].
      eexists. split; [reflexivity|]. split.
      + split; [intros _; left; exact Hc | eauto].
      + intros book [= <-]. cbn. rewrite Ty. repeat split.
    - specialize (Hnone eq_refl). cbn [negb andb bool_decide].
      rewrite bool_decide_eq_false_2 by (intros [? ?]; discriminate).
      cbn [negb andb].
      destruct (nonempty (content_url localBook)) eqn:N.
      + rewrite bind_eq. unfold try_catch. rewrite fetchBookFile_cases.
        destruct (http env (content_url localBook)) as [blob|] eqn:H.
        * destruct (response_ok (content_url localBook)) eqn:O.
          -- eexists. split; [reflexivity|]. split.
             ++ split; [intros _; right; eauto | eauto].
             ++ intros book [= <-]. cbn. repeat split.
          -- eexists. split; [reflexivity|]. split; [|discriminate]. split.
             ++ intros [? ?]. discriminate.
             ++ intros [Hc|(_ & _ & ?)]; [contradiction | discriminate].
        * eexists. split; [reflexivity|]. split; [|discriminate]. split.
          -- intros [? ?]. discriminate.
          -- intros [Hc|(_ & [? ?] & _)]; [contradiction | discriminate].
      + eexists. split; [reflexivity|]. split; [|discriminate]. split.
        * intros [? ?]. discriminate.
        * intros [Hc|(? & _)]; [contradiction | discriminate]. }
  assert (First : exists cached : option Page.File,
    (if truthy (local_content_path localBook)
     then
       try_catch
         (let* blob := readCachedFile (default "" (local_content_path localBook)) in
          ret (Some (epub_file blob (title localBook +:+ ".epub"))))
         (fun _ => ret None)
     else ret None) env w = (Ok cached, w)
    /\ (cached = None ->
        ~ exists path d,
            local_content_path localBook = Some path
            /\ nonempty path = true
            /\ files w !! path = Some d
            /\ readable d = true)
    /\ (forall file, cached = Some file ->
          blob_type (Page.blob file) = "application/epub+zip"
          /\ exists path d,
               local_content_path localBook = Some path
               /\ nonempty path = true
               /\ files w !! path = Some d
               /\ readable d = true)).
  { destruct (local_content_path localBook) as [path|]; cbn [truthy].
    - destruct (nonempty path) eqn:N.
      + unfold try_catch. rewrite bind_eq.
        change (default "" (Some path)) with path.
        pose proof (readCachedFile_readable path env w) as R.
        destruct (files w !! path) as [d|] eqn:F.
        * destruct (readable d) eqn:Rd.
          -- destruct R as [blob R]. rewrite R. unfold ret.
             eexists. split; [reflexivity|]. split; [discriminate|].
             intros file [= <-]. split; [reflexivity|]. eauto 10.
          -- destruct R as [e R]. rewrite R.
             eexists. split; [reflexivity|]. split; [|discriminate].
             intros _ (p & d' & [= <-] & _ & F' & Rd'). congruence.
        * destruct R as [e R]. rewrite R.
          eexists. split; [reflexivity|]. split; [|discriminate].
          intros _ (p & d' & [= <-] & _ & F' & _). congruence.
      + eexists. split; [reflexivity|]. split; [|discriminate].
        intros _ (p & d' & [= <-] & N' & _). congruence.
    - eexists. split; [reflexivity|]. split; [|discriminate].
      intros _ (p & d' & ? & _). discriminate. }
  destruct First as (cached & E & Hnone & Hsome).
  unfold convertBook. rewrite bind_eq, E. apply Second; assumption.
Qed.

(** X26. The conversion of [loadBooks] never throws and changes nothing; it
    gives a book exactly when the local content path holds a file that
    [readCachedFile] reads (a Blob, or a string that the fetch of its
    [data:] URL decodes as base64, with or without padding) or, failing
    that, the content url can be fetched with an ok status; the book has
    the record's id, title, progress and manual flag, the type
    application/epub+zip, and a [supabaseId] only when the record is synced. *)
Theorem convertBook_shows_a_book_iff_it_has_a_file response_ok localBook env w :
  exists result,
    convertBook response_ok localBook env w = (Ok result, w)
    /\ (is_Some result <->
        (exists path d,
           local_content_path localBook = Some path
           /\ nonempty path = true
           /\ files w !! path = Some d
           /\ readable d = true)
        \/ (nonempty (content_url localBook) = true
            /\ is_Some (http env (content_url localBook))
            /\ response_ok (content_url localBook) = true))
    /\ forall book,
         result = Some book ->
         Page.id book = id localBook
         /\ Page.title book = title localBook
         /\ Page.type book = "application/epub+zip"
         /\ Page.progress book = read_progress localBook
         /\ Page.is_manual book = is_manual localBook
         /\ Page.supabaseId book =
              (if synced_with_supabase localBook
               then Some (id localBook) else None).
Proof. apply convertBook_result. Qed.

(** A record whose cached file has no padding and whose url answers with
    an error status is shown, from the cache. *)
Example convertBook_file_without_padding :
  let w := set_files (<["cache/x" := DataString "TWE"]> ∅) demo_world in
  exists book,
    convertBook (fun _ => false) demo_synced (demo_env true failure) w
    = (Ok (Some book), w)
    /\ blob_bytes (Page.blob (Page.file book)) = [Byte.x4d; Byte.x61].
Proof. cbv zeta. eexists. split; vm_compute; reflexivity. Qed.

Lemma convertBook_converted response_ok localBook env w :
  convertBook response_ok localBook env w
  = (Ok (converted response_ok env w localBook), w).
Proof.
  unfold converted.
  destruct (convertBook_result response_ok localBook env w) as (r & E & _).
  rewrite E. reflexivity.
Qed.

Lemma for_each_convertBook response_ok l env w :
  for_each (convertBook response_ok) l env w
  = (Ok (map (converted response_ok env w) l), w).
Proof.
  induction l as [|lb l IH]; [reflexivity|].
  cbn [for_each map]. rewrite bind_eq, convertBook_converted, bind_eq, IH.
  reflexivity.
Qed.

Lemma In_omap_map {A B : Type} (f : A -> option B) (l : list A) (b : B) :
  In b (omap (fun x => x) (map f l)) <-> exists a, In a l /\ f a = Some b.
Proof.
  rewrite <- list_elem_of_In, list_elem_of_omap. split.
  - intros (o & Ho & ->). apply list_elem_of_In, in_map_iff in Ho.
    destruct Ho as (a & Ha & Hin). eauto.
  - intros (a & Hin & Ha). exists (Some b). split; [|reflexivity].
    apply list_elem_of_In, in_map_iff. eauto.
Qed.

Lemma fetchBooks_returns env w :
  exists localBooks w1, fetchBooks env w = (Ok localBooks, w1).
Proof.
  destruct (fetchBooks_shape env w) as [[E _]|(processed & w1 & E & _)]; eauto.
Qed.

Lemma loadBooks_spec response_ok shown env w localBooks w1 :
  fetchBooks env w = (Ok localBooks, w1) ->
  loadBooks response_ok shown env w
  = (Ok (omap (fun book => book) (map (converted response_ok env w1) localBooks)),
     w1).
Proof.
  intros E. unfold loadBooks, try_catch.
  rewrite bind_eq, E, bind_eq, for_each_convertBook. reflexivity.
Qed.

(** X27. [loadBooks] never throws; the shelf it sets holds exactly the
    conversions of the books [fetchBooks] returned that have a file,
    whatever was on the shelf before, and every book on it has the type
    application/epub+zip. *)
Theorem loadBooks_shows_the_fetched_books_with_a_file response_ok shown env w :
  exists localBooks books w1,
    fetchBooks env w = (Ok localBooks, w1)
    /\ loadBooks response_ok shown env w = (Ok books, w1)
    /\ (forall book,
          In book books <->
          exists localBook,
            In localBook localBooks
            /\ convertBook response_ok localBook env w1 = (Ok (Some book), w1))
    /\ Forall (fun book => Page.type book = "application/epub+zip") books.
Proof.
  destruct (fetchBooks_returns env w) as (localBooks & w1 & E).
  exists localBooks. eexists. exists w1. split; [exact E|].
  split; [apply loadBooks_spec; exact E|].
  assert (Iff : forall book,
    In book (omap (fun book => book)
               (map (converted response_ok env w1) localBooks)) <->
    exists localBook,
      In localBook localBooks
      /\ convertBook response_ok localBook env w1 = (Ok (Some book), w1)).
  { intros book. rewrite In_omap_map. split.
    - intros (lb & Hin & C). exists lb. split; [exact Hin|].
      rewrite convertBook_converted, C. reflexivity.
    - intros (lb & Hin & C). exists lb. split; [exact Hin|].
      rewrite convertBook_converted in C. congruence. }
  split; [exact Iff|].
  apply List.Forall_forall. intros book Hin.
  apply Iff in Hin. destruct Hin as (lb & _ & C).
  destruct (convertBook_result response_ok lb env w1) as (r & E' & _ & Fd).
  rewrite E' in C. injection C as ->.
  destruct (Fd book eq_refl) as (_ & _ & Ty & _). exact Ty.
Qed.

(** X28. A book imported with [addManualBook], from a file whose media type
    has not the text [base64,], is on the shelf after a later [loadBooks]
    made offline or with the catalog failing: manual, without [supabaseId],
    with the title given, a file named <title>.epub and the bytes of the
    imported file. *)
Theorem imported_book_is_on_the_shelf_without_the_catalog env env' response_ok
  shown w objectUrl contentUrl name coverUrl db blob :
  sqlite w = Some db ->
  http env objectUrl = Some blob ->
  includes (blob_type blob) "base64," = false ->
  navigator_onLine env' = false \/ is_Some (error (remote_books env')) ->
  exists (newBook : LocalBook) w',
    addManualBook objectUrl contentUrl name coverUrl env w = (Ok newBook, w')
    /\ exists books w1 book,
         loadBooks response_ok shown env' w' = (Ok books, w1)
         /\ In book books
         /\ Page.id book = id newBook
         /\ Page.title book = name
         /\ Page.is_manual book = true
         /\ Page.supabaseId book = None
         /\ blob_bytes (Page.blob (Page.file book)) = blob_bytes blob
         /\ Page.name (Page.file book) = name +:+ ".epub".
Proof.
  intros Hdb Hf Ht Hoff.
  destruct (addManualBook_ok env w objectUrl contentUrl name coverUrl blob Hf
              (storable_plain blob Ht))
    as (nb & w0 & E & Sq & F & _ & T & _ & M & Sy & L).
  assert (Hs : is_Some (sqlite w0)) by (rewrite Sq, Hdb; eauto).
  assert (Fo : found (sqlite (saved nb w0)) (id nb) = Some (stored nb))
    by (apply found_saved; exact Hs).
  exists nb, (saved nb w0). split; [exact E|].
  set (w' := saved nb w0) in *.
  assert (Ef : fetchBooks env' w'
               = (Ok (validBooks_at (clock env' (ticks w')) (sqlite w')), tick w')).
  { destruct Hoff as [Off|Err].
    - apply fetchBooks_offline_spec. exact Off.
    - destruct (navigator_onLine env') eqn:On.
      + apply fetchBooks_remote_error_spec; assumption.
      + apply fetchBooks_offline_spec. exact On. }
  assert (V : In (stored nb) (validBooks_at (clock env' (ticks w')) (sqlite w'))).
  { unfold validBooks_at. apply filter_In. split.
    - eapply found_In_listed, Fo.
    - unfold is_valid. cbn [is_manual stored]. rewrite M. reflexivity. }
  destruct (saved_frame nb w0) as (Fi & _ & _).
  rewrite stored_text_plain in F by exact Ht.
  assert (Fw : files (tick w') !! cache_path (clock env (S (S (ticks w)))) "epub"
               = Some (DataString (b64_encode (blob_bytes blob)))).
  { cbn [files tick]. subst w'. rewrite Fi. exact F. }
  assert (C : convertBook response_ok (stored nb) env' (tick w')
              = (Ok (Some
                       {| Page.id := id nb;
                          Page.title := title nb;
                          Page.type := "application/epub+zip";
                          Page.progress := read_progress nb;
                          Page.file :=
                            epub_file
                              {| blob_bytes := blob_bytes blob;
                                 blob_type := "application/epub+zip" |}
                              (title nb +:+ ".epub");
                          Page.shelf := 1;
                          Page.coverUrl := Some (cover_image nb);
                          Page.supabaseId := None;
                          Page.is_manual := true;
                          Page.local_content_path := local_content_path nb |}),
                 tick w')).
  { unfold convertBook. rewrite bind_eq.
    change (local_content_path (stored nb)) with (local_content_path nb).
    rewrite L.
    assert (N : nonempty (cache_path (clock env (S (S (ticks w)))) "epub") = true)
      by apply cache_path_nonempty.
    cbn [truthy]. rewrite N. unfold try_catch at 1. rewrite bind_eq.
    change (default "" (Some ?p)) with p.
    rewrite (readCachedFile_encoded _ _ _ _ Fw).
    unfold ret at 1 2. rewrite bind_eq.
    rewrite bool_decide_eq_true_2 by eauto. cbn [negb andb]. unfold ret at 1.
    change (synced_with_supabase (stored nb)) with (synced_with_supabase nb).
    change (is_manual (stored nb)) with (is_manual nb).
    rewrite Sy, M. reflexivity. }
  eexists _, _, _. split; [apply loadBooks_spec; exact Ef|].
  split.
  { apply In_omap_map. exists (stored nb). split; [exact V|].
    unfold converted. rewrite C. reflexivity. }
  cbn. rewrite T. repeat split.
Qed.

Lemma imported_book_is_on_the_shelf_without_the_catalog_witness :
  exists (newBook : LocalBook) w' books w1 book,
    addManualBook "blob:1" "blob:2" "My Book" None (demo_env true failure)
      demo_world = (Ok newBook, w')
    /\ loadBooks (fun _ => true) []
         (demo_env_at 1900000000000 false failure) w' = (Ok books, w1)
    /\ In book books
    /\ Page.id book = id newBook
    /\ Page.is_manual book = true.
Proof.
  destruct (imported_book_is_on_the_shelf_without_the_catalog
              (demo_env true failure)
              (demo_env_at 1900000000000 false failure) (fun _ => true) []
              demo_world "blob:1" "blob:2" "My Book" None
              (table_of [demo_manual; demo_synced]) demo_blob
              eq_refl eq_refl eq_refl (or_introl eq_refl))
    as (nb & w' & E & books & w1 & book & Lo & Hin & I & _ & M & _).
  exists nb, w', books, w1, book. repeat split; assumption.
Defined.

(** ** Removing and closing a book *)

(** X29. [handleRemoveBook] never throws and touches no file and no row of
    another id. For a record that is not manual the shelf and the store stay
    as they are; otherwise the id has no row afterwards and the shelf is the
    old one without the books of that id. *)
Theorem handleRemoveBook_keeps_shelf_and_store_together books book env w :
  exists books' w',
    handleRemoveBook books book env w = (Ok books', w')
    /\ files w' = files w
    /\ (forall key, key <> Page.id book -> row_of w' key = row_of w key)
    /\ ((exists localBook,
           found (sqlite w) (Page.id book) = Some localBook
           /\ is_manual localBook = false) ->
        books' = books /\ w' = w)
    /\ (~ (exists localBook,
             found (sqlite w) (Page.id book) = Some localBook
             /\ is_manual localBook = false) ->
        row_of w' (Page.id book) = None
        /\ forall b,
             In b books' <-> In b books /\ Page.id b <> Page.id book).
Proof.
  unfold handleRemoveBook, try_catch. rewrite bind_eq, removeBook_spec.
  assert (Fl : forall b,
    In b (List.filter
            (fun b => negb (String.eqb (Page.id b) (Page.id book))) books)
    <-> In b books /\ Page.id b <> Page.id book).
  { intros b. rewrite filter_In, negb_true_iff.
    destruct (String.eqb_spec (Page.id b) (Page.id book)) as [e|n].
    - split; [intros [_ ?]; discriminate | intros [_ ?]; contradiction].
    - split; intros [? _]; split; auto. }
  destruct (found (sqlite w) (Page.id book)) as [lb|] eqn:F.
  - destruct (is_manual lb) eqn:M.
    + eexists _, _. split; [reflexivity|].
      destruct (sqlite w) as [db|] eqn:D; [|discriminate].
      split; [reflexivity|]. split.
      { intros key Hk. unfold row_of. rewrite D. cbn [sqlite set_sqlite].
        apply lookup_delete_ne. congruence. }
      split.
      { intros (lb' & [= <-] & M'). congruence. }
      intros _. split; [|exact Fl].
      unfold row_of. cbn [sqlite set_sqlite]. apply lookup_delete_eq.
    + eexists _, _. split; [reflexivity|]. split; [reflexivity|].
      split; [reflexivity|]. split; [auto|].
      intros N. exfalso. apply N. eauto.
  - eexists _, _. split; [reflexivity|]. split; [reflexivity|].
    split; [reflexivity|]. split.
    { intros (lb' & ? & _). discriminate. }
    intros _. split; [|exact Fl].
    rewrite found_row_of in F. destruct (row_of w (Page.id book)); [discriminate|].
    reflexivity.
Qed.

(** X30. Closing a book that [loadBooks] converted clears the selection and
    never throws. Nothing is written when the record is not synced, has no
    positive progress or has an empty id; for a synced record with positive
    progress and a non-empty id that is in the store, the stored record gets
    that progress and the current time, and no file is touched. *)
Theorem closeBook_saves_progress_of_synced_books_only response_ok localBook
  env0 w0 book env w :
  convertBook response_ok localBook env0 w0 = (Ok (Some book), w0) ->
  exists w',
    closeBook (Some book) env w = (Ok None, w')
    /\ (synced_with_supabase localBook = false
        \/ read_progress localBook <= 0
        \/ id localBook = "" ->
        w' = w)
    /\ (synced_with_supabase localBook = true ->
        0 < read_progress localBook ->
        id localBook <> "" ->
        forall old,
          found (sqlite w) (id localBook) = Some old ->
          found (sqlite w') (id localBook)
          = Some (progressed (read_progress localBook) (clock env (ticks w)) old)
          /\ files w' = files w).
Proof.
  intros C.
  destruct (convertBook_result response_ok localBook env0 w0)
    as (r & E & _ & Fd).
  rewrite E in C. injection C as ->.
  destruct (Fd book eq_refl) as (I & _ & _ & P & _ & Su).
  unfold closeBook. rewrite bind_eq, Su, P.
  destruct (synced_with_supabase localBook) eqn:Sy.
  - change (default "" (Some (id localBook))) with (id localBook).
    cbn [truthy].
    destruct (nonempty (id localBook)) eqn:N.
    + destruct (read_progress localBook >? 0) eqn:G; cbn [andb].
      * apply Z.gtb_lt in G. rewrite updateBookProgress_spec.
        destruct (found (sqlite w) (id localBook)) as [old|] eqn:Fo.
        -- cbv zeta.
           set (b' := progressed (read_progress localBook)
                        (clock env (ticks w)) old).
           assert (Hs : is_Some (sqlite w)) by (eapply found_is_Some; eauto).
           assert (Hid : id b' = id localBook) by (apply (found_id _ _ _ Fo)).
           assert (Hst : stored b' = b').
           { subst b'. rewrite <- (found_stored _ _ _ Fo). reflexivity. }
           assert (Hf : found (sqlite (saved b' (tick w))) (id localBook)
                        = Some b').
           { rewrite <- Hid at 1. rewrite found_saved by exact Hs.
             rewrite Hst. reflexivity. }
           assert (Hfiles : files (saved b' (tick w)) = files w).
           { unfold saved. simpl. destruct (sqlite w); reflexivity. }
           eexists. split; [reflexivity|]. split.
           { intros [?|[?|Em]]; [discriminate | lia |].
             rewrite Em in N. discriminate. }
           intros _ _ _ old' [= <-].
           destruct (synced_with_supabase old && navigator_onLine env);
             cbn [emit sqlite files]; split; assumption.
        -- eexists. split; [reflexivity|]. split; [reflexivity|].
           intros _ _ _ old' ?. discriminate.
      * rewrite Z.gtb_ltb in G. apply Z.ltb_ge in G.
        eexists. split; [reflexivity|]. split; [reflexivity|].
        intros _ ?. lia.
    + cbn [andb]. eexists. split; [reflexivity|]. split; [reflexivity|].
      intros _ _ Ne. destruct (id localBook); [contradiction | discriminate N].
  - cbn [truthy andb]. eexists. split; [reflexivity|]. split; [reflexivity|].
    intros ?. discriminate.
Qed.

Lemma closeBook_saves_progress_of_synced_books_only_witness :
  exists book,
    converted (fun _ => true) (demo_env true failure) demo_world demo_manual
    = Some book
    /\ closeBook (Some book) (demo_env true failure) demo_world
       = (Ok None, demo_world).
Proof.
  assert (E : exists book,
             converted (fun _ => true) (demo_env true failure) demo_world
               demo_manual = Some book) by (vm_compute; eauto).
  destruct E as [book E]. exists book. split; [exact E|].
  destruct (closeBook_saves_progress_of_synced_books_only (fun _ => true)
              demo_manual (demo_env true failure) demo_world book
              (demo_env true failure) demo_world) as (w' & C & U & _).
  { rewrite convertBook_converted, E. reflexivity. }
  rewrite C, U; [reflexivity|]. left. reflexivity.
Defined.
